(** * satellite-earth/message: the signed message envelope of [src/index.js]

    A shallow embedding of the [Message] class and of the part of the
    JavaScript object model its methods rely on, followed by the properties
    of the envelope stated in the specification.

    Modelling choices, once and for all:
    - a JavaScript string is the list of its UTF-16 code units;
    - objects live in a store and are referred to by location, so that two
      references to one object alias (the constructor keeps the caller's
      object as its signed bucket, [payload] hands out fresh objects);
    - an object is its list of own enumerable data properties in creation
      order; [Object.keys] lists array-index names first, in ascending
      numeric order, as the language prescribes;
    - values are [undefined], [null], booleans, integer-valued numbers,
      strings and references to plain objects.  Functions, symbols, arrays,
      accessor properties and numbers with a fractional part are outside the
      universe of values.  The numbers of the universe are the safe integers
      (magnitude at most 2^53 - 1), the ones JavaScript prints digit by
      digit: a statement about the text of an arbitrary number assumes
      [safe_integer];
    - every object keeps the prototype it is created with, [Object.prototype].
      The only way this code could change one is an assignment to the name
      [__proto__] of an object or [null] ([replaces_prototype]); what is read
      through a replaced prototype is outside the model: a statement about
      the names a merge does not give assumes that no prototype is replaced;
    - a method is a function from the store to an outcome and a store; a
      thrown exception keeps the writes made before it;
    - the Identity & Signing Service is a parameter of [sign], [verify] and
      [verifySync]: it answers from what it sees of the store and does not
      write to the objects in it ([signData] may create objects of its own
      for its answer).  The [uri] accessor and the [authorAlias] accessors
      do all their work in functions of the package
      [@satellite-earth/dev-utils], which is not part of the sources: they
      are not embedded.

    The first part holds the definitions (the language fragment, the class,
    the notions used in the statements), the second part the lemmas and the
    theorems. *)

From Stdlib Require Import ZArith NArith List Lia Bool Ascii String.
From stdpp Require Import base list strings sorting.

Local Open Scope Z_scope.

(** ** Strings as sequences of UTF-16 code units *)

Definition jsstring := list N.

(** The code unit of an ASCII character, least significant bit first. *)
Definition bit (b : bool) (n : N) : N :=
  match n with
  | N0 => if b then Npos xH else N0
  | Npos p => Npos (if b then xI p else xO p)
  end.

Definition code (a : ascii) : N :=
  match a with
  | Ascii b0 b1 b2 b3 b4 b5 b6 b7 =>
      bit b0 (bit b1 (bit b2 (bit b3 (bit b4 (bit b5 (bit b6 (bit b7 N0)))))))
  end.

(** A string literal as a JavaScript string. *)
Fixpoint str (s : string) : jsstring :=
  match s with
  | EmptyString => []
  | String a s' => code a :: str s'
  end.

Fixpoint jsstring_eqb (a b : jsstring) : bool :=
  match a, b with
  | [], [] => true
  | x :: a', y :: b' => N.eqb x y && jsstring_eqb a' b'
  | _, _ => false
  end.

(** [s.startsWith(p)], used to define [indexOf]. *)
Fixpoint starts_with (p s : jsstring) : bool :=
  match p, s with
  | [], _ => true
  | x :: p', y :: s' => N.eqb x y && starts_with p' s'
  | _ :: _, [] => false
  end.

(** [s.indexOf(p)]: the least position at which [p] occurs in [s], or -1. *)
Fixpoint indexOf (s p : jsstring) : Z :=
  if starts_with p s then 0
  else match s with
       | [] => -1
       | _ :: s' => let i := indexOf s' p in if i =? -1 then -1 else i + 1
       end.

(** [s.substring(n)] and [s.slice(n)] for [0 <= n]. *)
Definition substring (s : jsstring) (n : Z) : jsstring := drop (Z.to_nat n) s.
Definition slice (s : jsstring) (n : Z) : jsstring := drop (Z.to_nat n) s.
(** [s.substring(0, n)]. *)
Definition substring0 (s : jsstring) (n : Z) : jsstring := take (Z.to_nat n) s.
(** [s.length]. *)
Definition strlen (s : jsstring) : Z := Z.of_nat (length s).

(** [s.split(sep)] for a separator of one code unit: never empty. *)
Fixpoint split (sep : N) (s : jsstring) : list jsstring :=
  match s with
  | [] => [[]]
  | c :: s' =>
      if N.eqb c sep then [] :: split sep s'
      else match split sep s' with
           | [] => [[c]]
           | piece :: rest => (c :: piece) :: rest
           end
  end.

Definition chr (s : string) : N :=
  match s with String a _ => code a | EmptyString => 0%N end.

(** *** [decodeURIComponent] *)

Definition hex_digit (c : N) : option N :=
  if (48 <=? c)%N && (c <=? 57)%N then Some (c - 48)%N
  else if (65 <=? c)%N && (c <=? 70)%N then Some (c - 55)%N
  else if (97 <=? c)%N && (c <=? 102)%N then Some (c - 87)%N
  else None.

Definition hex_byte (h1 h2 : N) : option N :=
  match hex_digit h1, hex_digit h2 with
  | Some a, Some b => Some (16 * a + b)%N
  | _, _ => None
  end.

Definition continuation (b : N) : option N :=
  if (128 <=? b)%N && (b <=? 191)%N then Some (N.land b 63) else None.

(** The code point of a well-formed UTF-8 sequence of two, three or four
    octets; [None] for overlong forms, surrogates and values above
    U+10FFFF. *)
Definition utf8_2 (b0 b1 : N) : option N :=
  match continuation b1 with
  | Some c1 =>
      let v := (N.shiftl (N.land b0 31) 6 + c1)%N in
      if (128 <=? v)%N then Some v else None
  | None => None
  end.

Definition utf8_3 (b0 b1 b2 : N) : option N :=
  match continuation b1, continuation b2 with
  | Some c1, Some c2 =>
      let v := (N.shiftl (N.land b0 15) 12 + N.shiftl c1 6 + c2)%N in
      if (2048 <=? v)%N && negb ((55296 <=? v)%N && (v <=? 57343)%N)
      then Some v else None
  | _, _ => None
  end.

Definition utf8_4 (b0 b1 b2 b3 : N) : option N :=
  match continuation b1, continuation b2, continuation b3 with
  | Some c1, Some c2, Some c3 =>
      let v := (N.shiftl (N.land b0 7) 18 + N.shiftl c1 12
                + N.shiftl c2 6 + c3)%N in
      if (65536 <=? v)%N && (v <=? 1114111)%N then Some v else None
  | _, _, _ => None
  end.

Definition utf16 (v : N) : jsstring :=
  if (v <? 65536)%N then [v]
  else let w := (v - 65536)%N in
       [(55296 + N.shiftr w 10)%N; (56320 + N.land w 1023)%N].

Definition percent : N := 37.

(** The Decode operation of the language definition with an empty reserved
    set; [None] stands for the [URIError] it throws. *)
Fixpoint decodeURIComponent (s : jsstring) : option jsstring :=
  match s with
  | [] => Some []
  | c :: t =>
      if negb (N.eqb c percent) then cons c <$> decodeURIComponent t
      else
        match t with
        | h1 :: h2 :: t1 =>
            match hex_byte h1 h2 with
            | None => None
            | Some b =>
                if (b <? 128)%N then cons b <$> decodeURIComponent t1
                else if (b <? 192)%N then None
                else if (b <? 224)%N then
                  match t1 with
                  | p1 :: x1 :: x2 :: t2 =>
                      if N.eqb p1 percent then
                        match hex_byte x1 x2 with
                        | Some b1 =>
                            match utf8_2 b b1 with
                            | Some v => app (utf16 v) <$> decodeURIComponent t2
                            | None => None
                            end
                        | None => None
                        end
                      else None
                  | _ => None
                  end
                else if (b <? 240)%N then
                  match t1 with
                  | p1 :: x1 :: x2 :: p2 :: y1 :: y2 :: t2 =>
                      if N.eqb p1 percent && N.eqb p2 percent then
                        match hex_byte x1 x2, hex_byte y1 y2 with
                        | Some b1, Some b2 =>
                            match utf8_3 b b1 b2 with
                            | Some v => app (utf16 v) <$> decodeURIComponent t2
                            | None => None
                            end
                        | _, _ => None
                        end
                      else None
                  | _ => None
                  end
                else if (b <? 248)%N then
                  match t1 with
                  | p1 :: x1 :: x2 :: p2 :: y1 :: y2 :: p3 :: z1 :: z2 :: t2 =>
                      if N.eqb p1 percent && N.eqb p2 percent
                         && N.eqb p3 percent then
                        match hex_byte x1 x2, hex_byte y1 y2, hex_byte z1 z2 with
                        | Some b1, Some b2, Some b3 =>
                            match utf8_4 b b1 b2 b3 with
                            | Some v => app (utf16 v) <$> decodeURIComponent t2
                            | None => None
                            end
                        | _, _, _ => None
                        end
                      else None
                  | _ => None
                  end
                else None
            end
        | _ => None
        end
  end.

(** ** Values, objects and the store *)

Abbreviation loc := nat (only parsing).

Inductive value :=
| VUndef
| VNull
| VBool (b : bool)
| VNum (n : Z)
| VStr (s : jsstring)
| VObj (l : loc).

(** The own enumerable data properties of an object, in creation order. *)
Abbreviation object := (list (jsstring * value)) (only parsing).
Abbreviation heap := (list object) (only parsing).

Inductive jstype := TUndefined | TObject | TBoolean | TNumber | TString.

Definition typeof (v : value) : jstype :=
  match v with
  | VUndef => TUndefined
  | VNull | VObj _ => TObject
  | VBool _ => TBoolean
  | VNum _ => TNumber
  | VStr _ => TString
  end.

Definition jstype_eqb (a b : jstype) : bool :=
  match a, b with
  | TUndefined, TUndefined | TObject, TObject | TBoolean, TBoolean
  | TNumber, TNumber | TString, TString => true
  | _, _ => false
  end.

(** ToBoolean: what [if (v)], [!v] and [v || w] test. *)
Definition truthy (v : value) : bool :=
  match v with
  | VUndef | VNull => false
  | VBool b => b
  | VNum n => negb (n =? 0)
  | VStr s => match s with [] => false | _ => true end
  | VObj _ => true
  end.

(** [a === b]. *)
Definition strict_eq (a b : value) : bool :=
  match a, b with
  | VUndef, VUndef | VNull, VNull => true
  | VBool x, VBool y => Bool.eqb x y
  | VNum x, VNum y => x =? y
  | VStr x, VStr y => jsstring_eqb x y
  | VObj x, VObj y => Nat.eqb x y
  | _, _ => false
  end.

(** *** Property names and their order *)

Fixpoint digits_value (s : jsstring) (acc : N) : option N :=
  match s with
  | [] => Some acc
  | c :: s' =>
      if (48 <=? c)%N && (c <=? 57)%N
      then digits_value s' (10 * acc + (c - 48))%N
      else None
  end.

(** An array index is a canonical decimal numeral below 2^32 - 1. *)
Definition array_index (k : jsstring) : option N :=
  match k with
  | [] => None
  | c :: rest =>
      if N.eqb c 48 && negb (match rest with [] => true | _ => false end)
      then None
      else match digits_value k 0 with
           | Some n => if (n <? 4294967295)%N then Some n else None
           | None => None
           end
  end.

Fixpoint insert_index (e : N * jsstring) (l : list (N * jsstring))
  : list (N * jsstring) :=
  match l with
  | [] => [e]
  | x :: l' => if (fst e <=? fst x)%N then e :: l else x :: insert_index e l'
  end.

Definition sort_index (l : list (N * jsstring)) : list (N * jsstring) :=
  foldr insert_index [] l.

Definition tag_index (k : jsstring) : option (N * jsstring) :=
  match array_index k with Some n => Some (n, k) | None => None end.

Definition is_index (k : jsstring) : bool :=
  match array_index k with Some _ => true | None => false end.

(** OrdinaryOwnPropertyKeys restricted to string names: array indices in
    ascending order, then the other names in creation order. *)
Definition keys_order (ks : list jsstring) : list jsstring :=
  map snd (sort_index (omap tag_index ks))
  ++ List.filter (fun k => negb (is_index k)) ks.

Definition own_keys (o : object) : list jsstring := keys_order (map fst o).

Fixpoint obj_get (o : object) (k : jsstring) : value :=
  match o with
  | [] => VUndef
  | (k', v) :: o' => if jsstring_eqb k' k then v else obj_get o' k
  end.

Fixpoint has_own (o : object) (k : jsstring) : bool :=
  match o with
  | [] => false
  | (k', _) :: o' => jsstring_eqb k' k || has_own o' k
  end.

(** CreateDataProperty: overwrite in place, or append a new property. *)
Fixpoint obj_define (o : object) (k : jsstring) (x : value) : object :=
  match o with
  | [] => [(k, x)]
  | (k', v) :: o' =>
      if jsstring_eqb k' k then (k', x) :: o' else (k', v) :: obj_define o' k x
  end.

Definition proto_name : jsstring := str "__proto__".

(** The own properties of a plain object after [o[k] = x].  The name
    [__proto__] is an accessor of [Object.prototype] unless the object has
    an own property of that name: assigning to it creates no own property.
    For a primitive [x] other than [null] the accessor does nothing at all;
    for an object or [null] it replaces the prototype of [o] (see
    [replaces_prototype]), which leaves the own properties as they are. *)
Definition obj_set (o : object) (k : jsstring) (x : value) : object :=
  if jsstring_eqb k proto_name && negb (has_own o k) then o
  else obj_define o k x.

(** [o[k] = x] reaches the [__proto__] accessor with an object or [null]
    and so replaces the prototype of [o].  Objects are modelled by their own
    properties: what a later read of [o] finds through the new prototype is
    not represented. *)
Definition replaces_prototype (o : object) (k : jsstring) (x : value) : bool :=
  jsstring_eqb k proto_name && negb (has_own o k)
  && match x with
     | VObj _ | VNull => true
     | _ => false
     end.

(** *** Number to string, for integer values *)

(** The safe integers: every one of them is a Number value, and
    Number::toString prints all its decimal digits.  Beyond them a Number
    stands for a rounded integer and is printed with the fewest digits that
    read back as the same Number (in exponent form from 10^21 on). *)
Definition safe_integer (n : Z) : bool := Z.abs n <=? 9007199254740991.

Fixpoint uint_chars (d : Decimal.uint) : jsstring :=
  match d with
  | Decimal.Nil => []
  | Decimal.D0 d => 48%N :: uint_chars d
  | Decimal.D1 d => 49%N :: uint_chars d
  | Decimal.D2 d => 50%N :: uint_chars d
  | Decimal.D3 d => 51%N :: uint_chars d
  | Decimal.D4 d => 52%N :: uint_chars d
  | Decimal.D5 d => 53%N :: uint_chars d
  | Decimal.D6 d => 54%N :: uint_chars d
  | Decimal.D7 d => 55%N :: uint_chars d
  | Decimal.D8 d => 56%N :: uint_chars d
  | Decimal.D9 d => 57%N :: uint_chars d
  end.

(** Number::toString of a safe integer. *)
Definition number_to_string (n : Z) : jsstring :=
  match n with
  | Z0 => str "0"
  | Zpos p => uint_chars (Pos.to_uint p)
  | Zneg p => str "-" ++ uint_chars (Pos.to_uint p)
  end.

(** ** Outcomes and the store monad *)

Inductive exn :=
| TypeError
| ReferenceError
| URIError
| SyntaxError
| Error (msg : string).

(** [Stuck] is the model's own failure (a reference outside the store, or
    recursion fuel spent); no JavaScript run ends there. *)
Inductive outcome (A : Type) :=
| Ok (a : A)
| Throw (e : exn)
| Stuck.
Arguments Ok {A} a.
Arguments Throw {A} e.
Arguments Stuck {A}.

Definition M (A : Type) : Type := heap -> outcome A * heap.

Definition ret {A} (a : A) : M A := fun h => (Ok a, h).
Definition throw {A} (e : exn) : M A := fun h => (Throw e, h).
Definition bind {A B} (m : M A) (f : A -> M B) : M B :=
  fun h => match m h with
           | (Ok a, h') => f a h'
           | (Throw e, h') => (Throw e, h')
           | (Stuck, h') => (Stuck, h')
           end.

Notation "'let*' x ':=' m 'in' k" := (bind m (fun x => k))
  (at level 10, x pattern, m at level 100, k at level 200).
Notation "m ';;;' k" := (bind m (fun _ => k))
  (at level 100, k at level 200, right associativity).

(** [for (let x of l) body(x)]. *)
Fixpoint for_of {A} (l : list A) (body : A -> M unit) : M unit :=
  match l with
  | [] => ret tt
  | x :: l' => body x ;;; for_of l' body
  end.

(** [{ ... }]: a fresh object. *)
Definition alloc (o : object) : M value :=
  fun h => (Ok (VObj (length h)), h ++ [o]).

(** Own properties of a string primitive. *)
Definition string_prop (s k : jsstring) : value :=
  if jsstring_eqb k (str "length") then VNum (strlen s)
  else match array_index k with
       | Some n => match s !! N.to_nat n with
                   | Some c => VStr [c]
                   | None => VUndef
                   end
       | None => VUndef
       end.

(** [v[k]] (or [v.k]) for a name [k] that the built-in prototypes do not
    define. *)
Definition get (v : value) (k : jsstring) : M value :=
  fun h => match v with
           | VUndef | VNull => (Throw TypeError, h)
           | VBool _ | VNum _ => (Ok VUndef, h)
           | VStr s => (Ok (string_prop s k), h)
           | VObj l => match h !! l with
                       | Some o => (Ok (obj_get o k), h)
                       | None => (Stuck, h)
                       end
           end.

(** [v[k] = x] in strict code (class bodies are strict): assigning to a
    property of a primitive throws. *)
Definition set (v : value) (k : jsstring) (x : value) : M unit :=
  fun h => match v with
           | VObj l => match h !! l with
                       | Some o => (Ok tt, <[l := obj_set o k x]> h)
                       | None => (Stuck, h)
                       end
           | _ => (Throw TypeError, h)
           end.

(** [Object.keys(v)]. *)
Definition Object_keys (v : value) : M (list jsstring) :=
  fun h => match v with
           | VUndef | VNull => (Throw TypeError, h)
           | VBool _ | VNum _ => (Ok [], h)
           | VStr s =>
               (Ok (map (fun i => number_to_string (Z.of_nat i))
                        (seq 0 (length s))), h)
           | VObj l => match h !! l with
                       | Some o => (Ok (own_keys o), h)
                       | None => (Stuck, h)
                       end
           end.

(** [keys.indexOf(k) !== -1] on an array of strings. *)
Definition includes (ks : list jsstring) (k : jsstring) : bool :=
  existsb (jsstring_eqb k) ks.

(** [try { m } catch (err) { handler(err) }]. *)
Definition catch {A} (m : M A) (handler : exn -> M A) : M A :=
  fun h => match m h with
           | (Throw e, h') => handler e h'
           | r => r
           end.

(** CopyDataProperties: the properties [ks] of [source] are read in turn
    and defined on the object under construction. *)
Fixpoint copy_props (source : value) (ks : list jsstring) (target : object)
  : M object :=
  match ks with
  | [] => ret target
  | k :: ks' =>
      let* x := get source k in
      copy_props source ks' (obj_define target k x)
  end.

(** One spread element [...source] of an object literal: the own
    enumerable properties of [source], in [Object.keys] order; [undefined]
    and [null] contribute nothing. *)
Definition spread (target : object) (source : value) : M object :=
  match source with
  | VUndef | VNull => ret target
  | _ => let* ks := Object_keys source in copy_props source ks target
  end.

(** ** JSON *)

(** A JSON text is represented by the syntax tree it denotes; [render]
    gives its characters. *)
#[warnings="-register-all"]
Inductive json :=
| JNull
| JBool (b : bool)
| JNum (n : Z)
| JStr (s : jsstring)
| JObj (fields : list (jsstring * json)).

Definition hex_char (d : N) : N :=
  if (d <? 10)%N then (48 + d)%N else (87 + d)%N.

Definition unicode_escape (c : N) : jsstring :=
  [92%N; 117%N] ++ [hex_char (N.land (N.shiftr c 12) 15);
               hex_char (N.land (N.shiftr c 8) 15);
               hex_char (N.land (N.shiftr c 4) 15);
               hex_char (N.land c 15)].

Definition is_high_surrogate (c : N) : bool := (55296 <=? c)%N && (c <=? 56319)%N.
Definition is_low_surrogate (c : N) : bool := (56320 <=? c)%N && (c <=? 57343)%N.

Definition quote_unit (c : N) : jsstring :=
  if N.eqb c 34 then [92%N; 34%N]
  else if N.eqb c 92 then [92%N; 92%N]
  else if N.eqb c 8 then [92%N; 98%N]
  else if N.eqb c 12 then [92%N; 102%N]
  else if N.eqb c 10 then [92%N; 110%N]
  else if N.eqb c 13 then [92%N; 114%N]
  else if N.eqb c 9 then [92%N; 116%N]
  else if (c <? 32)%N then unicode_escape c
  else if is_high_surrogate c || is_low_surrogate c then unicode_escape c
  else [c].

(** The characters of QuoteJSONString between the quotes: a surrogate
    pair is kept, a lone surrogate is escaped. *)
Fixpoint quote_chars (s : jsstring) : jsstring :=
  match s with
  | [] => []
  | c :: t =>
      match t with
      | d :: t' =>
          if is_high_surrogate c && is_low_surrogate d
          then c :: d :: quote_chars t'
          else quote_unit c ++ quote_chars t
      | [] => quote_unit c
      end
  end.

Definition quote (s : jsstring) : jsstring := [34%N] ++ quote_chars s ++ [34%N].

Fixpoint join (sep : jsstring) (l : list jsstring) : jsstring :=
  match l with
  | [] => []
  | [x] => x
  | x :: l' => x ++ sep ++ join sep l'
  end.

Fixpoint render (j : json) : jsstring :=
  match j with
  | JNull => str "null"
  | JBool true => str "true"
  | JBool false => str "false"
  | JNum n => number_to_string n
  | JStr s => quote s
  | JObj fields =>
      str "{"
      ++ join (str ",")
           (map (fun kv => quote (fst kv) ++ str ":" ++ render (snd kv)) fields)
      ++ str "}"
  end.

(** SerializeJSONObject over the listed property names: a property whose
    value serializes to [undefined] is left out. *)
Fixpoint serialize_props (rec : value -> outcome (option json))
  (o : object) (ks : list jsstring) : outcome (list (jsstring * json)) :=
  match ks with
  | [] => Ok []
  | k :: ks' =>
      match rec (obj_get o k) with
      | Ok r =>
          match serialize_props rec o ks' with
          | Ok fields =>
              Ok (match r with Some j => (k, j) :: fields | None => fields end)
          | Throw e => Throw e
          | Stuck => Stuck
          end
      | Throw e => Throw e
      | Stuck => Stuck
      end
  end.

(** SerializeJSONProperty.  [stack] holds the objects being serialized:
    meeting one of them again is the cyclic-structure [TypeError]. *)
Fixpoint serialize (fuel : nat) (h : heap) (stack : list loc) (v : value)
  : outcome (option json) :=
  match v with
  | VUndef => Ok None
  | VNull => Ok (Some JNull)
  | VBool b => Ok (Some (JBool b))
  | VNum n => Ok (Some (JNum n))
  | VStr s => Ok (Some (JStr s))
  | VObj l =>
      if existsb (Nat.eqb l) stack then Throw TypeError
      else
        match fuel with
        | O => Stuck
        | S fuel' =>
            match h !! l with
            | None => Stuck
            | Some o =>
                match serialize_props (serialize fuel' h (l :: stack)) o
                        (own_keys o) with
                | Ok fields => Ok (Some (JObj fields))
                | Throw e => Throw e
                | Stuck => Stuck
                end
            end
        end
  end.

(** [JSON.stringify(v)]: a JSON text, or [undefined].  The nesting depth is
    bounded by the number of objects in the store. *)
Definition JSON_stringify (v : value) : M (option json) :=
  fun h => (serialize (S (length h)) h [] v, h).

(** The members of an object of a JSON text, defined in text order. *)
Fixpoint parse_members (parse : json -> M value)
  (fs : list (jsstring * json)) (o : object) : M object :=
  match fs with
  | [] => ret o
  | (k, j) :: fs' =>
      let* v := parse j in
      parse_members parse fs' (obj_define o k v)
  end.

(** [JSON.parse(text)] on a text produced by [JSON.stringify]: every object
    of the text is a fresh object. *)
Fixpoint JSON_parse (j : json) : M value :=
  match j with
  | JNull => ret VNull
  | JBool b => ret (VBool b)
  | JNum n => ret (VNum n)
  | JStr s => ret (VStr s)
  | JObj fields =>
      let* o := parse_members JSON_parse fields [] in
      alloc o
  end.

(** The value an assignment of [JSON.stringify(v)] stores. *)
Definition text_value (t : option json) : value :=
  match t with
  | Some j => VStr (render j)
  | None => VUndef
  end.

(** ** The Identity & Signing Service *)

(** The argument bound to [domain = []]: the default applies when the
    caller passes nothing (or [undefined]). *)
Inductive domain_arg := DefaultDomain | GivenDomain (v : value).

Definition default_domain (domain : value) : domain_arg :=
  match domain with
  | VUndef => DefaultDomain
  | _ => GivenDomain domain
  end.

(** What [verify] reads from the service's answer: nothing can be read
    from [undefined] or [null]; any other answer has an [alias] property
    (possibly [undefined]). *)
Inductive authorship := NoAuthorship | Authorship (alias : value).

(** A call into the service either returns or throws (for the suspending
    variant: the awaited promise is fulfilled or rejected).  The service
    looks at the envelope and does not write to the store. *)
Inductive reply := Resolves (a : authorship) | Rejects.

Record Earth := {
  verifyData : heap -> value -> domain_arg -> reply;
  verifyDataSync : heap -> value -> value -> domain_arg -> reply
}.

(** What [sign] takes from the answer of [signData] by destructuring:
    nothing can be taken from [undefined] or [null]; any other answer has a
    [_params_] property (possibly [undefined]). *)
Inductive signing := NoSigning | Signing (params : value).

(** The awaited promise of [signData] is fulfilled, after the service has
    created the objects of its answer (they are appended to the store), or
    rejected with an error. *)
Inductive sign_reply :=
| Fulfils (created : list (list (jsstring * value))) (s : signing)
| Refuses (err : exn).

Record Signer := {
  signData : heap -> value -> domain_arg -> sign_reply
}.

(** ** Errors of the envelope, under the names of the specification *)

Definition InvalidInputKind : exn :=
  Error "Must provide message as json or url-encoded data".
Definition MissingService : exn := Error "Must provide Earth API instance".
Definition MissingSigningService : exn :=
  Error "Missing required Earth API instance".
Definition MissingSignature : exn := Error "Missing required 'sig' param".
Definition VerificationFailed : exn := Error "Failed to get alias".
Definition AuthorMismatch : exn :=
  Error "Alias linked to address does not match alias in _params_".
Definition NoSignature : exn :=
  Error "Cannot access 'uuid' for unsigned message.".

(** ** The class [Message] *)

Module Message.

Definition _signed_ : jsstring := str "_signed_".
Definition _params_ : jsstring := str "_params_".
Definition verified : jsstring := str "verified".
Definition alias : jsstring := str "alias".
Definition sig : jsstring := str "sig".
Definition address : jsstring := str "address".

(** [kvp[i]] handed to [decodeURIComponent], which turns a missing
    element ([undefined]) into the string ["undefined"]. *)
Definition element (kvp : list jsstring) (i : nat) : jsstring :=
  match kvp !! i with
  | Some x => x
  | None => str "undefined"
  end.

Definition decode (s : jsstring) : M jsstring :=
  match decodeURIComponent s with
  | Some r => ret r
  | None => throw URIError
  end.

(** The body of [for (let c of s.split('&'))]: one [key=value] component
    routed into the buckets of [payload]. *)
Definition route (payload : value) (c : jsstring) : M unit :=
  let kvp := split (chr "=") c in
  let* key := decode (element kvp 0) in
  let* val := decode (element kvp 1) in
  let* prefixes := Object_keys payload in
  for_of prefixes (fun prefix =>
    if negb (indexOf key prefix =? -1) then
      let* bucket := get payload prefix in
      set bucket (substring key (strlen prefix)) (VStr val)
    else ret tt).

(** [new Message(data)]; the result is the new instance [this]. *)
Definition constructor (data : value) : M value :=
  let* this := alloc [] in
  let payload0 := VUndef in
  let* payload :=
    if jstype_eqb (typeof data) TObject then
      let* s := get data _signed_ in
      if truthy s then ret data else alloc [(_signed_, data)]
    else if jstype_eqb (typeof data) TString then
      let* sb := alloc [] in
      let* pb := alloc [] in
      let* payload := alloc [(_signed_, sb); (_params_, pb)] in
      let data := match data with VStr d => d | _ => [] end in
      let i0 := indexOf data (str "?") in
      let i1 := indexOf data (str "#") in
      let i := if i0 >? i1 then i0 else i1 in
      let s := if i >? -1 then slice data (i + 1) else data in
      for_of (split (chr "&") s) (route payload) ;;;
      ret payload
    else if jstype_eqb (typeof payload0) TUndefined then
      alloc []
    else
      throw InvalidInputKind in
  let* s := get payload _signed_ in
  let* s := if truthy s then ret s else alloc [] in
  set this _signed_ s ;;;
  let* p := get payload _params_ in
  let* p := if truthy p then ret p else alloc [] in
  set this _params_ p ;;;
  let* s := get this _signed_ in
  let* keys := Object_keys s in
  for_of keys (fun key =>
    let* s := get this _signed_ in
    let* value := get s key in
    if negb (jstype_eqb (typeof value) TString) then
      let* s := get this _signed_ in
      let* t := JSON_stringify value in
      set s key (text_value t)
    else ret tt) ;;;
  set this verified (VBool false) ;;;
  ret this.

(** [get signature ()]. *)
Definition signature (this : value) : M value :=
  let* p := get this _params_ in
  get p sig.

(** [get authorAddress ()]. *)
Definition authorAddress (this : value) : M value :=
  let* p := get this _params_ in
  get p address.

(** [get keys ()]. *)
Definition keys (this : value) : M (list jsstring) :=
  let* s := get this _signed_ in
  Object_keys s.

Definition call_service (r : reply) : M authorship :=
  match r with
  | Resolves a => ret a
  | Rejects => throw VerificationFailed
  end.

(** [authorship.alias]. *)
Definition authorship_alias (a : authorship) : M value :=
  match a with
  | NoAuthorship => throw TypeError
  | Authorship x => ret x
  end.

(** The part of [verify] and [verifySync] after the service has answered. *)
Definition reconcile (this claimedAlias : value) (a : authorship) : M value :=
  let* mismatch :=
    if truthy claimedAlias then
      let* resolved := authorship_alias a in
      ret (negb (strict_eq claimedAlias resolved))
    else ret false in
  (if mismatch then throw AuthorMismatch
   else
     let* p := get this _params_ in
     let* resolved := authorship_alias a in
     set p alias resolved) ;;;
  set this verified (VBool true) ;;;
  ret this.

(** [async verify (earth, domain = [])], run to the settlement of its
    promise: a rejection is a [Throw]. *)
Definition verify (this : value) (earth : option Earth) (domain : value)
  : M value :=
  match earth with
  | None => throw MissingService
  | Some e =>
      let* p := get this _params_ in
      let* claimedAlias := get p alias in
      let* s := signature this in
      if negb (truthy s) then throw MissingSignature
      else
        let* a := (fun h =>
          call_service (verifyData e h this (default_domain domain)) h) in
        reconcile this claimedAlias a
  end.

(** [verifySync (earth, blockNumber, domain = [])]. *)
Definition verifySync (this : value) (earth : option Earth)
  (blockNumber domain : value) : M value :=
  match earth with
  | None => throw MissingService
  | Some e =>
      let* p := get this _params_ in
      let* claimedAlias := get p alias in
      let* s := signature this in
      if negb (truthy s) then throw MissingSignature
      else
        let* a := (fun h =>
          call_service
            (verifyDataSync e h this blockNumber (default_domain domain)) h) in
        reconcile this claimedAlias a
  end.

(** [clearSig ()]. *)
Definition clearSig (this : value) : M unit :=
  let* p := get this _params_ in
  set p sig VUndef ;;;
  set this verified (VBool false).

(** A call [clearSig()] without a receiver.  The identifier is looked up
    in the scopes around the method: its parameters and locals, the module's
    [utils] and [Message], the host's globals.  None binds [clearSig] (class
    members are not in scope by their bare name), which in strict code is a
    [ReferenceError]. *)
Definition unqualified_clearSig : M unit := throw ReferenceError.

(** [addParams (obj)]. *)
Definition addParams (this obj : value) : M unit :=
  let* keys := Object_keys obj in
  (if includes keys alias || includes keys sig
   then unqualified_clearSig else ret tt) ;;;
  for_of keys (fun key =>
    let* p := get this _params_ in
    let* x := get obj key in
    set p key x).

(** [addSigned (obj)]. *)
Definition addSigned (this obj : value) : M unit :=
  let* keys := Object_keys obj in
  (if (0 <? Z.of_nat (length keys)) then clearSig this else ret tt) ;;;
  for_of keys (fun key =>
    let* s := get this _signed_ in
    let* x := get obj key in
    set s key x).

(** [set signature (sig)]. *)
Definition set_signature (this sig0 : value) : M unit :=
  let* p := get this _params_ in
  let* x := match sig0 with
            | VStr s => ret (VStr (if jsstring_eqb (substring0 s 2) (str "0x")
                                   then slice s 2 else s))
            | _ => throw TypeError
            end in
  set p sig x ;;;
  set this verified (VBool false).

(** Modelled from the spec: [utils.getMessageUUID] belongs to the package
    [@satellite-earth/dev-utils], which is not part of the sources.  The
    specification defines the identity as the first 40 characters of the
    signature, hex prefix excluded.  A signature that is not a string has
    no characters: that case is a [TypeError] here. *)
Definition getMessageUUID (message : value) : M value :=
  let* s := signature message in
  match s with
  | VStr s =>
      let hex := if jsstring_eqb (substring0 s 2) (str "0x")
                 then slice s 2 else s in
      ret (VStr (substring0 hex 40))
  | _ => throw TypeError
  end.

(** [get uuid ()]. *)
Definition uuid (this : value) : M value :=
  let* s := signature this in
  if truthy s then getMessageUUID this
  else throw NoSignature.

(** [get payload ()]. *)
Definition payload (this : value) : M value :=
  let* s := get this _signed_ in
  let* p := get this _params_ in
  let* snapshot := alloc [(_signed_, s); (_params_, p)] in
  let* text := JSON_stringify snapshot in
  match text with
  | Some j => JSON_parse j
  | None => throw SyntaxError
  end.

Section Compare.

(** [String.prototype.localeCompare] depends on the host's locale. *)
Variable localeCompare : jsstring -> jsstring -> Z.

(** [compare (that)]. *)
Definition compare (this that : value) : M value :=
  let* a := uuid this in
  let* b := uuid that in
  let* x := uuid this in
  let* y := uuid that in
  match x, y with
  | VStr s, VStr t => ret (VNum (localeCompare s t))
  | _, _ => throw TypeError
  end.

End Compare.

Definition call_signer (e : Signer) (s : value) (d : domain_arg) : M signing :=
  fun h => match signData e h s d with
           | Fulfils created r => (Ok r, h ++ created)
           | Refuses err => (Throw err, h)
           end.

(** [const { _params_ } = r]. *)
Definition destructure_params (r : signing) : M value :=
  match r with
  | NoSigning => throw TypeError
  | Signing p => ret p
  end.

Section Sign.

(** [String(err)], the text [Error(err)] takes as its message; for the
    built-in errors the wording is the host's. *)
Variable error_text : exn -> string.

(** [async sign (earth, domain = [])], run to the settlement of its
    promise. *)
Definition sign (this : value) (earth : option Signer) (domain : value)
  : M value :=
  match earth with
  | None => throw MissingSigningService
  | Some e =>
      catch
        (let* s := get this _signed_ in
         let* r := call_signer e s (default_domain domain) in
         let* given := destructure_params r in
         let* old := get this _params_ in
         let* o := spread [] old in
         let* o := spread o given in
         let* p := alloc o in
         set this _params_ p ;;;
         set this verified (VBool true))
        (fun err => throw (Error (error_text err))) ;;;
      ret this
  end.

End Sign.

(** [toString ()]. *)
Definition toString (this : value) : M value :=
  let* p := payload this in
  let* t := JSON_stringify p in
  ret (text_value t).

End Message.

(** ** Observations on the store *)

(** Reading a property never writes: [read] is the result of [get]. *)
Definition read (h : heap) (v : value) (k : jsstring) : outcome value :=
  fst (get v k h).

(** The signature accessor as an observation. *)
Definition signature_of (h : heap) (this : value) : outcome value :=
  fst (Message.signature this h).

(** ** The encoding of aliases *)

Definition utf8_encode (v : N) : list N :=
  if (v <? 128)%N then [v]
  else if (v <? 2048)%N then [(192 + v / 64)%N; (128 + v mod 64)%N]
  else if (v <? 65536)%N then
    [(224 + v / 4096)%N; (128 + (v / 64) mod 64)%N; (128 + v mod 64)%N]
  else
    [(240 + v / 262144)%N; (128 + (v / 4096) mod 64)%N;
     (128 + (v / 64) mod 64)%N; (128 + v mod 64)%N].

Fixpoint code_points (s : jsstring) : list N :=
  match s with
  | [] => []
  | c :: t =>
      match t with
      | d :: t' =>
          if is_high_surrogate c && is_low_surrogate d
          then (65536 + (c - 55296) * 1024 + (d - 56320))%N :: code_points t'
          else c :: code_points t
      | [] => [c]
      end
  end.

(** Modelled from the spec: the hex encoding of a label, which the
    specification gives as the hex digits of its UTF-8 octets
    ([utils.utf8ToHex] of [@satellite-earth/dev-utils], not part of the
    sources). *)
Definition hex_encoding (label : jsstring) : jsstring :=
  flat_map (fun b => [hex_char (b / 16); hex_char (b mod 16)])
    (flat_map utf8_encode (code_points label)).

(** ** Sample data *)

(** A service that resolves every envelope to one alias. *)
Definition resolving (a : value) : Earth :=
  {| verifyData := fun _ _ _ => Resolves (Authorship a);
     verifyDataSync := fun _ _ _ _ => Resolves (Authorship a) |}.

Definition sig40 : jsstring := str "abc123abc123abc123abc123abc123abc123abcd".

(** The store after [new Message("_signed_name=hi&_params_sig=<sig40>")]
    in an empty store: the envelope is object 0, its signed bucket object 1
    and its params bucket object 2. *)
Definition signed_envelope : heap :=
  snd (Message.constructor
         (VStr (str "_signed_name=hi&_params_sig=" ++ sig40)) []).

(** The same with the claim [alias=bob]. *)
Definition bob_envelope : heap :=
  snd (Message.constructor
         (VStr (str "_signed_name=hi&_params_alias=bob&_params_sig=" ++ sig40))
         []).

(** Two envelopes made from two empty objects [{}] (objects 0 and 1): the
    envelopes are objects 2 and 5. *)
Definition unsigned_pair : heap :=
  snd ((Message.constructor (VObj 0%nat) ;;; Message.constructor (VObj 1%nat))
         [[]; []]).

(** [signed_envelope] after a successful [verifySync], together with the
    objects [{alias: "x"}] (object 4) and [{n: 5}] (object 5). *)
Definition verified_envelope : heap :=
  snd ((Message.verifySync (VObj 0%nat)
          (Some (resolving (VStr (str "616c696365")))) (VNum 7) VUndef ;;;
        alloc [(Message.alias, VStr (str "x"))] ;;;
        alloc [(str "n", VNum 5)]) signed_envelope).

(** ** Auxiliary notions for the statements *)

(** The bucket [os] after [os[k] = oo[k]] for the names [ks] in turn. *)
Definition merged (oo os : object) (ks : list jsstring) : object :=
  foldl (fun o k => obj_set o k (obj_get oo k)) os ks.

(** One bucket after a decoded pair has been routed: the pair is filed
    when the key contains the bucket's prefix, under the key without its
    first [prefix.length] code units. *)
Definition route_into (prefix key val : jsstring) (o : object) : object :=
  if indexOf key prefix =? -1 then o
  else obj_set o (substring key (strlen prefix)) (VStr val).

(** The two buckets after all components of a query; [None] when a
    component does not decode. *)
Fixpoint route_all (cs : list jsstring) (os op : object)
  : option (object * object) :=
  match cs with
  | [] => Some (os, op)
  | c :: cs' =>
      match decodeURIComponent (Message.element (split (chr "=") c) 0),
            decodeURIComponent (Message.element (split (chr "=") c) 1) with
      | Some key, Some val =>
          route_all cs' (route_into Message._signed_ key val os)
            (route_into Message._params_ key val op)
      | _, _ => None
      end
  end.

(** The part of a URI that the constructor parses: what follows the later
    of [?] and [#]. *)
Definition query (data : jsstring) : jsstring :=
  let i0 := indexOf data (str "?") in
  let i1 := indexOf data (str "#") in
  let i := if i0 >? i1 then i0 else i1 in
  if i >? -1 then slice data (i + 1) else data.

(** The name under which the specification files a pair: the key with
    everything up to and including the occurrence of the prefix removed. *)
Definition after_prefix (key prefix : jsstring) : jsstring :=
  substring key (indexOf key prefix + strlen prefix).

Definition all_strings (o : object) : Prop :=
  Forall (fun kv => exists s, snd kv = VStr s) o.

(** A string of hex digits. *)
Definition hex_string (x : jsstring) : bool :=
  forallb (fun c => match hex_digit c with Some _ => true | None => false end) x.

(** A string in which the code unit [c] does not occur. *)
Definition without (c : N) (s : jsstring) : bool :=
  forallb (fun d => negb (N.eqb d c)) s.

(** The URI of the scenario, for a signature of hex digits [x]. *)
Definition scenario_uri (x : jsstring) : jsstring :=
  str "_signed_name=hi&_params_sig=0x" ++ x.

(** ** Notions for the snapshot returned by [payload] *)

(** Objects reachable from a value through property values. *)
Inductive reachable (h : heap) : value -> loc -> Prop :=
| reach_here l o : h !! l = Some o -> reachable h (VObj l) l
| reach_step l o k v l' :
    h !! l = Some o -> In (k, v) o -> reachable h v l' ->
    reachable h (VObj l) l'.

(** The representation invariant of objects: property names are distinct. *)
Definition heap_ok (h : heap) : Prop :=
  Forall (fun o : object => NoDup (map fst o)) h.

(** A value that refers to no object below [n]. *)
Definition above (n : nat) (v : value) : Prop :=
  match v with
  | VObj l => (n <= l)%nat
  | _ => True
  end.

Definition cells_above (n : nat) (cells : list object) : Prop :=
  Forall (fun o : object => Forall (fun kv => above n (snd kv)) o) cells.

Definition index_le (a b : N * jsstring) : Prop := (fst a <= fst b)%N.

(** The order in which [Object.keys] lists names. *)
Definition key_le (k1 k2 : jsstring) : Prop :=
  match array_index k1, array_index k2 with
  | Some a, Some b => (a <= b)%N
  | Some _, None => True
  | None, None => True
  | None, Some _ => False
  end.

Fixpoint json_depth (j : json) : nat :=
  match j with
  | JObj fields => S (foldr (fun kv d => Nat.max (json_depth (snd kv)) d) 0%nat fields)
  | _ => 0%nat
  end.

(** The texts [JSON.stringify] produces from well-formed objects: member
    names are distinct and in [Object.keys] order. *)
#[warnings="-register-all"]
Inductive json_ok : json -> Prop :=
| ok_null : json_ok JNull
| ok_bool b : json_ok (JBool b)
| ok_num n : json_ok (JNum n)
| ok_str s : json_ok (JStr s)
| ok_obj fields :
    NoDup (map fst fields) ->
    StronglySorted key_le (map fst fields) ->
    Forall (fun kv => json_ok (snd kv)) fields ->
    json_ok (JObj fields).

(** Defining the listed properties in turn. *)
Definition define_all (o : object) (kvs : list (jsstring * value)) : object :=
  foldl (fun o (kv : jsstring * value) => obj_define o (fst kv) (snd kv)) o kvs.

(** Every object on [stack] lies outside the [m] objects from [n] on. *)
Definition outside (stack : list loc) (n m : nat) : Prop :=
  Forall (fun l => (l < n)%nat \/ (n + m <= l)%nat) stack.

(** What [JSON.parse] does with a text [j] in any store: it appends fresh
    objects that refer to fresh objects only, and serializing the value it
    returns gives [j] back. *)
Definition parses (j : json) : Prop :=
  forall h : heap, exists v (ext : heap),
    JSON_parse j h = (Ok v, h ++ ext) /\
    above (length h) v /\
    cells_above (length h) ext /\
    (forall l, v = VObj l -> (l < length h + length ext)%nat) /\
    (json_ok j -> forall fuel stack (more : heap),
       (json_depth j <= fuel)%nat ->
       outside stack (length h) (length ext) ->
       serialize fuel (h ++ ext ++ more) stack v = Ok (Some j)).

(** An envelope (object 4) made from
    [{_signed_: {a: "1"}, _params_: {meta: {x: 1}, sig: undefined}}]:
    its signed bucket is object 0, its params bucket object 2, which holds
    the nested object 1. *)
Definition nested_envelope : heap :=
  snd (Message.constructor (VObj 3%nat)
         [ [(str "a", VStr (str "1"))];
           [(str "x", VNum 1)];
           [(str "meta", VObj 1%nat); (Message.sig, VUndef)];
           [(Message._signed_, VObj 0%nat); (Message._params_, VObj 2%nat)] ]).

(** A value that is not a reference to an object. *)
Definition primitive (v : value) : Prop :=
  match v with
  | VObj _ => False
  | _ => True
  end.

Definition flat (o : object) : Prop := Forall (fun kv => primitive (snd kv)) o.

(** A value that refers to an object of a store of [n] objects, if to any. *)
Definition valid (n : nat) (v : value) : Prop :=
  match v with
  | VObj l => (l < n)%nat
  | _ => True
  end.

(** A store without dangling references. *)
Definition heap_closed (h : heap) : Prop :=
  Forall (fun o : object => Forall (fun kv => valid (length h) (snd kv)) o) h.

(** ** Notions for the further properties *)

(** A service that signs with the params [p]: its answer is a new object
    whose [_params_] is a new object holding [p]. *)
Definition signing_with (p : list (jsstring * value)) : Signer :=
  {| signData := fun h _ _ => Fulfils [p] (Signing (VObj (length h))) |}.

(** A service whose promise is rejected with [err]. *)
Definition refusing (err : exn) : Signer :=
  {| signData := fun _ _ _ => Refuses err |}.

(** A service that fails on every envelope. *)
Definition rejecting : Earth :=
  {| verifyData := fun _ _ _ => Rejects;
     verifyDataSync := fun _ _ _ _ => Rejects |}.

(** A service that answers [undefined]. *)
Definition answering_undefined : Earth :=
  {| verifyData := fun _ _ _ => Resolves NoAuthorship;
     verifyDataSync := fun _ _ _ _ => Resolves NoAuthorship |}.

(** The store after [new Message("_signed_name=hi")] in an empty store:
    the envelope is object 0, its signed bucket object 1 and its params
    bucket object 2. *)
Definition unsigned_envelope : heap :=
  snd (Message.constructor (VStr (str "_signed_name=hi")) []).

(** The object under construction after the properties [ks] of [o] have
    been copied to it. *)
Definition copied (o target : list (jsstring * value)) (ks : list jsstring)
  : list (jsstring * value) :=
  foldl (fun t k => obj_define t k (obj_get o k)) target ks.

(** A value whose text, if it is a number, is its decimal digits. *)
Definition safe_value (v : value) : Prop :=
  match v with
  | VNum n => safe_integer n = true
  | _ => True
  end.

(** An object whose numbers are safe integers. *)
Definition safe_numbers (o : list (jsstring * value)) : Prop :=
  Forall (fun kv => safe_value (snd kv)) o.

(** A JSON text whose numbers are safe integers. *)
Fixpoint json_safe (j : json) : bool :=
  match j with
  | JNum n => safe_integer n
  | JObj fields => forallb (fun kv => json_safe (snd kv)) fields
  | _ => true
  end.

(** The JSON text of a primitive value; [undefined] has none. *)
Definition json_of_primitive (v : value) : option json :=
  match v with
  | VNull => Some JNull
  | VBool b => Some (JBool b)
  | VNum n => Some (JNum n)
  | VStr s => Some (JStr s)
  | VUndef | VObj _ => None
  end.

(** What the constructor leaves in the signed bucket in place of a
    primitive value (a number being a safe integer, see [safe_numbers]). *)
Definition stored_text (v : value) : value :=
  match v with
  | VStr _ => v
  | _ => text_value (json_of_primitive v)
  end.

(** The signed bucket after the conversion loop has visited the names
    [ks]. *)
Definition stringified (o : list (jsstring * value)) (ks : list jsstring)
  : list (jsstring * value) :=
  foldl (fun o k =>
           if jstype_eqb (typeof (obj_get o k)) TString then o
           else obj_set o k (stored_text (obj_get o k))) o ks.

(** The members of the JSON text of an object that holds primitive
    values. *)
Definition flat_fields (o : list (jsstring * value)) : list (jsstring * json) :=
  omap (fun k => match json_of_primitive (obj_get o k) with
                 | Some j => Some (k, j)
                 | None => None
                 end) (own_keys o).

Definition defined (v : value) : bool :=
  match v with
  | VUndef => false
  | _ => true
  end.

(** The object that [JSON.parse] builds from that text: the properties
    with a value other than [undefined], in [Object.keys] order. *)
Definition flat_copy (o : list (jsstring * value)) : list (jsstring * value) :=
  map (fun k => (k, obj_get o k))
    (List.filter (fun k => defined (obj_get o k)) (own_keys o)).

(** The JSON text of [{_signed_: os, _params_: op}] for two objects that
    hold primitive values. *)
Definition payload_text (os op : list (jsstring * value)) : json :=
  JObj [(Message._signed_, JObj (flat_fields os));
        (Message._params_, JObj (flat_fields op))].

(** [verified_envelope] after [clearSig]: the params bucket (object 2)
    holds [sig] with the value [undefined]. *)
Definition cleared_envelope : heap :=
  snd (Message.clearSig (VObj 0%nat) verified_envelope).

(** An envelope (object 0) whose params bucket (object 2) refers to
    itself. *)
Definition cyclic_envelope : heap :=
  [ [(Message._signed_, VObj 1%nat); (Message._params_, VObj 2%nat);
     (Message.verified, VBool false)];
    [(str "name", VStr (str "hi"))];
    [(str "self", VObj 2%nat)] ].

(** * Properties *)

(** ** Strings and built-ins on examples *)

Lemma jsstring_eqb_eq a b : jsstring_eqb a b = true <-> a = b.
Proof.
  revert b; induction a as [|x a IH]; intros [|y b]; simpl; split; try congruence.
  - intros H. apply andb_true_iff in H as [Hx Hr].
    apply N.eqb_eq in Hx. apply IH in Hr. congruence.
  - intros H. injection H as -> ->. rewrite N.eqb_refl. simpl. now apply IH.
Qed.

Lemma jsstring_eqb_refl a : jsstring_eqb a a = true.
Proof. now apply jsstring_eqb_eq. Qed.

Lemma jsstring_eqb_neq a b : jsstring_eqb a b = false <-> a <> b.
Proof.
  split.
  - intros H E. apply jsstring_eqb_eq in E. congruence.
  - intros H. destruct (jsstring_eqb a b) eqn:E; [|reflexivity].
    apply jsstring_eqb_eq in E. contradiction.
Qed.

Example decode_plain : decodeURIComponent (str "_signed_name") = Some (str "_signed_name").
Proof. reflexivity. Qed.

Example decode_escape : decodeURIComponent (str "a%20b%3D") = Some (str "a b=").
Proof. reflexivity. Qed.

Example decode_euro : decodeURIComponent (str "%E2%82%AC") = Some [8364%N].
Proof. reflexivity. Qed.

Example decode_astral : decodeURIComponent (str "%F0%9F%98%80") = Some [55357%N; 56832%N].
Proof. reflexivity. Qed.

Example decode_malformed : decodeURIComponent (str "100%") = None.
Proof. reflexivity. Qed.

Example decode_overlong : decodeURIComponent (str "%C0%80") = None.
Proof. reflexivity. Qed.

Example split_example :
  split (chr "&") (str "a=1&&b") = [str "a=1"; str ""; str "b"].
Proof. reflexivity. Qed.

Example indexOf_example :
  indexOf (str "x_signed_name") (str "_signed_") = 1 /\
  indexOf (str "name") (str "_signed_") = -1 /\
  indexOf (str "") (str "") = 0.
Proof. repeat split. Qed.

Lemma strict_eq_eq a b : strict_eq a b = true <-> a = b.
Proof.
  destruct a, b; simpl; split; try congruence; intros H.
  - apply Bool.eqb_prop in H. congruence.
  - injection H as ->. apply Bool.eqb_reflx.
  - apply Z.eqb_eq in H. congruence.
  - injection H as ->. apply Z.eqb_refl.
  - apply jsstring_eqb_eq in H. congruence.
  - injection H as ->. apply jsstring_eqb_refl.
  - apply Nat.eqb_eq in H. congruence.
  - injection H as ->. apply Nat.eqb_refl.
Qed.

Example number_to_string_example :
  number_to_string 9007199254740991 = str "9007199254740991" /\
  number_to_string (-42) = str "-42".
Proof. split; reflexivity. Qed.

Example own_keys_order :
  own_keys [(str "b", VNull); (str "10", VNull); (str "a", VNull);
            (str "2", VNull); (str "01", VNull)]
  = [str "2"; str "10"; str "b"; str "a"; str "01"].
Proof. reflexivity. Qed.

Example render_example :
  render (JObj [(str "a", JNum 1); (str "b", JObj [(str "c", JStr (str "x/y"))]);
                (str "d", JNull)])
  = str "{" ++ quote (str "a") ++ str ":1," ++ quote (str "b") ++ str ":{"
    ++ quote (str "c") ++ str ":" ++ quote (str "x/y") ++ str "},"
    ++ quote (str "d") ++ str ":null}".
Proof. reflexivity. Qed.

(** ** Reading and writing the store *)

Lemma get_read v k h : get v k h = (read h v k, h).
Proof.
  unfold read, get. destruct v; try reflexivity.
  destruct (h !! l); reflexivity.
Qed.

Lemma bind_get v k {B} (f : value -> M B) h x :
  read h v k = Ok x -> bind (get v k) f h = f x h.
Proof. intros H. unfold bind. rewrite get_read, H. reflexivity. Qed.

Lemma bind_get_throw v k {B} (f : value -> M B) h e :
  read h v k = Throw e -> bind (get v k) f h = (Throw e, h).
Proof. intros H. unfold bind. rewrite get_read, H. reflexivity. Qed.

Lemma bind_ret {A B} (a : A) (f : A -> M B) h : bind (ret a) f h = f a h.
Proof. reflexivity. Qed.

Lemma bind_throw {A B} e (f : A -> M B) h : bind (throw e) f h = (Throw e, h).
Proof. reflexivity. Qed.

Lemma bind_set_obj l k x {B} (f : unit -> M B) h o :
  h !! l = Some o ->
  bind (set (VObj l) k x) f h = f tt (<[l := obj_set o k x]> h).
Proof. intros H. unfold bind, set. rewrite H. reflexivity. Qed.

Lemma read_obj h l o k : h !! l = Some o -> read h (VObj l) k = Ok (obj_get o k).
Proof. intros H. unfold read, get. rewrite H. reflexivity. Qed.

Lemma read_insert (h : heap) l o l' k :
  (l < length h)%nat ->
  read (<[l := o]> h) (VObj l') k
  = if Nat.eqb l l' then Ok (obj_get o k) else read h (VObj l') k.
Proof.
  intros Hl. unfold read, get.
  destruct (Nat.eqb l l') eqn:E.
  - apply Nat.eqb_eq in E. subst l'.
    rewrite list_lookup_insert_eq by exact Hl. reflexivity.
  - apply Nat.eqb_neq in E.
    rewrite list_lookup_insert_ne by exact E.
    destruct (h !! l'); reflexivity.
Qed.

Lemma obj_define_get_eq o k x : obj_get (obj_define o k x) k = x.
Proof.
  induction o as [|[k' v] o IH]; simpl.
  - now rewrite jsstring_eqb_refl.
  - destruct (jsstring_eqb k' k) eqn:E; simpl; rewrite E; [reflexivity|exact IH].
Qed.

Lemma obj_define_get_ne o k x k' :
  k <> k' -> obj_get (obj_define o k x) k' = obj_get o k'.
Proof.
  intros Hne. induction o as [|[k0 v] o IH]; simpl.
  - apply jsstring_eqb_neq in Hne. now rewrite Hne.
  - destruct (jsstring_eqb k0 k) eqn:E; simpl.
    + apply jsstring_eqb_eq in E. subst k0.
      apply jsstring_eqb_neq in Hne. now rewrite Hne.
    + now rewrite IH.
Qed.

Lemma obj_set_get_eq o k x : k <> proto_name -> obj_get (obj_set o k x) k = x.
Proof.
  intros Hk. unfold obj_set.
  apply jsstring_eqb_neq in Hk. rewrite Hk. simpl. apply obj_define_get_eq.
Qed.

Lemma obj_set_get_ne o k x k' :
  k <> k' -> obj_get (obj_set o k x) k' = obj_get o k'.
Proof.
  intros Hne. unfold obj_set.
  destruct (jsstring_eqb k proto_name && negb (has_own o k)); [reflexivity|].
  now apply obj_define_get_ne.
Qed.

(** A property that holds a truthy value under a name that strings do not
    have is a property of an object of the store. *)
Lemma read_truthy_object h v k x :
  string_prop [] k = VUndef -> (forall s, string_prop s k = string_prop [] k) ->
  read h v k = Ok x -> truthy x = true ->
  exists l o, v = VObj l /\ h !! l = Some o /\ obj_get o k = x.
Proof.
  intros Hk Hs Hr Ht. unfold read, get in Hr.
  destruct v; simpl in Hr; try discriminate.
  - injection Hr as <-. discriminate.
  - injection Hr as <-. discriminate.
  - injection Hr as <-. rewrite Hs, Hk in Ht. discriminate.
  - destruct (h !! l) as [o|] eqn:E; simpl in Hr; [|discriminate].
    injection Hr as <-. eauto.
Qed.

Lemma sig_not_string_prop s : string_prop s Message.sig = VUndef.
Proof. reflexivity. Qed.

Lemma params_not_string_prop s : string_prop s Message._params_ = VUndef.
Proof. reflexivity. Qed.

(** ** Symbolic execution over a store [h ++ t] with a known tail *)

Lemma bind_assoc {A B C} (m : M A) (f : A -> M B) (g : B -> M C) h :
  bind (bind m f) g h = bind m (fun x => bind (f x) g) h.
Proof. unfold bind. destruct (m h) as [[a|e|] h']; reflexivity. Qed.

Lemma bind_alloc_ext o {B} (f : value -> M B) (h t : heap) :
  bind (alloc o) f (h ++ t) = f (VObj (length h + length t)) (h ++ (t ++ [o])).
Proof. unfold bind, alloc. rewrite length_app, app_assoc. reflexivity. Qed.

Lemma lookup_ext (h t : heap) n : (h ++ t) !! (length h + n)%nat = t !! n.
Proof. rewrite lookup_app_r by lia. f_equal. lia. Qed.

Lemma insert_ext (h t : heap) n o :
  <[(length h + n)%nat := o]> (h ++ t) = h ++ <[n := o]> t.
Proof. rewrite insert_app_r_alt by lia. do 2 f_equal. lia. Qed.

Lemma bind_get_ext n k {B} (f : value -> M B) (h t : heap) :
  bind (get (VObj (length h + n)) k) f (h ++ t)
  = match t !! n with
    | Some o => f (obj_get o k) (h ++ t)
    | None => (Stuck, h ++ t)
    end.
Proof. unfold bind, get. rewrite lookup_ext. destruct (t !! n); reflexivity. Qed.

Lemma bind_set_ext n k x {B} (f : unit -> M B) (h t : heap) :
  bind (set (VObj (length h + n)) k x) f (h ++ t)
  = match t !! n with
    | Some o => f tt (h ++ <[n := obj_set o k x]> t)
    | None => (Stuck, h ++ t)
    end.
Proof.
  unfold bind, set. rewrite lookup_ext.
  destruct (t !! n); [rewrite insert_ext|]; reflexivity.
Qed.

Lemma bind_keys_ext n {B} (f : list jsstring -> M B) (h t : heap) :
  bind (Object_keys (VObj (length h + n))) f (h ++ t)
  = match t !! n with
    | Some o => f (own_keys o) (h ++ t)
    | None => (Stuck, h ++ t)
    end.
Proof.
  unfold bind, Object_keys. rewrite lookup_ext. destruct (t !! n); reflexivity.
Qed.

Lemma read_ext (h t : heap) n k :
  read (h ++ t) (VObj (length h + n)) k
  = match t !! n with Some o => Ok (obj_get o k) | None => Stuck end.
Proof.
  unfold read, get. rewrite lookup_ext. destruct (t !! n); reflexivity.
Qed.

Lemma for_of_nil {A} (body : A -> M unit) : for_of [] body = ret tt.
Proof. reflexivity. Qed.

Lemma for_of_cons {A} (x : A) l (body : A -> M unit) :
  for_of (x :: l) body = bind (body x) (fun _ => for_of l body).
Proof. reflexivity. Qed.

#[local] Arguments get : simpl never.
#[local] Arguments set : simpl never.
#[local] Arguments alloc : simpl never.
#[local] Arguments Object_keys : simpl never.
#[local] Arguments JSON_stringify : simpl never.
#[local] Arguments JSON_parse : simpl never.
#[local] Arguments bind : simpl never.
#[local] Arguments ret : simpl never.
#[local] Arguments throw : simpl never.
#[local] Arguments for_of : simpl never.
#[local] Arguments Message.route : simpl never.

Ltac run_store :=
  repeat first
    [ rewrite bind_assoc
    | rewrite bind_ret
    | rewrite bind_throw
    | rewrite bind_alloc_ext
    | rewrite bind_get_ext
    | rewrite bind_set_ext
    | rewrite bind_keys_ext
    | rewrite for_of_nil
    | rewrite for_of_cons
    | progress cbn ].

(** ** Construction *)

(** C10: [typeof null] is ['object'], so [new Message(null)] takes the
    object branch and fails on reading [null._signed_] with a raw
    [TypeError], not with the unsupported-input error. *)
Theorem constructor_null_type_error h :
  Message.constructor VNull h = (Throw TypeError, h ++ [[]])
  /\ fst (Message.constructor VNull h) <> Throw InvalidInputKind.
Proof. split; [reflexivity | discriminate]. Qed.

(** C5, what the code does: an input that is neither an object nor a
    string (a number, a boolean, [undefined]) reaches the test
    [typeof payload === 'undefined'], which looks at the still unassigned
    local and always holds.  The constructor returns an empty envelope and
    never throws the unsupported-input error. *)
Theorem constructor_unsupported_input_accepted h data :
  typeof data <> TObject -> typeof data <> TString ->
  Message.constructor data h =
  (Ok (VObj (length h)),
   h ++ [ [(Message._signed_, VObj (length h + 2));
           (Message._params_, VObj (length h + 3));
           (Message.verified, VBool false)]; []; []; [] ]).
Proof.
  intros Hobj Hstr.
  rewrite <- (app_nil_r h) at 1.
  assert (E : VObj (length h) = VObj (length h + 0)) by (f_equal; lia).
  unfold Message.constructor.
  destruct data; try (exfalso; apply Hobj; reflexivity);
    try (exfalso; apply Hstr; reflexivity).
  all: run_store.
  all: rewrite E; run_store.
  all: reflexivity.
Qed.

Lemma constructor_unsupported_input_accepted_witness :
  typeof (VNum 5) <> TObject /\ typeof (VNum 5) <> TString /\
  fst (Message.constructor (VNum 5) []) = Ok (VObj 0%nat) /\
  fst (Message.constructor (VNum 5) []) <> Throw InvalidInputKind.
Proof.
  split; [discriminate|]. split; [discriminate|].
  rewrite (constructor_unsupported_input_accepted [] (VNum 5));
    [split; [reflexivity|discriminate] | discriminate | discriminate].
Defined.

(** The conversion loop of the constructor on
    [{a: 5, b: "x", c: {q: true, u: undefined}, d: undefined}]: numbers and
    objects become their JSON text, strings are kept, and [undefined] stays
    [undefined] because it has no JSON text. *)
Example constructor_converts_signed_values :
  let h := snd (Message.constructor (VObj 0%nat)
                  [ [(str "a", VNum 5); (str "b", VStr (str "x"));
                     (str "c", VObj 1%nat); (str "d", VUndef)];
                    [(str "q", VBool true); (str "u", VUndef)] ]) in
  read h (VObj 2%nat) Message._signed_ = Ok (VObj 0%nat) /\
  read h (VObj 0%nat) (str "a") = Ok (VStr (str "5")) /\
  read h (VObj 0%nat) (str "b") = Ok (VStr (str "x")) /\
  read h (VObj 0%nat) (str "c")
    = Ok (VStr (str "{" ++ quote (str "q") ++ str ":true}")) /\
  read h (VObj 0%nat) (str "d") = Ok VUndef.
Proof. repeat split. Qed.

(** ** Identity *)

Lemma signature_read this h :
  Message.signature this h = (fst (Message.signature this h), h).
Proof.
  unfold Message.signature, bind. rewrite get_read.
  destruct (read h this Message._params_); try reflexivity.
  rewrite get_read. reflexivity.
Qed.

Lemma bind_signature this {B} (f : value -> M B) h s :
  fst (Message.signature this h) = Ok s ->
  bind (Message.signature this) f h = f s h.
Proof. intros H. unfold bind. rewrite signature_read, H. reflexivity. Qed.

Lemma uuid_unsigned this h s :
  fst (Message.signature this h) = Ok s -> truthy s = false ->
  Message.uuid this h = (Throw NoSignature, h).
Proof.
  intros Hs Hf. unfold Message.uuid.
  rewrite (bind_signature _ _ _ _ Hs), Hf. reflexivity.
Qed.

(** C7: reading the identity of an envelope without a signature ([sig]
    absent, or any falsy value) throws [NoSignature] and yields no value;
    comparing two such envelopes throws as well, so their identities never
    compare equal. *)
Theorem identity_fails_when_unsigned
  (localeCompare : jsstring -> jsstring -> Z) h a b sa sb :
  signature_of h a = Ok sa -> truthy sa = false ->
  signature_of h b = Ok sb -> truthy sb = false ->
  Message.uuid a h = (Throw NoSignature, h) /\
  Message.uuid b h = (Throw NoSignature, h) /\
  Message.compare localeCompare a b h = (Throw NoSignature, h).
Proof.
  intros Ha Hfa Hb Hfb.
  pose proof (uuid_unsigned a h sa Ha Hfa) as Ua.
  pose proof (uuid_unsigned b h sb Hb Hfb) as Ub.
  repeat split; try assumption.
  unfold Message.compare, bind. rewrite Ua. reflexivity.
Qed.

(** ** Verification *)

Lemma signature_of_reads h this p s :
  read h this Message._params_ = Ok p -> read h p Message.sig = Ok s ->
  fst (Message.signature this h) = Ok s.
Proof.
  intros Hp Hs. unfold Message.signature.
  rewrite (bind_get _ _ _ _ _ Hp), get_read. exact Hs.
Qed.

Lemma verify_prologue h this p claimed s {B} (k : value -> value -> M B) :
  read h this Message._params_ = Ok p ->
  read h p Message.alias = Ok claimed ->
  read h p Message.sig = Ok s ->
  (let* p := get this Message._params_ in
   let* claimedAlias := get p Message.alias in
   let* s := Message.signature this in
   k claimedAlias s) h = k claimed s h.
Proof.
  intros Hp Ha Hs.
  rewrite (bind_get _ _ _ _ _ Hp), (bind_get _ _ _ _ _ Ha).
  rewrite (bind_signature _ _ _ _ (signature_of_reads _ _ _ _ Hp Hs)).
  reflexivity.
Qed.

Lemma reconcile_mismatch h this claimed resolved :
  truthy claimed = true -> claimed <> resolved ->
  Message.reconcile this claimed (Authorship resolved) h
  = (Throw AuthorMismatch, h).
Proof.
  intros Ht Hne. unfold Message.reconcile.
  rewrite Ht. cbn [Message.authorship_alias].
  rewrite bind_assoc, bind_ret, bind_ret.
  destruct (strict_eq claimed resolved) eqn:E.
  - apply strict_eq_eq in E. contradiction.
  - reflexivity.
Qed.

(** C3: an envelope that claims an alias and carries a signature is
    rejected with [AuthorMismatch] by [verify] and by [verifySync] when the
    service resolves a different alias; the store is left as it was, so the
    params bucket still holds the claimed alias and [verified] keeps its
    value. *)
Theorem verify_mismatch_rejected h this e blockNumber domain p claimed s resolved :
  read h this Message._params_ = Ok p ->
  read h p Message.alias = Ok claimed -> truthy claimed = true ->
  read h p Message.sig = Ok s -> truthy s = true ->
  claimed <> resolved ->
  (verifyData e h this (default_domain domain) = Resolves (Authorship resolved) ->
   Message.verify this (Some e) domain h = (Throw AuthorMismatch, h)) /\
  (verifyDataSync e h this blockNumber (default_domain domain)
     = Resolves (Authorship resolved) ->
   Message.verifySync this (Some e) blockNumber domain h
     = (Throw AuthorMismatch, h)).
Proof.
  intros Hp Ha Hta Hs Hts Hne. split; intros Hsvc.
  - unfold Message.verify.
    rewrite (verify_prologue h this p claimed s
               (fun c s => if negb (truthy s) then _ else _) Hp Ha Hs).
    rewrite Hts. cbn [negb].
    unfold bind at 1. rewrite Hsvc. cbn [Message.call_service ret].
    now apply reconcile_mismatch.
  - unfold Message.verifySync.
    rewrite (verify_prologue h this p claimed s
               (fun c s => if negb (truthy s) then _ else _) Hp Ha Hs).
    rewrite Hts. cbn [negb].
    unfold bind at 1. rewrite Hsvc. cbn [Message.call_service ret].
    now apply reconcile_mismatch.
Qed.

Lemma alias_not_proto : Message.alias <> proto_name.
Proof. discriminate. Qed.

Lemma verified_not_proto : Message.verified <> proto_name.
Proof. discriminate. Qed.

Lemma reconcile_run h claimed resolved t l ot ol ot' :
  truthy claimed = false ->
  h !! t = Some ot -> obj_get ot Message._params_ = VObj l ->
  h !! l = Some ol ->
  <[l := obj_set ol Message.alias resolved]> h !! t = Some ot' ->
  Message.reconcile (VObj t) claimed (Authorship resolved) h
  = (Ok (VObj t),
     <[t := obj_set ot' Message.verified (VBool true)]>
       (<[l := obj_set ol Message.alias resolved]> h)).
Proof.
  intros Hf Ht Hp Hl Ht'. unfold Message.reconcile.
  rewrite Hf. rewrite bind_ret.
  rewrite bind_assoc.
  rewrite (bind_get _ _ _ _ _ (eq_trans (read_obj _ _ _ _ Ht) (f_equal Ok Hp))).
  rewrite bind_assoc. cbn [Message.authorship_alias]. rewrite bind_ret.
  rewrite (bind_set_obj _ _ _ _ _ _ Hl).
  rewrite (bind_set_obj _ _ _ _ _ _ Ht').
  reflexivity.
Qed.

Lemma reconcile_adopts h this claimed resolved t l ot ol :
  truthy claimed = false ->
  this = VObj t -> h !! t = Some ot -> obj_get ot Message._params_ = VObj l ->
  h !! l = Some ol ->
  exists h',
    Message.reconcile this claimed (Authorship resolved) h = (Ok this, h') /\
    read h' (VObj l) Message.alias = Ok resolved /\
    read h' this Message.verified = Ok (VBool true) /\
    read h' this Message._params_ = Ok (VObj l) /\
    length h' = length h.
Proof.
  intros Hf -> Ht Hp Hl.
  pose proof (lookup_lt_Some _ _ _ Ht) as Ltt.
  pose proof (lookup_lt_Some _ _ _ Hl) as Ltl.
  set (h1 := <[l := obj_set ol Message.alias resolved]> h).
  assert (Hlen1 : length h1 = length h) by apply length_insert.
  destruct (h1 !! t) as [ot'|] eqn:Ht'.
  2:{ apply lookup_ge_None in Ht'. lia. }
  eexists. split; [exact (reconcile_run _ _ _ _ _ _ _ _ Hf Ht Hp Hl Ht')|].
  fold h1.
  assert (Hot' : obj_get ot' Message._params_ = VObj l
                 /\ (t = l -> obj_get ot' Message.alias = resolved)).
  { unfold h1 in Ht'. destruct (Nat.eq_dec l t) as [->|Hlt].
    - rewrite list_lookup_insert_eq in Ht' by exact Ltt.
      injection Ht' as <-. rewrite Ht in Hl. injection Hl as <-.
      split.
      + rewrite obj_set_get_ne by discriminate. exact Hp.
      + intros _. apply obj_set_get_eq, alias_not_proto.
    - rewrite list_lookup_insert_ne in Ht' by exact Hlt.
      rewrite Ht in Ht'. injection Ht' as <-. split; [exact Hp|].
      intros ->. contradiction. }
  destruct Hot' as [Hp' Ha'].
  repeat split.
  - rewrite read_insert by lia.
    destruct (Nat.eqb t l) eqn:E.
    + apply Nat.eqb_eq in E. rewrite obj_set_get_ne by discriminate.
      f_equal. now apply Ha'.
    + unfold h1. rewrite read_insert by lia. rewrite Nat.eqb_refl.
      f_equal. apply obj_set_get_eq, alias_not_proto.
  - rewrite read_insert by lia. rewrite Nat.eqb_refl.
    f_equal. apply obj_set_get_eq, verified_not_proto.
  - rewrite read_insert by lia. rewrite Nat.eqb_refl.
    f_equal. rewrite obj_set_get_ne by discriminate. exact Hp'.
  - rewrite length_insert. exact Hlen1.
Qed.

(** C4, as the code has it: when no alias is claimed, a successful
    [verify] stores in [params.alias] the very value the service returned,
    sets [verified] and returns the envelope itself.  The envelope applies
    no encoding of its own. *)
Theorem verify_adopts_resolved_alias h this e domain p claimed s resolved :
  read h this Message._params_ = Ok p ->
  read h p Message.alias = Ok claimed -> truthy claimed = false ->
  read h p Message.sig = Ok s -> truthy s = true ->
  verifyData e h this (default_domain domain) = Resolves (Authorship resolved) ->
  exists h',
    Message.verify this (Some e) domain h = (Ok this, h') /\
    read h' p Message.alias = Ok resolved /\
    read h' this Message.verified = Ok (VBool true) /\
    read h' this Message._params_ = Ok p.
Proof.
  intros Hp Ha Hfa Hs Hts Hsvc.
  destruct (read_truthy_object h p Message.sig s eq_refl (fun _ => eq_refl) Hs Hts)
    as (l & ol & -> & Hl & _).
  destruct (read_truthy_object h this Message._params_ (VObj l) eq_refl
              (fun _ => eq_refl) Hp eq_refl) as (t & ot & Hthis & Ht & Hpo).
  destruct (reconcile_adopts h this claimed resolved t l ot ol Hfa Hthis Ht Hpo Hl)
    as (h' & Hrun & R1 & R2 & R3 & _).
  exists h'. unfold Message.verify.
  rewrite (verify_prologue h this (VObj l) claimed s
             (fun c s => if negb (truthy s) then _ else _) Hp Ha Hs).
  rewrite Hts. cbn [negb].
  unfold bind at 1. rewrite Hsvc. cbn [Message.call_service ret].
  auto.
Qed.

Lemma identity_fails_when_unsigned_witness :
  fst (Message.keys (VObj 2%nat) unsigned_pair) = Ok [] /\
  read unsigned_pair (VObj 2%nat) Message.verified = Ok (VBool false) /\
  Message.uuid (VObj 2%nat) unsigned_pair = (Throw NoSignature, unsigned_pair) /\
  Message.uuid (VObj 5%nat) unsigned_pair = (Throw NoSignature, unsigned_pair) /\
  Message.compare (fun _ _ => 0) (VObj 2%nat) (VObj 5%nat) unsigned_pair
  = (Throw NoSignature, unsigned_pair).
Proof.
  split; [reflexivity|]. split; [reflexivity|].
  apply (identity_fails_when_unsigned (fun _ _ => 0) unsigned_pair
           (VObj 2%nat) (VObj 5%nat) VUndef VUndef); reflexivity.
Defined.

Lemma verify_mismatch_rejected_witness :
  read bob_envelope (VObj 2%nat) Message.alias = Ok (VStr (str "bob")) /\
  Message.verify (VObj 0%nat) (Some (resolving (VStr (str "alice")))) VUndef
    bob_envelope = (Throw AuthorMismatch, bob_envelope) /\
  Message.verifySync (VObj 0%nat) (Some (resolving (VStr (str "alice"))))
    (VNum 7) VUndef bob_envelope = (Throw AuthorMismatch, bob_envelope).
Proof.
  split; [reflexivity|].
  pose proof (verify_mismatch_rejected bob_envelope (VObj 0%nat)
                (resolving (VStr (str "alice"))) (VNum 7) VUndef
                (VObj 2%nat) (VStr (str "bob")) (VStr sig40)
                (VStr (str "alice"))
                eq_refl eq_refl eq_refl eq_refl eq_refl) as [Hv Hs];
    [discriminate|].
  split; [apply Hv | apply Hs]; reflexivity.
Defined.

Lemma verify_adopts_resolved_alias_witness :
  exists h',
    Message.verify (VObj 0%nat) (Some (resolving (VStr (str "616c696365"))))
      VUndef signed_envelope = (Ok (VObj 0%nat), h') /\
    read h' (VObj 2%nat) Message.alias = Ok (VStr (hex_encoding (str "alice"))) /\
    read h' (VObj 0%nat) Message.verified = Ok (VBool true) /\
    read h' (VObj 0%nat) Message._params_ = Ok (VObj 2%nat).
Proof.
  apply (verify_adopts_resolved_alias signed_envelope (VObj 0%nat)
           (resolving (VStr (str "616c696365"))) VUndef (VObj 2%nat)
           VUndef (VStr sig40) (VStr (str "616c696365"))); reflexivity.
Defined.

(** C4, the sentence of the specification refuted: the service resolves
    ["alice"], [verify] succeeds, and [params.alias] is ["alice"] itself,
    which is not the hex encoding ["616c696365"]. *)
Lemma verify_does_not_hex_encode :
  hex_encoding (str "alice") = str "616c696365" /\
  hex_string (str "alice") = false /\
  read signed_envelope (VObj 2%nat) Message.alias = Ok VUndef /\
  exists h',
    Message.verify (VObj 0%nat) (Some (resolving (VStr (str "alice")))) VUndef
      signed_envelope = (Ok (VObj 0%nat), h') /\
    read h' (VObj 2%nat) Message.alias = Ok (VStr (str "alice")) /\
    read h' (VObj 2%nat) Message.alias
      <> Ok (VStr (hex_encoding (str "alice"))).
Proof.
  split; [reflexivity|]. split; [reflexivity|]. split; [reflexivity|].
  eexists. split; [reflexivity|]. split; [reflexivity|].
  vm_compute. discriminate.
Qed.

(** ** Mutation *)

Lemma keys_read v h : Object_keys v h = (fst (Object_keys v h), h).
Proof.
  unfold Object_keys. destruct v; try reflexivity.
  destruct (h !! l); reflexivity.
Qed.

(** C1, what the code does: [addParams] calls [clearSig()] without [this],
    so whenever the given keys include [alias] or [sig] the call throws a
    [ReferenceError] before anything is written: the signature stays, the
    new values are not applied and [verified] keeps its value. *)
Theorem addParams_alias_or_sig_throws h this obj ks :
  fst (Object_keys obj h) = Ok ks ->
  includes ks Message.alias || includes ks Message.sig = true ->
  Message.addParams this obj h = (Throw ReferenceError, h).
Proof.
  intros Hk Hin. unfold Message.addParams, bind at 1.
  rewrite keys_read, Hk, Hin. reflexivity.
Qed.

Lemma addParams_alias_or_sig_throws_witness :
  read verified_envelope (VObj 0%nat) Message.verified = Ok (VBool true) /\
  Message.addParams (VObj 0%nat) (VObj 4%nat) verified_envelope
  = (Throw ReferenceError, verified_envelope).
Proof.
  split; [reflexivity|].
  apply (addParams_alias_or_sig_throws verified_envelope (VObj 0%nat)
           (VObj 4%nat) [Message.alias]); reflexivity.
Defined.

Lemma obj_set_get_cases o k x :
  obj_get (obj_set o k x) k = x \/ obj_set o k x = o.
Proof.
  unfold obj_set.
  destruct (jsstring_eqb k proto_name && negb (has_own o k)); [now right|].
  left. apply obj_define_get_eq.
Qed.

Lemma merged_keeps oo ks k : forall os,
  obj_get os k = obj_get oo k -> obj_get (merged oo os ks) k = obj_get oo k.
Proof.
  induction ks as [|k' ks IH]; intros os H; simpl; [exact H|].
  apply IH.
  destruct (decide (k' = k)) as [->|Hne].
  - destruct (obj_set_get_cases os k (obj_get oo k)) as [E|E]; rewrite E; auto.
  - rewrite obj_set_get_ne by exact Hne. exact H.
Qed.

Lemma merged_get oo ks k : forall os,
  In k ks -> k <> proto_name -> obj_get (merged oo os ks) k = obj_get oo k.
Proof.
  induction ks as [|k' ks IH]; intros os Hin Hk; simpl; [destruct Hin|].
  destruct (decide (k' = k)) as [->|Hne].
  - apply merged_keeps. now apply obj_set_get_eq.
  - destruct Hin as [E|Hin]; [contradiction|]. now apply IH.
Qed.

Lemma addSigned_loop ks : forall (h : heap) t sl ol ot oo os,
  h !! t = Some ot -> obj_get ot Message._signed_ = VObj sl ->
  h !! ol = Some oo -> h !! sl = Some os -> t <> sl -> ol <> sl ->
  for_of ks (fun key =>
    let* s := get (VObj t) Message._signed_ in
    let* x := get (VObj ol) key in
    set s key x) h
  = (Ok tt, <[sl := merged oo os ks]> h).
Proof.
  induction ks as [|k ks IH]; intros h t sl ol ot oo os Ht Hs Hol Hsl Hts Hos.
  - simpl. rewrite list_insert_id by exact Hsl. reflexivity.
  - rewrite for_of_cons.
    rewrite bind_assoc.
    rewrite (bind_get _ _ _ _ _ (eq_trans (read_obj _ _ _ _ Ht) (f_equal Ok Hs))).
    rewrite bind_assoc.
    rewrite (bind_get _ _ _ _ _ (read_obj _ _ _ k Hol)).
    rewrite (bind_set_obj _ _ _ _ _ _ Hsl).
    pose proof (lookup_lt_Some _ _ _ Hsl) as Lsl.
    rewrite (IH _ t sl ol ot oo (obj_set os k (obj_get oo k))).
    + rewrite list_insert_insert_eq. reflexivity.
    + rewrite list_lookup_insert_ne by congruence. exact Ht.
    + exact Hs.
    + rewrite list_lookup_insert_ne by congruence. exact Hol.
    + now rewrite list_lookup_insert_eq.
    + exact Hts.
    + exact Hos.
Qed.

(** What [addSigned] does to an envelope whose two buckets are distinct
    objects, given a separate non-empty object: the signature is cleared,
    [verified] is reset, and every given value is stored as it is. *)
Lemma addSigned_run (h : heap) t sl l ol ot os op oo :
  h !! t = Some ot ->
  obj_get ot Message._signed_ = VObj sl -> obj_get ot Message._params_ = VObj l ->
  h !! sl = Some os -> h !! l = Some op -> h !! ol = Some oo ->
  own_keys oo <> [] ->
  t <> sl -> t <> l -> sl <> l -> ol <> t -> ol <> sl -> ol <> l ->
  Message.addSigned (VObj t) (VObj ol) h
  = (Ok tt,
     <[sl := merged oo os (own_keys oo)]>
       (<[t := obj_set ot Message.verified (VBool false)]>
          (<[l := obj_set op Message.sig VUndef]> h))).
Proof.
  intros Ht Hs Hp Hsl Hl Hol Hne Hts Htl Hsll Holt Hols Holl.
  unfold Message.addSigned.
  unfold bind at 1. rewrite keys_read. unfold Object_keys. rewrite Hol.
  cbn [fst].
  destruct (own_keys oo) as [|k0 ks0] eqn:Hk; [contradiction|].
  replace (0 <? Z.of_nat (length (k0 :: ks0))) with true
    by (symmetry; apply Z.ltb_lt; simpl length; lia).
  unfold Message.clearSig.
  rewrite !bind_assoc.
  rewrite (bind_get _ _ _ _ _ (eq_trans (read_obj _ _ _ _ Ht) (f_equal Ok Hp))).
  rewrite bind_assoc.
  rewrite (bind_set_obj _ _ _ _ _ _ Hl).
  assert (Ht1 : <[l := obj_set op Message.sig VUndef]> h !! t = Some ot)
    by (rewrite list_lookup_insert_ne by congruence; exact Ht).
  rewrite (bind_set_obj _ _ _ _ _ _ Ht1).
  pose proof (lookup_lt_Some _ _ _ Ht) as Lt.
  apply (addSigned_loop (k0 :: ks0) _ t sl ol
           (obj_set ot Message.verified (VBool false)) oo os).
  - apply list_lookup_insert_eq. now rewrite length_insert.
  - rewrite obj_set_get_ne by discriminate. exact Hs.
  - rewrite !list_lookup_insert_ne by congruence. exact Hol.
  - rewrite !list_lookup_insert_ne by congruence. exact Hsl.
  - exact Hts.
  - exact Hols.
Qed.

(** The half of C1 that the code does keep: [addSigned] with a non-empty
    object clears the signature and resets [verified]. *)
Lemma addSigned_invalidates (h : heap) t sl l ol ot os op oo :
  h !! t = Some ot ->
  obj_get ot Message._signed_ = VObj sl -> obj_get ot Message._params_ = VObj l ->
  h !! sl = Some os -> h !! l = Some op -> h !! ol = Some oo ->
  own_keys oo <> [] ->
  t <> sl -> t <> l -> sl <> l -> ol <> t -> ol <> sl -> ol <> l ->
  exists h',
    Message.addSigned (VObj t) (VObj ol) h = (Ok tt, h') /\
    signature_of h' (VObj t) = Ok VUndef /\
    read h' (VObj t) Message.verified = Ok (VBool false).
Proof.
  intros Ht Hs Hp Hsl Hl Hol Hne Hts Htl Hsll Holt Hols Holl.
  eexists. split; [now apply (addSigned_run h t sl l ol ot os op oo)|].
  pose proof (lookup_lt_Some _ _ _ Ht) as Lt.
  pose proof (lookup_lt_Some _ _ _ Hsl) as Lsl.
  pose proof (lookup_lt_Some _ _ _ Hl) as Ll.
  assert (Nsl : Nat.eqb sl t = false) by (apply Nat.eqb_neq; congruence).
  assert (Nsl' : Nat.eqb sl l = false) by (apply Nat.eqb_neq; congruence).
  assert (Ntl : Nat.eqb t l = false) by (apply Nat.eqb_neq; congruence).
  split.
  - apply (signature_of_reads _ _ (VObj l)).
    + rewrite read_insert by (rewrite !length_insert; lia). rewrite Nsl.
      rewrite read_insert by (rewrite !length_insert; lia). rewrite Nat.eqb_refl.
      rewrite obj_set_get_ne by discriminate. now rewrite Hp.
    + rewrite read_insert by (rewrite !length_insert; lia). rewrite Nsl'.
      rewrite read_insert by (rewrite !length_insert; lia). rewrite Ntl.
      rewrite read_insert by lia. rewrite Nat.eqb_refl.
      f_equal. apply obj_set_get_eq. discriminate.
  - rewrite read_insert by (rewrite !length_insert; lia). rewrite Nsl.
    rewrite read_insert by (rewrite !length_insert; lia). rewrite Nat.eqb_refl.
    f_equal. apply obj_set_get_eq. discriminate.
Qed.

(** C8, what the code does: [addSigned] assigns [this._signed_[key] =
    obj[key]] with no conversion, unlike the constructor.  A given value
    that is not a string is stored as it is, and the signed bucket then
    holds a value that is not string-typed. *)
Theorem addSigned_stores_values_unconverted (h : heap) t sl l ol ot os op oo k :
  h !! t = Some ot ->
  obj_get ot Message._signed_ = VObj sl -> obj_get ot Message._params_ = VObj l ->
  h !! sl = Some os -> h !! l = Some op -> h !! ol = Some oo ->
  t <> sl -> t <> l -> sl <> l -> ol <> t -> ol <> sl -> ol <> l ->
  In k (own_keys oo) -> k <> proto_name ->
  typeof (obj_get oo k) <> TString ->
  exists h' x,
    Message.addSigned (VObj t) (VObj ol) h = (Ok tt, h') /\
    read h' (VObj t) Message._signed_ = Ok (VObj sl) /\
    read h' (VObj sl) k = Ok x /\
    x = obj_get oo k /\ typeof x <> TString.
Proof.
  intros Ht Hs Hp Hsl Hl Hol Hts Htl Hsll Holt Hols Holl Hin Hk Hty.
  assert (Hne : own_keys oo <> []) by (intros E; rewrite E in Hin; destruct Hin).
  exists (<[sl := merged oo os (own_keys oo)]>
            (<[t := obj_set ot Message.verified (VBool false)]>
               (<[l := obj_set op Message.sig VUndef]> h))), (obj_get oo k).
  split; [now apply (addSigned_run h t sl l ol ot os op oo)|].
  pose proof (lookup_lt_Some _ _ _ Ht) as Lt.
  pose proof (lookup_lt_Some _ _ _ Hsl) as Lsl.
  assert (Nsl : Nat.eqb sl t = false) by (apply Nat.eqb_neq; congruence).
  repeat split.
  - rewrite read_insert by (rewrite !length_insert; lia). rewrite Nsl.
    rewrite read_insert by (rewrite !length_insert; lia). rewrite Nat.eqb_refl.
    rewrite obj_set_get_ne by discriminate. now rewrite Hs.
  - rewrite read_insert by (rewrite !length_insert; lia). rewrite Nat.eqb_refl.
    f_equal. now apply merged_get.
  - exact Hty.
Qed.

Lemma addSigned_stores_values_unconverted_witness :
  exists h',
    Message.addSigned (VObj 0%nat) (VObj 5%nat) verified_envelope = (Ok tt, h') /\
    read h' (VObj 0%nat) Message._signed_ = Ok (VObj 1%nat) /\
    read h' (VObj 1%nat) (str "n") = Ok (VNum 5) /\
    typeof (VNum 5) <> TString.
Proof.
  destruct (addSigned_stores_values_unconverted verified_envelope
              0%nat 1%nat 2%nat 5%nat
              [(Message._signed_, VObj 1%nat); (Message._params_, VObj 2%nat);
               (Message.verified, VBool true)]
              [(str "name", VStr (str "hi"))]
              [(Message.sig, VStr sig40);
               (Message.alias, VStr (str "616c696365"))]
              [(str "n", VNum 5)] (str "n"))
    as (h' & x & Hrun & Hs & Hn & Hx & Hty);
    try reflexivity; try discriminate.
  - left. reflexivity.
  - exists h'. rewrite Hx in Hn. auto.
Defined.

(** ** Property names *)

Lemma insert_index_perm e l : insert_index e l ≡ₚ e :: l.
Proof.
  induction l as [|x l IH]; simpl; [reflexivity|].
  destruct (fst e <=? fst x)%N; [reflexivity|].
  rewrite IH. apply Permutation_swap.
Qed.

Lemma sort_index_perm l : sort_index l ≡ₚ l.
Proof.
  induction l as [|x l IH]; simpl; [reflexivity|].
  rewrite insert_index_perm. now rewrite IH.
Qed.

Lemma tagged_keys ks :
  map snd (omap tag_index ks) = List.filter is_index ks.
Proof.
  induction ks as [|k ks IH]; simpl; [reflexivity|].
  unfold tag_index at 1. unfold is_index at 1.
  destruct (array_index k); simpl; rewrite <- IH; reflexivity.
Qed.

Lemma filter_split {A} (f : A -> bool) l :
  List.filter f l ++ List.filter (fun x => negb (f x)) l ≡ₚ l.
Proof.
  induction l as [|x l IH]; simpl; [reflexivity|].
  destruct (f x); simpl.
  - now rewrite IH.
  - rewrite <- Permutation_middle. now rewrite IH.
Qed.

Lemma own_keys_perm o : own_keys o ≡ₚ map fst o.
Proof.
  unfold own_keys, keys_order.
  rewrite (Permutation_map snd (sort_index_perm _)).
  rewrite tagged_keys. apply filter_split.
Qed.

Lemma own_keys_in o k : In k (own_keys o) <-> In k (map fst o).
Proof.
  split; intros H.
  - apply list_elem_of_In. rewrite <- own_keys_perm. now apply list_elem_of_In.
  - apply list_elem_of_In. rewrite own_keys_perm. now apply list_elem_of_In.
Qed.

Lemma obj_get_in o k : In k (map fst o) -> exists v, In (k, v) o /\ obj_get o k = v.
Proof.
  induction o as [|[k' v] o IH]; simpl; [intros []|].
  intros H. destruct (jsstring_eqb k' k) eqn:E.
  - apply jsstring_eqb_eq in E. subst. eauto.
  - destruct H as [H|H]; [apply jsstring_eqb_neq in E; contradiction|].
    destruct (IH H) as (x & Hin & Hx). eauto.
Qed.

Lemma all_strings_get o k :
  all_strings o -> In k (own_keys o) -> exists s, obj_get o k = VStr s.
Proof.
  intros Hall Hin. apply own_keys_in in Hin.
  destruct (obj_get_in o k Hin) as (v & Hv & ->).
  unfold all_strings in Hall. rewrite Forall_forall in Hall.
  apply list_elem_of_In in Hv. exact (Hall (k, v) Hv).
Qed.

Lemma all_strings_define o k s :
  all_strings o -> all_strings (obj_define o k (VStr s)).
Proof.
  unfold all_strings. induction 1 as [|[k' v] o Hv Ho IH]; simpl.
  - repeat constructor. simpl. eauto.
  - destruct (jsstring_eqb k' k); constructor; simpl; eauto.
Qed.

Lemma all_strings_route prefix key val o :
  all_strings o -> all_strings (route_into prefix key val o).
Proof.
  intros H. unfold route_into, obj_set.
  destruct (indexOf key prefix =? -1); [exact H|].
  destruct (_ && _); [exact H|]. now apply all_strings_define.
Qed.

Lemma all_strings_route_all cs : forall os op os' op',
  all_strings os -> all_strings op -> route_all cs os op = Some (os', op') ->
  all_strings os' /\ all_strings op'.
Proof.
  induction cs as [|c cs IH]; cbn [route_all]; intros os op os' op' Hs Hp H.
  - injection H as <- <-. auto.
  - destruct (decodeURIComponent _) as [key|]; [|discriminate].
    destruct (decodeURIComponent _) as [val|]; [|discriminate].
    apply IH in H; auto using all_strings_route.
Qed.

(** ** Construction from a URI *)

Lemma bind_keys v {B} (f : list jsstring -> M B) h ks :
  fst (Object_keys v h) = Ok ks -> bind (Object_keys v) f h = f ks h.
Proof. intros H. unfold bind. rewrite keys_read, H. reflexivity. Qed.

Lemma route_step (h : heap) pl b o prefix key val (P : object) :
  h !! pl = Some P -> obj_get P prefix = VObj b -> h !! b = Some o ->
  (if negb (indexOf key prefix =? -1) then
     let* bucket := get (VObj pl) prefix in
     set bucket (substring key (strlen prefix)) (VStr val)
   else ret tt) h
  = (Ok tt, <[b := route_into prefix key val o]> h).
Proof.
  intros Hpl Hb Ho. unfold route_into.
  destruct (indexOf key prefix =? -1); cbn [negb].
  - rewrite list_insert_id by exact Ho. reflexivity.
  - rewrite (bind_get _ _ _ _ _ (eq_trans (read_obj _ _ _ _ Hpl) (f_equal Ok Hb))).
    unfold set. rewrite Ho. reflexivity.
Qed.

Lemma route_run (h : heap) pl sb pb os op c key val :
  h !! pl = Some [(Message._signed_, VObj sb); (Message._params_, VObj pb)] ->
  h !! sb = Some os -> h !! pb = Some op ->
  sb <> pb -> pl <> sb -> pl <> pb ->
  decodeURIComponent (Message.element (split (chr "=") c) 0) = Some key ->
  decodeURIComponent (Message.element (split (chr "=") c) 1) = Some val ->
  Message.route (VObj pl) c h
  = (Ok tt,
     <[pb := route_into Message._params_ key val op]>
       (<[sb := route_into Message._signed_ key val os]> h)).
Proof.
  intros Hpl Hsb Hpb Hsp Hps Hpp Hk Hv.
  unfold Message.route. cbv zeta. unfold Message.decode.
  rewrite Hk, Hv. rewrite !bind_ret.
  rewrite (bind_keys _ _ _ [Message._signed_; Message._params_])
    by (unfold Object_keys; rewrite Hpl; reflexivity).
  rewrite !for_of_cons, for_of_nil.
  unfold bind at 1.
  rewrite (route_step h pl sb os Message._signed_ key val _ Hpl eq_refl Hsb).
  unfold bind at 1.
  rewrite (route_step _ pl pb op Message._params_ key val
             [(Message._signed_, VObj sb); (Message._params_, VObj pb)]).
  - reflexivity.
  - rewrite list_lookup_insert_ne by congruence. exact Hpl.
  - reflexivity.
  - rewrite list_lookup_insert_ne by congruence. exact Hpb.
Qed.

Lemma for_of_route cs : forall (h : heap) pl sb pb os op os' op',
  h !! pl = Some [(Message._signed_, VObj sb); (Message._params_, VObj pb)] ->
  h !! sb = Some os -> h !! pb = Some op ->
  sb <> pb -> pl <> sb -> pl <> pb ->
  route_all cs os op = Some (os', op') ->
  for_of cs (Message.route (VObj pl)) h
  = (Ok tt, <[pb := op']> (<[sb := os']> h)).
Proof.
  induction cs as [|c cs IH];
    intros h pl sb pb os op os' op' Hpl Hsb Hpb Hsp Hps Hpp Hall.
  - cbn [route_all] in Hall. injection Hall as <- <-. rewrite for_of_nil.
    rewrite (list_insert_id h sb os) by exact Hsb.
    rewrite list_insert_id by exact Hpb. reflexivity.
  - cbn [route_all] in Hall.
    destruct (decodeURIComponent (Message.element (split (chr "=") c) 0))
      as [key|] eqn:Hk; [|discriminate].
    destruct (decodeURIComponent (Message.element (split (chr "=") c) 1))
      as [val|] eqn:Hv; [|discriminate].
    rewrite for_of_cons. unfold bind at 1.
    rewrite (route_run h pl sb pb os op c key val) by assumption.
    pose proof (lookup_lt_Some _ _ _ Hsb) as Lsb.
    pose proof (lookup_lt_Some _ _ _ Hpb) as Lpb.
    rewrite (IH _ pl sb pb _ _ os' op' ) with (7 := Hall); try assumption.
    + rewrite (list_insert_insert_ne _ sb pb) by exact Hsp.
      rewrite !list_insert_insert_eq. reflexivity.
    + rewrite !list_lookup_insert_ne by congruence. exact Hpl.
    + rewrite list_lookup_insert_ne by congruence.
      now rewrite list_lookup_insert_eq.
    + rewrite list_lookup_insert_eq; [reflexivity|]. now rewrite length_insert.
Qed.

Lemma stringify_loop_strings ks : forall (h : heap) t sl ot os,
  h !! t = Some ot -> obj_get ot Message._signed_ = VObj sl ->
  h !! sl = Some os ->
  (forall k, In k ks -> exists s, obj_get os k = VStr s) ->
  for_of ks (fun key =>
    let* s := get (VObj t) Message._signed_ in
    let* value := get s key in
    if negb (jstype_eqb (typeof value) TString) then
      let* s := get (VObj t) Message._signed_ in
      let* t := JSON_stringify value in
      set s key (text_value t)
    else ret tt) h
  = (Ok tt, h).
Proof.
  induction ks as [|k ks IH]; intros h t sl ot os Ht Hs Hsl Hall.
  - reflexivity.
  - rewrite for_of_cons.
    rewrite bind_assoc.
    rewrite (bind_get _ _ _ _ _ (eq_trans (read_obj _ _ _ _ Ht) (f_equal Ok Hs))).
    rewrite bind_assoc.
    rewrite (bind_get _ _ _ _ _ (read_obj _ _ _ k Hsl)).
    destruct (Hall k (or_introl eq_refl)) as [s ->].
    cbn [typeof jstype_eqb negb]. rewrite bind_ret.
    apply (IH h t sl ot os Ht Hs Hsl).
    intros k' Hk'. apply Hall. now right.
Qed.

Lemma run_for_of_route cs {B} (f : unit -> M B) (h t : heap) pl sb pb os op os' op' :
  t !! pl = Some [(Message._signed_, VObj (length h + sb)%nat);
                  (Message._params_, VObj (length h + pb)%nat)] ->
  t !! sb = Some os -> t !! pb = Some op ->
  sb <> pb -> pl <> sb -> pl <> pb ->
  route_all cs os op = Some (os', op') ->
  bind (for_of cs (Message.route (VObj (length h + pl)))) f (h ++ t)
  = f tt (h ++ <[pb := op']> (<[sb := os']> t)).
Proof.
  intros Hpl Hsb Hpb Hsp Hps Hpp Hall. unfold bind at 1.
  rewrite (for_of_route cs (h ++ t) (length h + pl) (length h + sb)
             (length h + pb) os op os' op');
    try (rewrite lookup_ext; assumption); try lia; try assumption.
  rewrite !insert_ext. reflexivity.
Qed.

Lemma run_stringify_loop {B} (f : unit -> M B) (h t : heap) n sl ot os :
  t !! n = Some ot -> obj_get ot Message._signed_ = VObj (length h + sl) ->
  t !! sl = Some os -> all_strings os ->
  bind (for_of (own_keys os) (fun key =>
    let* s := get (VObj (length h + n)) Message._signed_ in
    let* value := get s key in
    if negb (jstype_eqb (typeof value) TString) then
      let* s := get (VObj (length h + n)) Message._signed_ in
      let* t := JSON_stringify value in
      set s key (text_value t)
    else ret tt)) f (h ++ t)
  = f tt (h ++ t).
Proof.
  intros Hn Hs Hsl Hall. unfold bind at 1.
  rewrite (stringify_loop_strings (own_keys os) (h ++ t) (length h + n)
             (length h + sl) ot os).
  - reflexivity.
  - rewrite lookup_ext. exact Hn.
  - exact Hs.
  - rewrite lookup_ext. exact Hsl.
  - intros k Hk. now apply all_strings_get.
Qed.

(** Construction from a string: the envelope and its two buckets are new
    objects, and the buckets hold what routing the components of the query
    into two empty objects gives. *)
Theorem constructor_uri (h : heap) data os op :
  route_all (split (chr "&") (query data)) [] [] = Some (os, op) ->
  Message.constructor (VStr data) h =
  (Ok (VObj (length h)),
   h ++ [ [(Message._signed_, VObj (length h + 1));
           (Message._params_, VObj (length h + 2));
           (Message.verified, VBool false)];
          os; op;
          [(Message._signed_, VObj (length h + 1));
           (Message._params_, VObj (length h + 2))] ]).
Proof.
  intros Hall.
  destruct (all_strings_route_all _ [] [] os op
              (List.Forall_nil _) (List.Forall_nil _) Hall) as [Hos _].
  unfold query in Hall. cbv zeta in Hall.
  rewrite <- (app_nil_r h) at 1.
  assert (E : VObj (length h) = VObj (length h + 0)) by (f_equal; lia).
  unfold Message.constructor.
  rewrite bind_alloc_ext. cbn [length app typeof jstype_eqb].
  rewrite !bind_assoc, bind_alloc_ext. cbn [length app].
  rewrite !bind_assoc, bind_alloc_ext. cbn [length app].
  rewrite !bind_assoc, bind_alloc_ext. cbn [length app].
  rewrite !bind_assoc.
  rewrite (run_for_of_route _ _ h _ 3%nat 1%nat 2%nat [] [] os op)
    by (try reflexivity; try lia; exact Hall).
  cbn [insert list_insert].
  rewrite bind_ret.
  do 2 (rewrite bind_get_ext; cbn; rewrite ?bind_ret; rewrite bind_set_ext; cbn).
  rewrite bind_get_ext; cbn.
  rewrite bind_keys_ext. cbn [lookup list_lookup].
  rewrite (run_stringify_loop _ h _ 0%nat 1%nat _ os)
    by (reflexivity || exact Hos).
  rewrite bind_set_ext; cbn. rewrite E. reflexivity.
Qed.

Lemma route_into_get prefix key val o :
  indexOf key prefix <> -1 ->
  substring key (strlen prefix) <> proto_name ->
  obj_get (route_into prefix key val o) (substring key (strlen prefix)) = VStr val.
Proof.
  intros Hc Hp. unfold route_into.
  destruct (indexOf key prefix =? -1) eqn:E.
  - apply Z.eqb_eq in E. contradiction.
  - now apply obj_set_get_eq.
Qed.

Lemma route_into_absent prefix key val o :
  indexOf key prefix = -1 -> route_into prefix key val o = o.
Proof. intros H. unfold route_into. now rewrite H. Qed.

Lemma route_into_proto prefix key val o :
  substring key (strlen prefix) = proto_name -> has_own o proto_name = false ->
  route_into prefix key val o = o.
Proof.
  intros E H. unfold route_into.
  destruct (indexOf key prefix =? -1); [reflexivity|].
  rewrite E. unfold obj_set. now rewrite jsstring_eqb_refl, H.
Qed.

Lemma starts_with_length p : forall s,
  starts_with p s = true -> (length p <= length s)%nat.
Proof.
  induction p as [|x p IH]; intros [|y s]; simpl; intros H;
    try lia; try discriminate.
  apply andb_true_iff in H as [_ H]. apply IH in H. lia.
Qed.

Lemma indexOf_lower s p : -1 <= indexOf s p.
Proof.
  induction s as [|c s IH]; cbn [indexOf].
  - destruct (starts_with p []); lia.
  - destruct (starts_with p (c :: s)); [lia|].
    destruct (indexOf s p =? -1); lia.
Qed.

(** An occurrence found by [indexOf] lies within the string. *)
Lemma indexOf_room s p :
  indexOf s p <> -1 ->
  Z.of_nat (length p) + indexOf s p <= Z.of_nat (length s).
Proof.
  induction s as [|c s IH]; cbn [indexOf].
  - destruct (starts_with p []) eqn:E; [|contradiction].
    apply starts_with_length in E. lia.
  - destruct (starts_with p (c :: s)) eqn:E.
    + apply starts_with_length in E. lia.
    + destruct (indexOf s p =? -1) eqn:J; [contradiction|].
      apply Z.eqb_neq in J. specialize (IH J). intros _.
      cbn [length]. lia.
Qed.

(** The name the code files a pair under is the key with the prefix
    stripped exactly when the prefix occurs at the start of the key. *)
Lemma stripped_at_start key prefix :
  strlen prefix = 8 -> indexOf key prefix <> -1 ->
  substring key 8 = after_prefix key prefix <-> indexOf key prefix = 0.
Proof.
  intros H8 Hocc. unfold after_prefix, substring. rewrite H8.
  pose proof (indexOf_lower key prefix) as Hlo.
  pose proof (indexOf_room key prefix Hocc) as Hroom.
  unfold strlen in H8. split.
  - intros E. apply (f_equal length) in E. rewrite !length_drop in E. lia.
  - intros ->. reflexivity.
Qed.

(** C2, as the code has it: the loop body files a decoded pair into every
    bucket whose prefix occurs anywhere in the key, and the name it files it
    under is the key without its first eight code units (the length of
    either prefix), wherever the prefix occurs: that name is the key with the
    prefix stripped exactly when the prefix occurs at the start of the key.
    A key that contains both prefixes goes into both buckets; a bucket whose
    prefix does not occur is left alone.  When the name is [__proto__], the
    assignment creates no property: a bucket without an own property of that
    name is left as it was. *)
Theorem route_files_under_key_without_first_eight
  (h : heap) pl sb pb os op c key val :
  h !! pl = Some [(Message._signed_, VObj sb); (Message._params_, VObj pb)] ->
  h !! sb = Some os -> h !! pb = Some op ->
  sb <> pb -> pl <> sb -> pl <> pb ->
  decodeURIComponent (Message.element (split (chr "=") c) 0) = Some key ->
  decodeURIComponent (Message.element (split (chr "=") c) 1) = Some val ->
  exists h',
    Message.route (VObj pl) c h = (Ok tt, h') /\
    (indexOf key Message._signed_ <> -1 -> substring key 8 <> proto_name ->
     read h' (VObj sb) (substring key 8) = Ok (VStr val)) /\
    (indexOf key Message._params_ <> -1 -> substring key 8 <> proto_name ->
     read h' (VObj pb) (substring key 8) = Ok (VStr val)) /\
    (indexOf key Message._signed_ = -1 -> h' !! sb = Some os) /\
    (indexOf key Message._params_ = -1 -> h' !! pb = Some op) /\
    (substring key 8 = proto_name -> has_own os proto_name = false ->
     h' !! sb = Some os) /\
    (substring key 8 = proto_name -> has_own op proto_name = false ->
     h' !! pb = Some op) /\
    (indexOf key Message._signed_ <> -1 ->
     (substring key 8 = after_prefix key Message._signed_
      <-> indexOf key Message._signed_ = 0)) /\
    (indexOf key Message._params_ <> -1 ->
     (substring key 8 = after_prefix key Message._params_
      <-> indexOf key Message._params_ = 0)).
Proof.
  intros Hpl Hsb Hpb Hsp Hps Hpp Hk Hv.
  eexists. split; [now apply (route_run h pl sb pb os op c key val)|].
  pose proof (lookup_lt_Some _ _ _ Hsb) as Lsb.
  pose proof (lookup_lt_Some _ _ _ Hpb) as Lpb.
  assert (Nps : Nat.eqb pb sb = false) by (apply Nat.eqb_neq; congruence).
  split; [|split; [|split; [|split; [|split; [|split; [|split]]]]]].
  - intros Hc Hproto.
    rewrite read_insert by (rewrite length_insert; lia). rewrite Nps.
    rewrite read_insert by lia. rewrite Nat.eqb_refl. f_equal.
    now apply (route_into_get Message._signed_).
  - intros Hc Hproto.
    rewrite read_insert by (rewrite length_insert; lia). rewrite Nat.eqb_refl.
    f_equal. now apply (route_into_get Message._params_).
  - intros Hc. rewrite list_lookup_insert_ne by congruence.
    rewrite list_lookup_insert_eq by lia.
    now rewrite route_into_absent.
  - intros Hc. rewrite list_lookup_insert_eq by (rewrite length_insert; lia).
    now rewrite route_into_absent.
  - intros Hproto Hown. rewrite list_lookup_insert_ne by congruence.
    rewrite list_lookup_insert_eq by lia.
    now rewrite (route_into_proto Message._signed_).
  - intros Hproto Hown.
    rewrite list_lookup_insert_eq by (rewrite length_insert; lia).
    now rewrite (route_into_proto Message._params_).
  - intros Hc. now apply stripped_at_start.
  - intros Hc. now apply stripped_at_start.
Qed.

Lemma route_files_under_key_without_first_eight_witness :
  (exists h',
     Message.route (VObj 3%nat) (str "_signed__params_z=1")
       [[]; []; []; [(Message._signed_, VObj 1%nat); (Message._params_, VObj 2%nat)]]
     = (Ok tt, h') /\
     read h' (VObj 1%nat) (str "_params_z") = Ok (VStr (str "1")) /\
     read h' (VObj 2%nat) (str "_params_z") = Ok (VStr (str "1")) /\
     str "_params_z" = after_prefix (str "_signed__params_z") Message._signed_ /\
     str "_params_z" <> after_prefix (str "_signed__params_z") Message._params_) /\
  (exists h',
     Message.route (VObj 3%nat) (str "_signed___proto__=x")
       [[]; []; []; [(Message._signed_, VObj 1%nat); (Message._params_, VObj 2%nat)]]
     = (Ok tt, h') /\
     h' !! 1%nat = Some [] /\ h' !! 2%nat = Some []).
Proof.
  split.
  - destruct (route_files_under_key_without_first_eight
                [[]; []; []; [(Message._signed_, VObj 1%nat); (Message._params_, VObj 2%nat)]]
                3%nat 1%nat 2%nat [] [] (str "_signed__params_z=1")
                (str "_signed__params_z") (str "1"))
      as (h' & Hrun & Hs & Hp & _ & _ & _ & _ & Hat & Hnot);
      try reflexivity; try discriminate.
    exists h'. split; [exact Hrun|].
    split; [apply Hs; discriminate|]. split; [apply Hp; discriminate|].
    split; [apply Hat; [discriminate|reflexivity]|].
    intros E. apply Hnot in E; discriminate.
  - destruct (route_files_under_key_without_first_eight
                [[]; []; []; [(Message._signed_, VObj 1%nat); (Message._params_, VObj 2%nat)]]
                3%nat 1%nat 2%nat [] [] (str "_signed___proto__=x")
                (str "_signed___proto__") (str "x"))
      as (h' & Hrun & _ & _ & _ & Hp & Hs & _);
      try reflexivity; try discriminate.
    exists h'. split; [exact Hrun|].
    split; [apply Hs; reflexivity|apply Hp; reflexivity].
Defined.

(** C2, the sentence of the specification refuted: in the key
    [x_signed_name] the prefix occurs at position 1, so stripping up to and
    including it would leave [name]; the constructor files the value under
    [_name], the key without its first eight code units, and [name] stays
    undefined. *)
Lemma route_does_not_strip_through_prefix :
  indexOf (str "x_signed_name") Message._signed_ = 1 /\
  after_prefix (str "x_signed_name") Message._signed_ = str "name" /\
  (let h := snd (Message.constructor (VStr (str "x_signed_name=hi")) []) in
   read h (VObj 0%nat) Message._signed_ = Ok (VObj 1%nat) /\
   read h (VObj 1%nat) (str "name") = Ok VUndef /\
   read h (VObj 1%nat) (str "_name") = Ok (VStr (str "hi"))).
Proof. repeat split. Qed.

Lemma route_all_app cs cs' : forall os op,
  route_all (cs ++ cs') os op
  = match route_all cs os op with
    | Some (os', op') => route_all cs' os' op'
    | None => None
    end.
Proof.
  induction cs as [|c cs IH]; intros os op; [reflexivity|].
  cbn [app route_all].
  destruct (decodeURIComponent _); [|reflexivity].
  destruct (decodeURIComponent _); [|reflexivity].
  apply IH.
Qed.

(** The routing rule seen from outside the constructor, for the last
    component of the query (a later component may overwrite an earlier
    one): its value can be read in every bucket whose prefix occurs in its
    key, under the key without its first eight code units. *)
Lemma constructor_routes_last_pair (h : heap) data cs c os op key val :
  split (chr "&") (query data) = cs ++ [c] ->
  route_all cs [] [] = Some (os, op) ->
  decodeURIComponent (Message.element (split (chr "=") c) 0) = Some key ->
  decodeURIComponent (Message.element (split (chr "=") c) 1) = Some val ->
  substring key 8 <> proto_name ->
  exists h' this s p,
    Message.constructor (VStr data) h = (Ok this, h') /\
    read h' this Message._signed_ = Ok s /\
    read h' this Message._params_ = Ok p /\
    (indexOf key Message._signed_ <> -1 ->
     read h' s (substring key 8) = Ok (VStr val)) /\
    (indexOf key Message._params_ <> -1 ->
     read h' p (substring key 8) = Ok (VStr val)).
Proof.
  intros Hsplit Hcs Hk Hv Hproto.
  assert (Hall : route_all (split (chr "&") (query data)) [] []
                 = Some (route_into Message._signed_ key val os,
                         route_into Message._params_ key val op)).
  { rewrite Hsplit, route_all_app, Hcs. cbn [route_all]. now rewrite Hk, Hv. }
  pose proof (constructor_uri h data _ _ Hall) as Hc.
  assert (E : VObj (length h) = VObj (length h + 0)) by (f_equal; lia).
  rewrite E in Hc.
  eexists _, (VObj (length h + 0)), (VObj (length h + 1)), (VObj (length h + 2)).
  split; [exact Hc|].
  split; [rewrite read_ext; reflexivity|].
  split; [rewrite read_ext; reflexivity|].
  split; intros Hin; rewrite read_ext; cbn [lookup list_lookup]; f_equal.
  - now apply (route_into_get Message._signed_).
  - now apply (route_into_get Message._params_).
Qed.

(** ** Strings without separators *)

Lemma hex_string_without c x :
  hex_digit c = None -> hex_string x = true -> without c x = true.
Proof.
  intros Hc. unfold hex_string, without.
  induction x as [|d x IH]; simpl; [reflexivity|].
  intros H. apply andb_true_iff in H as [Hd Hx].
  rewrite (IH Hx), andb_true_r.
  destruct (N.eqb d c) eqn:E; [|reflexivity].
  apply N.eqb_eq in E. subst d. rewrite Hc in Hd. discriminate.
Qed.

Lemma without_app c a b :
  without c (a ++ b) = without c a && without c b.
Proof. apply forallb_app. Qed.

Lemma indexOf_without c s : without c s = true -> indexOf s [c] = -1.
Proof.
  induction s as [|d s IH]; simpl; [reflexivity|].
  intros H. apply andb_true_iff in H as [Hd Hs].
  rewrite N.eqb_sym. apply negb_true_iff in Hd. rewrite Hd. simpl.
  now rewrite (IH Hs).
Qed.

Lemma split_without c s : without c s = true -> split c s = [s].
Proof.
  induction s as [|d s IH]; simpl; [reflexivity|].
  intros H. apply andb_true_iff in H as [Hd Hs].
  apply negb_true_iff in Hd. rewrite Hd. now rewrite (IH Hs).
Qed.

Lemma split_nonempty c s : split c s <> [].
Proof.
  destruct s as [|d s]; simpl; [discriminate|].
  destruct (N.eqb d c); [discriminate|].
  destruct (split c s); discriminate.
Qed.

(** Appending a string without separators extends the last piece. *)
Lemma split_app_without c a x :
  without c x = true ->
  split c (a ++ x) = removelast (split c a) ++ [List.last (split c a) [] ++ x].
Proof.
  intros Hx. induction a as [|d a IH].
  - simpl. now apply split_without.
  - cbn [app split]. rewrite IH.
    pose proof (split_nonempty c a) as Hne.
    destruct (split c a) as [|p [|q S]]; [contradiction| |].
    + destruct (N.eqb d c); reflexivity.
    + destruct (N.eqb d c); reflexivity.
Qed.

Lemma decode_without s : without percent s = true -> decodeURIComponent s = Some s.
Proof.
  induction s as [|d s IH]; [reflexivity|].
  intros H. cbn [without forallb] in H. apply andb_true_iff in H as [Hd Hs].
  cbn [decodeURIComponent]. rewrite Hd. now rewrite (IH Hs).
Qed.

Lemma query_plain s :
  without (chr "?") s = true -> without (chr "#") s = true -> query s = s.
Proof.
  intros Hq Hh. unfold query.
  change (str "?") with [chr "?"]. change (str "#") with [chr "#"].
  rewrite (indexOf_without _ _ Hq), (indexOf_without _ _ Hh). reflexivity.
Qed.

Lemma route_all_cons c cs os op key val :
  decodeURIComponent (Message.element (split (chr "=") c) 0) = Some key ->
  decodeURIComponent (Message.element (split (chr "=") c) 1) = Some val ->
  route_all (c :: cs) os op
  = route_all cs (route_into Message._signed_ key val os)
      (route_into Message._params_ key val op).
Proof. intros Hk Hv. cbn [route_all]. now rewrite Hk, Hv. Qed.

Lemma scenario_buckets x :
  hex_string x = true ->
  route_all (split (chr "&") (query (scenario_uri x))) [] []
  = Some ([(str "name", VStr (str "hi"))],
          [(Message.sig, VStr (str "0x" ++ x))]).
Proof.
  intros Hx.
  assert (W : forall c, hex_digit c = None ->
                without c (str "_signed_name=hi&_params_sig=0x") = true ->
                without c (scenario_uri x) = true).
  { intros c Hc Ha. unfold scenario_uri. rewrite without_app, Ha.
    now apply hex_string_without. }
  rewrite query_plain by (apply W; reflexivity).
  unfold scenario_uri.
  rewrite split_app_without by (now apply hex_string_without).
  change (removelast (split (chr "&") (str "_signed_name=hi&_params_sig=0x")))
    with [str "_signed_name=hi"].
  change (List.last (split (chr "&") (str "_signed_name=hi&_params_sig=0x")) [])
    with (str "_params_sig=0x").
  cbn [app].
  rewrite (route_all_cons (str "_signed_name=hi") _ _ _
             (str "_signed_name") (str "hi") eq_refl eq_refl).
  rewrite (route_all_cons _ _ _ _ (str "_params_sig") (str "0x" ++ x)).
  - reflexivity.
  - rewrite (split_app_without (chr "=") (str "_params_sig=0x") x)
      by (now apply hex_string_without).
    reflexivity.
  - rewrite (split_app_without (chr "=") (str "_params_sig=0x") x)
      by (now apply hex_string_without).
    change (Message.element _ 1) with (str "0x" ++ x).
    apply decode_without. rewrite without_app.
    rewrite (hex_string_without percent x eq_refl Hx). reflexivity.
Qed.

Lemma uuid_of_prefixed h this x :
  signature_of h this = Ok (VStr (str "0x" ++ x)) -> length x = 40%nat ->
  Message.uuid this h = (Ok (VStr x), h).
Proof.
  intros Hs Hx. unfold Message.uuid.
  rewrite (bind_signature _ _ _ _ Hs).
  change (truthy (VStr (str "0x" ++ x))) with true. cbv iota.
  unfold Message.getMessageUUID.
  rewrite (bind_signature _ _ _ _ Hs).
  change (jsstring_eqb (substring0 (str "0x" ++ x) 2) (str "0x")) with true.
  cbv iota. change (slice (str "0x" ++ x) 2) with x.
  unfold substring0. rewrite take_ge by (rewrite Hx; reflexivity).
  reflexivity.
Qed.

(** The signature setter strips a leading [0x]. *)
Lemma set_signature_strips (h : heap) t l ot op y :
  h !! t = Some ot -> obj_get ot Message._params_ = VObj l ->
  h !! l = Some op -> t <> l ->
  exists h',
    Message.set_signature (VObj t) (VStr (str "0x" ++ y)) h = (Ok tt, h') /\
    signature_of h' (VObj t) = Ok (VStr y) /\
    read h' (VObj t) Message.verified = Ok (VBool false).
Proof.
  intros Ht Hp Hl Htl.
  pose proof (lookup_lt_Some _ _ _ Ht) as Lt.
  pose proof (lookup_lt_Some _ _ _ Hl) as Ll.
  exists (<[t := obj_set ot Message.verified (VBool false)]>
            (<[l := obj_set op Message.sig (VStr y)]> h)).
  assert (Ntl : Nat.eqb t l = false) by (apply Nat.eqb_neq; congruence).
  split; [|split].
  - unfold Message.set_signature.
    rewrite (bind_get _ _ _ _ _ (eq_trans (read_obj _ _ _ _ Ht) (f_equal Ok Hp))).
    change (jsstring_eqb (substring0 (str "0x" ++ y) 2) (str "0x")) with true.
    cbv iota. change (slice (str "0x" ++ y) 2) with y.
    rewrite bind_ret.
    rewrite (bind_set_obj _ _ _ _ _ _ Hl).
    unfold set. rewrite list_lookup_insert_ne by congruence. rewrite Ht.
    reflexivity.
  - apply (signature_of_reads _ _ (VObj l)).
    + rewrite read_insert by (rewrite length_insert; lia). rewrite Nat.eqb_refl.
      rewrite obj_set_get_ne by discriminate. now rewrite Hp.
    + rewrite read_insert by (rewrite length_insert; lia). rewrite Ntl.
      rewrite read_insert by lia. rewrite Nat.eqb_refl.
      f_equal. apply obj_set_get_eq. discriminate.
  - rewrite read_insert by (rewrite length_insert; lia). rewrite Nat.eqb_refl.
    f_equal. apply obj_set_get_eq. discriminate.
Qed.

(** C6, as the code has it: constructing from
    [_signed_name=hi&_params_sig=0x<x>] gives the signed keys [name], the
    signed value [hi], and a signature accessor that returns the value as
    supplied, prefix [0x] included; the constructor assigns params without
    going through the signature setter.  The identity, derived with the
    prefix excluded, is [x].  It is the setter that stores a signature
    without its leading [0x]. *)
Theorem uri_scenario (h : heap) x :
  hex_string x = true -> length x = 40%nat ->
  exists h' this,
    Message.constructor (VStr (scenario_uri x)) h = (Ok this, h') /\
    fst (Message.keys this h') = Ok [str "name"] /\
    (exists s, read h' this Message._signed_ = Ok s /\
               read h' s (str "name") = Ok (VStr (str "hi"))) /\
    signature_of h' this = Ok (VStr (str "0x" ++ x)) /\
    Message.uuid this h' = (Ok (VStr x), h') /\
    (forall y, exists h'',
       Message.set_signature this (VStr (str "0x" ++ y)) h' = (Ok tt, h'') /\
       signature_of h'' this = Ok (VStr y)).
Proof.
  intros Hx Hlen.
  pose proof (constructor_uri h _ _ _ (scenario_buckets x Hx)) as Hc.
  assert (E : VObj (length h) = VObj (length h + 0)) by (f_equal; lia).
  rewrite E in Hc.
  eexists. exists (VObj (length h + 0)). split; [exact Hc|].
  assert (Hsig : signature_of
                   (h ++ [[(Message._signed_, VObj (length h + 1));
                           (Message._params_, VObj (length h + 2));
                           (Message.verified, VBool false)];
                          [(str "name", VStr (str "hi"))];
                          [(Message.sig, VStr (str "0x" ++ x))];
                          [(Message._signed_, VObj (length h + 1));
                           (Message._params_, VObj (length h + 2))]])
                   (VObj (length h + 0)) = Ok (VStr (str "0x" ++ x))).
  { apply (signature_of_reads _ _ (VObj (length h + 2))); rewrite read_ext;
      reflexivity. }
  split; [|split; [|split; [|split]]].
  - unfold Message.keys. rewrite bind_get_ext. cbn [lookup list_lookup].
    change (obj_get _ Message._signed_) with (VObj (length h + 1)).
    unfold Object_keys. rewrite lookup_ext. reflexivity.
  - exists (VObj (length h + 1)). split; rewrite read_ext; reflexivity.
  - exact Hsig.
  - now apply uuid_of_prefixed.
  - intros y.
    destruct (set_signature_strips
                (h ++ [[(Message._signed_, VObj (length h + 1));
                        (Message._params_, VObj (length h + 2));
                        (Message.verified, VBool false)];
                       [(str "name", VStr (str "hi"))];
                       [(Message.sig, VStr (str "0x" ++ x))];
                       [(Message._signed_, VObj (length h + 1));
                        (Message._params_, VObj (length h + 2))]])
                (length h + 0) (length h + 2)
                [(Message._signed_, VObj (length h + 1));
                 (Message._params_, VObj (length h + 2));
                 (Message.verified, VBool false)]
                [(Message.sig, VStr (str "0x" ++ x))] y)
      as (h'' & Hrun & Hs & _);
      try (rewrite lookup_ext; reflexivity); try reflexivity; try lia.
    exists h''. auto.
Qed.

Lemma uri_scenario_witness :
  hex_string sig40 = true /\ length sig40 = 40%nat /\
  exists h' this,
    Message.constructor (VStr (scenario_uri sig40)) [] = (Ok this, h') /\
    fst (Message.keys this h') = Ok [str "name"] /\
    signature_of h' this = Ok (VStr (str "0x" ++ sig40)) /\
    Message.uuid this h' = (Ok (VStr sig40), h').
Proof.
  split; [reflexivity|]. split; [reflexivity|].
  destruct (uri_scenario [] sig40 eq_refl eq_refl)
    as (h' & this & Hc & Hk & _ & Hs & Hu & _).
  exists h', this. auto.
Defined.

(** C6, the sentence of the specification refuted: after construction from
    the URI of the scenario the signature accessor returns the 42 code
    units [0x<sig40>], not the 40 hex digits. *)
Lemma uri_signature_keeps_hex_prefix :
  let h := snd (Message.constructor (VStr (scenario_uri sig40)) []) in
  fst (Message.constructor (VStr (scenario_uri sig40)) []) = Ok (VObj 0%nat) /\
  signature_of h (VObj 0%nat) = Ok (VStr (str "0x" ++ sig40)) /\
  signature_of h (VObj 0%nat) <> Ok (VStr sig40).
Proof. repeat split. discriminate. Qed.

(** ** The order of property names *)

Lemma insert_index_sorted e l :
  StronglySorted index_le l -> StronglySorted index_le (insert_index e l).
Proof.
  induction 1 as [|x l Hl IH Hx]; simpl.
  - repeat constructor.
  - destruct (fst e <=? fst x)%N eqn:E.
    + apply N.leb_le in E. constructor; [now constructor|].
      constructor; [exact E|].
      eapply Forall_impl; [exact Hx|]. unfold index_le. intros y Hy. lia.
    + apply N.leb_gt in E. constructor; [exact IH|].
      apply Forall_forall. intros y Hy.
      rewrite insert_index_perm in Hy.
      apply elem_of_cons in Hy as [->|Hy].
      * unfold index_le. lia.
      * rewrite Forall_forall in Hx. now apply Hx.
Qed.

Lemma sort_index_sorted l : StronglySorted index_le (sort_index l).
Proof.
  induction l as [|x l IH]; simpl; [constructor|].
  now apply insert_index_sorted.
Qed.

Lemma tag_index_elem (ks : list jsstring) n k :
  (n, k) ∈ omap tag_index ks -> array_index k = Some n /\ k ∈ ks.
Proof.
  intros H. apply list_elem_of_omap in H as (k' & Hk' & Ht).
  unfold tag_index in Ht. destruct (array_index k') eqn:E; [|discriminate].
  injection Ht as -> ->. auto.
Qed.

Lemma keys_order_sorted (ks : list jsstring) : StronglySorted key_le (keys_order ks).
Proof.
  unfold keys_order. apply StronglySorted_app_2.
  - intros k1 k2 H1 H2.
    apply list_elem_of_In, in_map_iff in H1 as ([n k] & <- & H1).
    apply list_elem_of_In in H1.
    rewrite sort_index_perm in H1. apply tag_index_elem in H1 as [H1 _].
    apply list_elem_of_In, filter_In in H2 as [_ H2].
    unfold is_index in H2. unfold key_le. simpl. rewrite H1.
    destruct (array_index k2); [discriminate|exact I].
  - assert (Hall : Forall (fun e => array_index (snd e) = Some (fst e))
                     (sort_index (omap tag_index ks))).
    { apply Forall_forall. intros [n k] H. rewrite sort_index_perm in H.
      now apply tag_index_elem in H as [H _]. }
    pose proof (sort_index_sorted (omap tag_index ks)) as Hs.
    induction Hs as [|x l Hl IH Hx]; simpl; [constructor|].
    apply Forall_cons in Hall as [Hx0 Hall].
    constructor; [now apply IH|].
    apply Forall_forall. intros k Hk.
    apply list_elem_of_In, in_map_iff in Hk as (y & <- & Hy).
    apply list_elem_of_In in Hy.
    rewrite Forall_forall in Hx, Hall.
    unfold key_le. rewrite Hx0, (Hall y Hy). exact (Hx y Hy).
  - induction ks as [|k ks IH]; simpl; [constructor|].
    destruct (is_index k) eqn:E; simpl; [exact IH|].
    constructor; [exact IH|].
    apply Forall_forall. intros k' Hk'.
    apply list_elem_of_In, filter_In in Hk' as [_ Hk'].
    unfold is_index in E, Hk'. unfold key_le.
    destruct (array_index k); [discriminate|].
    destruct (array_index k'); [discriminate|exact I].
Qed.

Lemma keys_order_fixed (ks : list jsstring) : StronglySorted key_le ks -> keys_order ks = ks.
Proof.
  induction 1 as [|k ks Hs IH Hk]; [reflexivity|].
  unfold keys_order in *. cbn [map omap list_omap List.filter].
  unfold tag_index at 1, is_index at 1.
  destruct (array_index k) as [a|] eqn:Ea; cbn [negb].
  - cbn [sort_index foldr]. fold (sort_index (omap tag_index ks)).
    assert (Hfront : insert_index (a, k) (sort_index (omap tag_index ks))
                     = (a, k) :: sort_index (omap tag_index ks)).
    { destruct (sort_index (omap tag_index ks)) as [|[b k'] S] eqn:ES;
        [reflexivity|].
      assert (Hin : (b, k') ∈ omap tag_index ks).
      { rewrite <- sort_index_perm, ES. left. }
      apply tag_index_elem in Hin as [Hb Hin].
      rewrite Forall_forall in Hk. specialize (Hk k' Hin).
      unfold key_le in Hk. rewrite Ea, Hb in Hk.
      cbn [insert_index fst]. apply N.leb_le in Hk. now rewrite Hk. }
    rewrite Hfront. cbn [map snd app]. f_equal. exact IH.
  - assert (Hnone : Forall (fun k' => array_index k' = None) ks).
    { eapply Forall_impl; [exact Hk|]. intros k' H. unfold key_le in H.
      rewrite Ea in H. destruct (array_index k'); [destruct H|reflexivity]. }
    assert (Hno : omap tag_index ks = []).
    { clear -Hnone. induction Hnone as [|k' ks Hk' _ IH]; [reflexivity|].
      cbn [omap list_omap]. unfold tag_index at 1. now rewrite Hk'. }
    assert (Hall : List.filter (fun k0 => negb (is_index k0)) ks = ks).
    { clear -Hnone. induction Hnone as [|k' ks Hk' _ IH]; [reflexivity|].
      cbn [List.filter]. unfold is_index at 1. rewrite Hk'. cbn [negb].
      now rewrite IH. }
    rewrite Hno, Hall. reflexivity.
Qed.

Lemma sublist_sorted {A} (R : relation A) l1 l2 :
  l1 `sublist_of` l2 -> StronglySorted R l2 -> StronglySorted R l1.
Proof.
  induction 1 as [|x l1 l2 Hsub IH|x l1 l2 Hsub IH]; intros Hs.
  - constructor.
  - apply StronglySorted_cons in Hs as [Hx Hs].
    constructor; [now apply IH|].
    apply Forall_forall. intros y Hy. rewrite Forall_forall in Hx.
    apply Hx. eapply elem_of_sublist; eauto.
  - apply StronglySorted_cons in Hs as [_ Hs]. now apply IH.
Qed.

(** ** [JSON.stringify] on well-formed objects *)

Lemma serialize_props_inv rec o ks : forall fields,
  serialize_props rec o ks = Ok fields ->
  map fst fields `sublist_of` ks /\
  Forall (fun kv => rec (obj_get o (fst kv)) = Ok (Some (snd kv))) fields.
Proof.
  induction ks as [|k ks IH]; intros fields H; cbn [serialize_props] in H.
  - injection H as <-. split; constructor.
  - destruct (rec (obj_get o k)) as [r| |] eqn:Hr; try discriminate.
    destruct (serialize_props rec o ks) as [fs| |]; try discriminate.
    injection H as <-. destruct (IH fs eq_refl) as [Hsub Hall].
    destruct r as [j|].
    + split; [now constructor|]. constructor; [exact Hr|exact Hall].
    + split; [now constructor|exact Hall].
Qed.

Lemma own_keys_NoDup (o : list (jsstring * value)) :
  NoDup (map fst o) -> NoDup (own_keys o).
Proof. intros H. now rewrite own_keys_perm. Qed.

Lemma depth_bound fuel (fields : list (jsstring * json)) :
  Forall (fun kv => (json_depth (snd kv) <= fuel)%nat) fields ->
  (foldr (fun kv d => Nat.max (json_depth (snd kv)) d) 0 fields <= fuel)%nat.
Proof.
  induction 1 as [|kv fields Hkv _ IH]; simpl; lia.
Qed.

Lemma depth_bound_inv fuel (fields : list (jsstring * json)) :
  (foldr (fun kv d => Nat.max (json_depth (snd kv)) d) 0 fields <= fuel)%nat ->
  Forall (fun kv => (json_depth (snd kv) <= fuel)%nat) fields.
Proof.
  induction fields as [|kv fields IH]; simpl; intros H; constructor; [lia|].
  apply IH. lia.
Qed.

(** What [JSON.stringify] returns is a well-formed text, nested no deeper
    than the fuel allows. *)
Lemma serialize_ok (h : heap) : heap_ok h ->
  forall fuel stack v j,
    serialize fuel h stack v = Ok (Some j) ->
    json_ok j /\ (json_depth j <= fuel)%nat.
Proof.
  intros Hh. induction fuel as [|fuel IH]; intros stack v j H.
  - destruct v as [| |b|n|s|l]; cbn [serialize] in H;
      [discriminate| | | | |];
      try (injection H as <-; split; [constructor|simpl; lia]).
    destruct (existsb (Nat.eqb l) stack); discriminate.
  - destruct v as [| |b|n|s|l]; cbn [serialize] in H;
      [discriminate| | | | |];
      try (injection H as <-; split; [constructor|simpl; lia]).
    destruct (existsb (Nat.eqb l) stack); [discriminate|].
    destruct (h !! l) as [o|] eqn:Hl; [|discriminate].
    destruct (serialize_props (serialize fuel h (l :: stack)) o (own_keys o))
      as [fields| |] eqn:Hp; try discriminate.
    injection H as <-.
    destruct (serialize_props_inv _ _ _ _ Hp) as [Hsub Hall].
    assert (Ho : NoDup (map fst o)).
    { unfold heap_ok in Hh. rewrite Forall_forall in Hh. apply Hh.
      eapply list_elem_of_lookup_2; eauto. }
    assert (Hch : Forall (fun kv => json_ok (snd kv)
                                    /\ (json_depth (snd kv) <= fuel)%nat) fields).
    { eapply Forall_impl; [exact Hall|]. intros kv Hkv.
      exact (IH _ _ _ Hkv). }
    split.
    + constructor.
      * eapply sublist_NoDup; [|exact Hsub]. now apply own_keys_NoDup.
      * eapply sublist_sorted; [exact Hsub|]. apply keys_order_sorted.
      * eapply Forall_impl; [exact Hch|]. now intros kv [? _].
    + cbn [json_depth]. apply le_n_S, depth_bound.
      eapply Forall_impl; [exact Hch|]. now intros kv [_ ?].
Qed.

(** ** [JSON.parse] after [JSON.stringify] *)

Lemma json_nested_ind (P : json -> Prop) :
  P JNull -> (forall b, P (JBool b)) -> (forall n, P (JNum n)) ->
  (forall s, P (JStr s)) ->
  (forall fields, Forall (fun kv => P (snd kv)) fields -> P (JObj fields)) ->
  forall j, P j.
Proof.
  intros Hnull Hbool Hnum Hstr Hobj.
  fix IH 1. intros j. destruct j as [|b|n|s|fields].
  - exact Hnull.
  - apply Hbool.
  - apply Hnum.
  - apply Hstr.
  - apply Hobj. induction fields as [|[k j] fields IHf]; constructor.
    + apply IH.
    + exact IHf.
Qed.

Lemma above_mono n m v : (m <= n)%nat -> above n v -> above m v.
Proof. destruct v; simpl; auto. lia. Qed.

Lemma cells_above_mono n m cells :
  (m <= n)%nat -> cells_above n cells -> cells_above m cells.
Proof.
  intros Hle H. unfold cells_above in *.
  eapply Forall_impl; [exact H|]. intros o Ho.
  eapply Forall_impl; [exact Ho|]. intros kv. now apply above_mono.
Qed.

Lemma obj_define_above n (o : list (jsstring * value)) k v :
  Forall (fun kv => above n (snd kv)) o -> above n v ->
  Forall (fun kv => above n (snd kv)) (obj_define o k v).
Proof.
  intros Ho Hv. induction Ho as [|[k' v'] o Hkv Ho IH]; simpl.
  - repeat constructor. exact Hv.
  - destruct (jsstring_eqb k' k); constructor; auto.
Qed.

Lemma obj_define_fresh (o : list (jsstring * value)) k v :
  ~ In k (map fst o) -> obj_define o k v = o ++ [(k, v)].
Proof.
  induction o as [|[k' v'] o IH]; simpl; intros Hk; [reflexivity|].
  destruct (jsstring_eqb k' k) eqn:E.
  - apply jsstring_eqb_eq in E. subst. exfalso. apply Hk. now left.
  - f_equal. apply IH. intros H. apply Hk. now right.
Qed.

Lemma define_all_fresh kvs : forall o : list (jsstring * value),
  NoDup (map fst o ++ map fst kvs) -> define_all o kvs = o ++ kvs.
Proof.
  induction kvs as [|[k v] kvs IH]; intros o H; simpl.
  - now rewrite app_nil_r.
  - unfold define_all in *. simpl.
    rewrite obj_define_fresh.
    + rewrite IH; [now rewrite <- app_assoc|].
      rewrite map_app. simpl. now rewrite <- app_assoc.
    + apply NoDup_app in H as (_ & H & _). intros Hin.
      apply (H k); [now apply list_elem_of_In|left].
Qed.

Lemma define_all_above n kvs : forall o : list (jsstring * value),
  Forall (fun kv => above n (snd kv)) o ->
  Forall (fun kv => above n (snd kv)) kvs ->
  Forall (fun kv => above n (snd kv)) (define_all o kvs).
Proof.
  induction kvs as [|[k v] kvs IH]; intros o Ho Hk; [exact Ho|].
  apply Forall_cons in Hk as [Hv Hk]. unfold define_all in *. simpl.
  apply IH; [|exact Hk]. now apply obj_define_above.
Qed.

Lemma parse_members_define fs : forall (o : list (jsstring * value)) h,
  Forall (fun kv => parses (snd kv)) fs ->
  exists kvs (ext : list (list (jsstring * value))),
    parse_members JSON_parse fs o h = (Ok (define_all o kvs), h ++ ext) /\
    map fst kvs = map fst fs /\
    Forall (fun kv => above (length h) (snd kv)) kvs /\
    cells_above (length h) ext /\
    (forall fuel stack (more : list (list (jsstring * value))),
       outside stack (length h) (length ext) ->
       Forall2 (fun (kv : jsstring * value) (f : jsstring * json) =>
                  json_ok (snd f) -> (json_depth (snd f) <= fuel)%nat ->
                  serialize fuel (h ++ ext ++ more) stack (snd kv)
                  = Ok (Some (snd f))) kvs fs).
Proof.
  induction fs as [|[k j] fs IH]; intros o h Hall.
  - exists [], []. rewrite app_nil_r. repeat split; constructor.
  - apply Forall_cons in Hall as [Hj Hall]. simpl in Hj.
    destruct (Hj h) as (v & ext1 & Hrun & Hv & Hc1 & _ & Hrt).
    destruct (IH (obj_define o k v) (h ++ ext1) Hall)
      as (kvs & ext2 & Hrun2 & Hkeys & Hvs & Hc2 & Hrts).
    exists ((k, v) :: kvs), (ext1 ++ ext2).
    rewrite length_app in Hvs, Hc2.
    split; [|split; [|split; [|split]]].
    + cbn [parse_members]. unfold bind. rewrite Hrun, Hrun2.
      now rewrite app_assoc.
    + simpl. now rewrite Hkeys.
    + constructor; [exact Hv|].
      eapply Forall_impl; [exact Hvs|]. intros kv. apply above_mono. lia.
    + unfold cells_above. apply Forall_app. split; [exact Hc1|].
      eapply cells_above_mono; [|exact Hc2]. lia.
    + intros fuel stack more Hout. rewrite length_app in Hout.
      constructor.
      * intros Hok Hd. cbn [snd].
        rewrite <- (app_assoc ext1 ext2 more).
        apply Hrt; [exact Hok|exact Hd|].
        eapply Forall_impl; [exact Hout|]. intros l. simpl. lia.
      * rewrite <- (app_assoc ext1 ext2 more), (app_assoc h ext1).
        apply Hrts. rewrite length_app.
        eapply Forall_impl; [exact Hout|]. intros l. simpl. lia.
Qed.

Lemma serialize_props_all rec (o : list (jsstring * value)) fields :
  Forall (fun f : jsstring * json =>
            rec (obj_get o (fst f)) = Ok (Some (snd f))) fields ->
  serialize_props rec o (map fst fields) = Ok fields.
Proof.
  induction 1 as [|[k j] fields Hf _ IH]; [reflexivity|].
  cbn [map fst serialize_props]. simpl in Hf. rewrite Hf, IH. reflexivity.
Qed.

Lemma obj_get_nodup (o : list (jsstring * value)) k v :
  NoDup (map fst o) -> In (k, v) o -> obj_get o k = v.
Proof.
  induction o as [|[k' v'] o IH]; simpl; [intros _ []|].
  intros Hnd Hin. apply NoDup_cons in Hnd as [Hk' Hnd].
  destruct Hin as [E|Hin].
  - injection E as -> ->. now rewrite jsstring_eqb_refl.
  - destruct (jsstring_eqb k' k) eqn:E; [|now apply IH].
    apply jsstring_eqb_eq in E. subst k'. exfalso. apply Hk'.
    apply list_elem_of_In, in_map_iff. now exists (k, v).
Qed.

Lemma members_get {R : value -> jsstring * json -> Prop}
  (kvs : list (jsstring * value)) (fs : list (jsstring * json)) :
  Forall2 (fun kv f => R (snd kv) f) kvs fs ->
  map fst kvs = map fst fs -> NoDup (map fst kvs) ->
  Forall (fun f => R (obj_get kvs (fst f)) f) fs.
Proof.
  intros H2 Hkeys Hnd.
  assert (Hin : forall f, In f fs ->
                  exists kv, In kv kvs /\ fst kv = fst f /\ R (snd kv) f).
  { clear Hnd. induction H2 as [|kv f kvs fs Hkf _ IH]; [intros f []|].
    simpl in Hkeys. injection Hkeys as Hk Hkeys.
    intros f' [<-|Hf'].
    - exists kv. split; [now left|]. auto.
    - destruct (IH Hkeys f' Hf') as (kv' & Hin' & Hrest).
      exists kv'. split; [now right|exact Hrest]. }
  apply List.Forall_forall. intros f Hf.
  destruct (Hin f Hf) as ([k v] & Hkv & Hk & HR). simpl in Hk, HR.
  subst k. now rewrite (obj_get_nodup kvs (fst f) v Hnd Hkv).
Qed.

Lemma outside_not_in stack n m l :
  outside stack n m -> (n <= l < n + m)%nat -> existsb (Nat.eqb l) stack = false.
Proof.
  intros Hout Hl. unfold outside in Hout.
  induction Hout as [|x stack Hx _ IH]; [reflexivity|].
  simpl. rewrite IH, orb_false_r. apply Nat.eqb_neq. lia.
Qed.

Lemma JSON_parse_object fields :
  JSON_parse (JObj fields) = bind (parse_members JSON_parse fields []) alloc.
Proof. reflexivity. Qed.

(** [JSON.parse] of any text appends fresh objects only, and the value it
    returns serializes back to the text. *)
Lemma parses_all j : parses j.
Proof.
  induction j as [|b|n|s|fields Hall] using json_nested_ind;
    try (intros h; eexists _, [];
         rewrite app_nil_r; repeat split;
         [constructor | intros l [=] | intros _ fuel stack more _ _;
                                        destruct fuel; reflexivity]).
  intros h.
  destruct (parse_members_define fields [] h Hall)
    as (kvs & ext & Hrun & Hkeys & Hvs & Hc & Hrts).
  exists (VObj (length h + length ext)), (ext ++ [define_all [] kvs]).
  split; [|split; [|split; [|split]]].
  - rewrite JSON_parse_object. unfold bind. rewrite Hrun. unfold alloc.
    now rewrite length_app, app_assoc.
  - simpl. lia.
  - unfold cells_above. apply Forall_app. split; [exact Hc|].
    constructor; [|constructor]. now apply define_all_above.
  - intros l [= <-]. rewrite length_app. simpl. lia.
  - intros Hok fuel stack more Hd Hout.
    inversion Hok as [| | | |fields' Hnd Hsorted Hch]; subst fields'.
    rewrite length_app in Hout. cbn [length] in Hout.
    destruct fuel as [|fuel]; [cbn [json_depth] in Hd; lia|].
    cbn [json_depth] in Hd. apply le_S_n, depth_bound_inv in Hd.
    cbn [serialize].
    rewrite (outside_not_in stack (length h) (length ext + 1)) by (auto; lia).
    assert (Hof : define_all [] kvs = kvs).
    { apply (define_all_fresh kvs []). simpl. now rewrite Hkeys. }
    rewrite Hof.
    assert (Hlook : (h ++ (ext ++ [kvs]) ++ more) !! (length h + length ext)%nat
                    = Some kvs).
    { rewrite lookup_ext, <- app_assoc. apply list_lookup_middle. reflexivity. }
    rewrite Hlook.
    assert (Hkeys' : own_keys kvs = map fst fields).
    { unfold own_keys. rewrite Hkeys. now apply keys_order_fixed. }
    rewrite Hkeys'.
    rewrite serialize_props_all; [reflexivity|].
    assert (Hout' : outside ((length h + length ext)%nat :: stack)
                      (length h) (length ext)).
    { constructor; [lia|]. eapply Forall_impl; [exact Hout|].
      intros l. simpl. lia. }
    pose proof (Hrts fuel _ ([kvs] ++ more) Hout') as H2.
    assert (Heq : h ++ ext ++ [kvs] ++ more = h ++ (ext ++ [kvs]) ++ more)
      by now rewrite <- (app_assoc ext).
    rewrite Heq in H2.
    pose proof (members_get
                  (R := fun v f => json_ok (snd f) ->
                          (json_depth (snd f) <= fuel)%nat ->
                          serialize fuel (h ++ (ext ++ [kvs]) ++ more)
                            ((length h + length ext)%nat :: stack) v
                          = Ok (Some (snd f)))
                  kvs fields H2 Hkeys) as Hget.
    rewrite Hkeys in Hget. specialize (Hget Hnd).
    apply List.Forall_forall. intros f Hf.
    rewrite List.Forall_forall in Hget, Hch, Hd.
    apply (Hget f Hf); [apply Hch|apply Hd]; exact Hf.
Qed.

(** ** The payload accessor *)

Lemma bind_ok_inv {A B} (m : M A) (f : A -> M B) h b h' :
  bind m f h = (Ok b, h') ->
  exists a h1, m h = (Ok a, h1) /\ f a h1 = (Ok b, h').
Proof.
  unfold bind. destruct (m h) as [[a|e|] h1]; intros H; try discriminate.
  eauto.
Qed.

Lemma get_ok_inv v k h x h' :
  get v k h = (Ok x, h') -> read h v k = Ok x /\ h' = h.
Proof. rewrite get_read. intros [= -> ->]. auto. Qed.

Lemma stringify_ok_inv v (h : heap) t h' :
  JSON_stringify v h = (Ok t, h') ->
  serialize (S (length h)) h [] v = Ok t /\ h' = h.
Proof. unfold JSON_stringify. intros [= H ->]. auto. Qed.

Lemma serialize_object_shape fuel (h : heap) stack l j :
  serialize fuel h stack (VObj l) = Ok (Some j) -> exists fields, j = JObj fields.
Proof.
  destruct fuel; cbn [serialize]; destruct (existsb _ _); try discriminate.
  destruct (h !! l); [|discriminate].
  destruct (serialize_props _ _ _); try discriminate.
  intros [= <-]. eauto.
Qed.

Lemma reachable_valid (h : heap) v l : reachable h v l -> (l < length h)%nat.
Proof.
  induction 1 as [l o Hl|]; [|assumption].
  eapply lookup_lt_Some; eauto.
Qed.

Lemma reachable_above (h ext : heap) v l :
  cells_above (length h) ext -> above (length h) v ->
  reachable (h ++ ext) v l -> (length h <= l)%nat.
Proof.
  intros Hc Hv Hr. induction Hr as [l o Hl|l o k v l' Hl Hin Hr IH].
  - exact Hv.
  - apply IH. simpl in Hv.
    rewrite lookup_app_r in Hl by exact Hv.
    unfold cells_above in Hc. rewrite Forall_forall in Hc.
    assert (Ho : o ∈ ext) by (eapply list_elem_of_lookup_2; eauto).
    specialize (Hc o Ho). rewrite Forall_forall in Hc.
    apply (Hc (k, v)). now apply list_elem_of_In.
Qed.

Lemma snapshot_ok (h : heap) s p :
  heap_ok h ->
  heap_ok (h ++ [[(Message._signed_, s); (Message._params_, p)]]).
Proof.
  intros Hh. unfold heap_ok. apply Forall_app. split; [exact Hh|].
  constructor; [|constructor]. simpl.
  apply NoDup_cons. split; [|apply NoDup_singleton].
  intros H. apply list_elem_of_singleton in H. discriminate.
Qed.

(** C9: the object that [payload] returns is a copy of
    [{_signed_: this._signed_, _params_: this._params_}] with the same JSON
    text, made of new objects only: everything reachable from it was created
    by the call, and a write to any part of it leaves every object that
    existed before, the envelope and its buckets among them, as it was. *)
Theorem payload_snapshot_isolation (h : heap) this v h' :
  heap_ok h ->
  Message.payload this h = (Ok v, h') ->
  exists s p j root (ext : heap),
    read h this Message._signed_ = Ok s /\
    read h this Message._params_ = Ok p /\
    fst (JSON_stringify (VObj (length h))
           (h ++ [[(Message._signed_, s); (Message._params_, p)]]))
    = Ok (Some j) /\
    v = VObj root /\ h' = h ++ ext /\
    fst (JSON_stringify v h') = Ok (Some j) /\
    (forall l, reachable h' v l -> (length h < l < length h')%nat) /\
    (forall l k x, reachable h' v l ->
       exists h'', set (VObj l) k x h' = (Ok tt, h'') /\
                   take (length h) h'' = h).
Proof.
  intros Hh H. unfold Message.payload in H.
  apply bind_ok_inv in H as (s & h1 & Hs & H).
  apply get_ok_inv in Hs as [Hs ->].
  apply bind_ok_inv in H as (p & h1 & Hp & H).
  apply get_ok_inv in Hp as [Hp ->].
  apply bind_ok_inv in H as (snap & h1 & Ha & H).
  unfold alloc in Ha. injection Ha as <- <-.
  apply bind_ok_inv in H as (text & h1 & Ht & H).
  apply stringify_ok_inv in Ht as [Ht ->].
  destruct text as [j|]; [|discriminate].
  set (h1 := h ++ [[(Message._signed_, s); (Message._params_, p)]]) in *.
  destruct (serialize_ok h1 (snapshot_ok h s p Hh) _ _ _ _ Ht) as [Hok Hd].
  destruct (serialize_object_shape _ _ _ _ _ Ht) as [fields ->].
  destruct (parses_all (JObj fields) h1) as (v' & ext & Hrun & Hv & Hc & Hvalid & Hrt).
  rewrite Hrun in H. injection H as <- <-.
  assert (Hroot : exists root, v' = VObj root).
  { rewrite JSON_parse_object in Hrun. unfold bind in Hrun.
    destruct (parse_members JSON_parse fields [] h1) as [[o| |] h2];
      try discriminate.
    unfold alloc in Hrun. injection Hrun as <- _. eauto. }
  destruct Hroot as [root ->].
  assert (Hlen1 : length h1 = S (length h))
    by (unfold h1; rewrite length_app; simpl; lia).
  exists s, p, (JObj fields), root, ([[(Message._signed_, s); (Message._params_, p)]] ++ ext).
  split; [exact Hs|]. split; [exact Hp|].
  split; [unfold JSON_stringify; cbn [fst]; exact Ht|].
  split; [reflexivity|].
  split; [unfold h1; now rewrite <- app_assoc|].
  assert (Hreach : forall l, reachable (h1 ++ ext) (VObj root) l ->
                     (length h < l < length (h1 ++ ext))%nat).
  { intros l Hr. split.
    - pose proof (reachable_above h1 ext _ l Hc Hv Hr). lia.
    - now apply reachable_valid in Hr. }
  split; [|split; [exact Hreach|]].
  - unfold JSON_stringify. cbn [fst].
    rewrite <- (app_nil_r ext), app_assoc.
    rewrite <- (app_assoc h1 ext []).
    replace (length ((h1 ++ ext) ++ [])) with (length (h1 ++ ext))
      by now rewrite app_nil_r.
    apply Hrt; [exact Hok| |constructor].
    rewrite length_app. lia.
  - intros l k x Hr. destruct (Hreach l Hr) as [Hlo Hhi].
    destruct ((h1 ++ ext) !! l) as [o|] eqn:Hl.
    2:{ apply lookup_ge_None in Hl. lia. }
    eexists. split; [unfold set; rewrite Hl; reflexivity|].
    rewrite take_insert_ge by lia.
    unfold h1. rewrite <- app_assoc. apply take_app_length.
Qed.

Lemma payload_snapshot_isolation_witness :
  heap_ok nested_envelope /\
  exists v h',
    Message.payload (VObj 4%nat) nested_envelope = (Ok v, h') /\
    (exists s p, read h' v Message._signed_ = Ok s /\
                 read h' s (str "a") = Ok (VStr (str "1")) /\
                 read h' v Message._params_ = Ok p /\
                 read h' p (str "sig") = Ok VUndef) /\
    (forall l, reachable h' v l -> (length nested_envelope < l < length h')%nat) /\
    (forall l k x, reachable h' v l ->
       exists h'', set (VObj l) k x h' = (Ok tt, h'') /\
                   take (length nested_envelope) h'' = nested_envelope).
Proof.
  assert (Hok : heap_ok nested_envelope).
  { unfold heap_ok. apply (bool_decide_unpack _). vm_compute. exact I. }
  split; [exact Hok|].
  eexists _, _. split; [reflexivity|].
  destruct (payload_snapshot_isolation nested_envelope (VObj 4%nat) _ _ Hok eq_refl)
    as (s & p & j & root & ext & _ & _ & _ & _ & _ & _ & Hreach & Hset).
  split; [|split; [exact Hreach|exact Hset]].
  eexists _, _. repeat split; reflexivity.
Defined.

Lemma serialize_primitive fuel (h : heap) stack v :
  primitive v -> exists r, serialize fuel h stack v = Ok r.
Proof. destruct v, fuel; simpl; intros H; try destruct H; eauto. Qed.

Lemma obj_get_flat (o : list (jsstring * value)) k :
  flat o -> primitive (obj_get o k).
Proof.
  induction 1 as [|[k' v] o Hv _ IH]; simpl; [exact I|].
  destruct (jsstring_eqb k' k); assumption.
Qed.

Lemma serialize_props_flat fuel (h : heap) stack (o : list (jsstring * value)) ks :
  flat o -> exists fields, serialize_props (serialize fuel h stack) o ks = Ok fields.
Proof.
  intros Ho. induction ks as [|k ks [fields IH]]; [now exists []|].
  cbn [serialize_props].
  destruct (serialize_primitive fuel h stack _ (obj_get_flat o k Ho)) as [r ->].
  rewrite IH. eauto.
Qed.

Lemma serialize_flat_object fuel (h : heap) stack l o :
  h !! l = Some o -> flat o -> existsb (Nat.eqb l) stack = false ->
  exists fields, serialize (S fuel) h stack (VObj l) = Ok (Some (JObj fields)).
Proof.
  intros Hl Ho Hs. cbn [serialize]. rewrite Hs, Hl.
  destruct (serialize_props_flat fuel h (l :: stack) o (own_keys o) Ho)
    as [fields ->].
  eauto.
Qed.

(** [payload] returns for an envelope whose buckets hold primitive values
    only (after construction the signed bucket holds strings). *)
Lemma payload_returns_flat (h : heap) t sl l ot os op :
  h !! t = Some ot ->
  obj_get ot Message._signed_ = VObj sl -> obj_get ot Message._params_ = VObj l ->
  h !! sl = Some os -> h !! l = Some op -> flat os -> flat op ->
  exists v h', Message.payload (VObj t) h = (Ok v, h').
Proof.
  intros Ht Hs Hp Hsl Hl Hfs Hfp. unfold Message.payload.
  rewrite (bind_get _ _ _ _ _ (eq_trans (read_obj _ _ _ _ Ht) (f_equal Ok Hs))).
  rewrite (bind_get _ _ _ _ _ (eq_trans (read_obj _ _ _ _ Ht) (f_equal Ok Hp))).
  unfold bind at 1, alloc.
  set (h1 := h ++ [[(Message._signed_, VObj sl); (Message._params_, VObj l)]]).
  pose proof (lookup_lt_Some _ _ _ Hsl) as Lsl.
  pose proof (lookup_lt_Some _ _ _ Hl) as Ll.
  assert (Hlen : length h1 = S (length h))
    by (unfold h1; rewrite length_app; simpl; lia).
  assert (Hsnap : h1 !! length h
                  = Some [(Message._signed_, VObj sl); (Message._params_, VObj l)])
    by (unfold h1; now apply list_lookup_middle).
  destruct (serialize_flat_object (length h) h1 [length h] sl os)
    as [fs Hfs1]; [unfold h1; now rewrite lookup_app_l|exact Hfs| |].
  { simpl. rewrite orb_false_r. apply Nat.eqb_neq. lia. }
  destruct (serialize_flat_object (length h) h1 [length h] l op)
    as [fp Hfp1]; [unfold h1; now rewrite lookup_app_l|exact Hfp| |].
  { simpl. rewrite orb_false_r. apply Nat.eqb_neq. lia. }
  assert (Htext : JSON_stringify (VObj (length h)) h1
                  = (Ok (Some (JObj [(Message._signed_, JObj fs);
                                     (Message._params_, JObj fp)])), h1)).
  { unfold JSON_stringify. rewrite Hlen. f_equal.
    change (serialize (S (S (length h))) h1 [] (VObj (length h)))
      with (match h1 !! length h with
            | None => Stuck
            | Some o =>
                match serialize_props (serialize (S (length h)) h1 [length h])
                        o (own_keys o) with
                | Ok fields => Ok (Some (JObj fields))
                | Throw e => Throw e
                | Stuck => Stuck
                end
            end).
    rewrite Hsnap.
    change (own_keys [(Message._signed_, VObj sl); (Message._params_, VObj l)])
      with [Message._signed_; Message._params_].
    cbn [serialize_props].
    change (obj_get [(Message._signed_, VObj sl); (Message._params_, VObj l)]
              Message._signed_) with (VObj sl).
    change (obj_get [(Message._signed_, VObj sl); (Message._params_, VObj l)]
              Message._params_) with (VObj l).
    rewrite Hfs1, Hfp1. reflexivity. }
  unfold bind at 1. rewrite Htext.
  destruct (parses_all (JObj [(Message._signed_, JObj fs);
                              (Message._params_, JObj fp)]) h1)
    as (v & ext & Hrun & _).
  rewrite Hrun. eauto.
Qed.

(** ** [JSON.stringify] never runs out of fuel *)

Lemma obj_get_valid n (o : list (jsstring * value)) k :
  Forall (fun kv => valid n (snd kv)) o -> valid n (obj_get o k).
Proof.
  induction 1 as [|[k' v] o Hv _ IH]; simpl; [exact I|].
  destruct (jsstring_eqb k' k); assumption.
Qed.

Lemma stack_room (stack : list nat) n l :
  NoDup stack -> Forall (fun x => (x < n)%nat) stack ->
  existsb (Nat.eqb l) stack = false -> (l < n)%nat ->
  (length stack < n)%nat.
Proof.
  intros Hnd Hlt Hl Hn.
  assert (Hnd' : NoDup (l :: stack)).
  { constructor; [|exact Hnd]. intros Hin. apply list_elem_of_In in Hin.
    assert (existsb (Nat.eqb l) stack = true)
      by (apply existsb_exists; exists l; split; [exact Hin|apply Nat.eqb_refl]).
    congruence. }
  assert (Hincl : incl (l :: stack) (seq 0 n)).
  { intros x [<-|Hx]; apply in_seq; simpl.
    - lia.
    - rewrite List.Forall_forall in Hlt. specialize (Hlt x Hx). lia. }
  apply NoDup_ListNoDup in Hnd'.
  pose proof (NoDup_incl_length Hnd' Hincl) as Hlen.
  rewrite length_seq in Hlen. simpl in Hlen. lia.
Qed.

Lemma serialize_props_progress rec (o : list (jsstring * value)) ks :
  (forall k, rec (obj_get o k) <> Stuck) -> serialize_props rec o ks <> Stuck.
Proof.
  intros Hrec. induction ks as [|k ks IH]; cbn [serialize_props]; [discriminate|].
  specialize (Hrec k). destruct (rec (obj_get o k)); try congruence.
  destruct (serialize_props rec o ks); congruence.
Qed.

Lemma serialize_progress (h : heap) : heap_closed h ->
  forall fuel stack v,
    valid (length h) v -> NoDup stack ->
    Forall (fun x => (x < length h)%nat) stack ->
    (length h < length stack + fuel)%nat ->
    serialize fuel h stack v <> Stuck.
Proof.
  intros Hh. induction fuel as [|fuel IH]; intros stack v Hv Hnd Hlt Hfuel.
  - destruct v as [| |b|n|s|l]; cbn [serialize]; try discriminate.
    destruct (existsb (Nat.eqb l) stack) eqn:E; [discriminate|].
    pose proof (stack_room stack (length h) l Hnd Hlt E Hv). lia.
  - destruct v as [| |b|n|s|l]; cbn [serialize]; try discriminate.
    destruct (existsb (Nat.eqb l) stack) eqn:E; [discriminate|].
    simpl in Hv. destruct (h !! l) as [o|] eqn:Hl.
    2:{ apply lookup_ge_None in Hl. lia. }
    assert (Ho : Forall (fun kv => valid (length h) (snd kv)) o).
    { unfold heap_closed in Hh. rewrite Forall_forall in Hh. apply Hh.
      eapply list_elem_of_lookup_2; eauto. }
    assert (Hnd' : NoDup (l :: stack)).
    { constructor; [|exact Hnd]. intros Hin. apply list_elem_of_In in Hin.
      assert (existsb (Nat.eqb l) stack = true)
        by (apply existsb_exists; exists l; split;
            [exact Hin|apply Nat.eqb_refl]).
      congruence. }
    pose proof (serialize_props_progress (serialize fuel h (l :: stack)) o
                  (own_keys o)) as Hp.
    destruct (serialize_props (serialize fuel h (l :: stack)) o (own_keys o));
      try discriminate.
    exfalso. apply Hp; [|reflexivity].
    intros k. apply IH.
    + now apply obj_get_valid.
    + exact Hnd'.
    + constructor; [exact Hv|exact Hlt].
    + simpl. lia.
Qed.

Lemma serialize_props_throws rec (o : list (jsstring * value)) ks e :
  (forall v e', rec v = Throw e' -> e' = TypeError) ->
  serialize_props rec o ks = Throw e -> e = TypeError.
Proof.
  intros Hrec. induction ks as [|k ks IH]; cbn [serialize_props]; [discriminate|].
  destruct (rec (obj_get o k)) as [r|e'|] eqn:Hr; try discriminate.
  - destruct (serialize_props rec o ks); try discriminate.
    intros [= <-]. now apply IH.
  - intros [= <-]. eapply Hrec; eauto.
Qed.

(** The only exception of [JSON.stringify] on these values is the
    [TypeError] for a cyclic structure. *)
Lemma serialize_throws fuel : forall (h : heap) stack v e,
  serialize fuel h stack v = Throw e -> e = TypeError.
Proof.
  induction fuel as [|fuel IH]; intros h stack v e H.
  - destruct v as [| |b|n|s|l]; cbn [serialize] in H; try discriminate.
    destruct (existsb (Nat.eqb l) stack); [congruence|discriminate].
  - destruct v as [| |b|n|s|l]; cbn [serialize] in H; try discriminate.
    destruct (existsb (Nat.eqb l) stack); [congruence|].
    destruct (h !! l) as [o|]; [|discriminate].
    destruct (serialize_props (serialize fuel h (l :: stack)) o (own_keys o))
      as [fs|e'|] eqn:Hp; try discriminate.
    injection H as <-.
    eapply serialize_props_throws; [|exact Hp].
    intros v' e'' Hv'. eapply IH; eauto.
Qed.

Lemma serialize_object_defined fuel (h : heap) stack l :
  serialize fuel h stack (VObj l) <> Ok None.
Proof.
  destruct fuel; cbn [serialize]; destruct (existsb _ _); try discriminate.
  destruct (h !! l); [|discriminate].
  destruct (serialize_props _ _ _); discriminate.
Qed.

Lemma payload_run (h : heap) t ot :
  h !! t = Some ot ->
  let s := obj_get ot Message._signed_ in
  let p := obj_get ot Message._params_ in
  let h1 := h ++ [[(Message._signed_, s); (Message._params_, p)]] in
  Message.payload (VObj t) h
  = match serialize (S (length h1)) h1 [] (VObj (length h)) with
    | Ok (Some j) => JSON_parse j h1
    | Ok None => (Throw SyntaxError, h1)
    | Throw e => (Throw e, h1)
    | Stuck => (Stuck, h1)
    end.
Proof.
  intros Ht s p h1. unfold Message.payload.
  rewrite (bind_get _ _ _ _ _ (read_obj _ _ _ Message._signed_ Ht)).
  rewrite (bind_get _ _ _ _ _ (read_obj _ _ _ Message._params_ Ht)).
  unfold bind, alloc, JSON_stringify. fold s p h1.
  destruct (serialize (S (length h1)) h1 [] (VObj (length h))) as [[j|]| |];
    reflexivity.
Qed.

(** [payload] on an envelope of a store without dangling references either
    returns or throws the [TypeError] of a cyclic structure. *)
Lemma payload_total (h : heap) t ot :
  heap_closed h -> h !! t = Some ot ->
  (exists v h', Message.payload (VObj t) h = (Ok v, h')) \/
  (exists h', Message.payload (VObj t) h = (Throw TypeError, h')).
Proof.
  intros Hh Ht. rewrite (payload_run h t ot Ht). cbv zeta.
  set (s := obj_get ot Message._signed_). set (p := obj_get ot Message._params_).
  set (h1 := h ++ [[(Message._signed_, s); (Message._params_, p)]]).
  assert (Hlen : length h1 = S (length h))
    by (unfold h1; rewrite length_app; simpl; lia).
  assert (Hot : Forall (fun kv => valid (length h) (snd kv)) ot).
  { unfold heap_closed in Hh. rewrite Forall_forall in Hh. apply Hh.
    eapply list_elem_of_lookup_2; eauto. }
  assert (Hmono : forall v, valid (length h) v -> valid (length h1) v).
  { intros [| | | | |l]; simpl; auto. lia. }
  assert (Hh1 : heap_closed h1).
  { unfold heap_closed. unfold h1 at 2. apply Forall_app. split.
    - eapply Forall_impl; [exact Hh|]. intros o Ho.
      eapply Forall_impl; [exact Ho|]. intros kv. apply Hmono.
    - repeat constructor; apply Hmono; now apply obj_get_valid. }
  pose proof (serialize_progress h1 Hh1 (S (length h1)) [] (VObj (length h))) as Hprog.
  destruct (serialize (S (length h1)) h1 [] (VObj (length h))) as [r|e|] eqn:Hser.
  - left. destruct r as [j|].
    + destruct (parses_all j h1) as (v & ext & Hrun & _). rewrite Hrun. eauto.
    + exfalso. now apply serialize_object_defined in Hser.
  - right. apply serialize_throws in Hser. subst e. eauto.
  - exfalso. apply Hprog; try reflexivity; try constructor; simpl; lia.
Qed.

(** * Further properties of the envelope *)

(** ** Verification: the remaining outcomes *)

(** Without a signature, [verify] and [verifySync] throw
    [MissingSignature] whatever the service is: it is not consulted, and
    the store is left as it was. *)
Theorem verify_requires_signature h this e blockNumber domain p claimed s :
  read h this Message._params_ = Ok p ->
  read h p Message.alias = Ok claimed ->
  read h p Message.sig = Ok s -> truthy s = false ->
  Message.verify this (Some e) domain h = (Throw MissingSignature, h) /\
  Message.verifySync this (Some e) blockNumber domain h
  = (Throw MissingSignature, h).
Proof.
  intros Hp Ha Hs Hfs. split.
  - unfold Message.verify.
    rewrite (verify_prologue h this p claimed s
               (fun c s => if negb (truthy s) then _ else _) Hp Ha Hs).
    rewrite Hfs. reflexivity.
  - unfold Message.verifySync.
    rewrite (verify_prologue h this p claimed s
               (fun c s => if negb (truthy s) then _ else _) Hp Ha Hs).
    rewrite Hfs. reflexivity.
Qed.

Lemma verify_requires_signature_witness :
  signature_of unsigned_envelope (VObj 0%nat) = Ok VUndef /\
  Message.verify (VObj 0%nat) (Some (resolving (VStr (str "alice")))) VUndef
    unsigned_envelope = (Throw MissingSignature, unsigned_envelope) /\
  Message.verifySync (VObj 0%nat) (Some (resolving (VStr (str "alice"))))
    (VNum 7) VUndef unsigned_envelope
  = (Throw MissingSignature, unsigned_envelope).
Proof.
  split; [reflexivity|].
  apply (verify_requires_signature unsigned_envelope (VObj 0%nat)
           (resolving (VStr (str "alice"))) (VNum 7) VUndef
           (VObj 2%nat) VUndef VUndef); reflexivity.
Defined.

Lemma verify_run h this e domain p claimed s :
  read h this Message._params_ = Ok p ->
  read h p Message.alias = Ok claimed ->
  read h p Message.sig = Ok s -> truthy s = true ->
  Message.verify this (Some e) domain h
  = match verifyData e h this (default_domain domain) with
    | Resolves a => Message.reconcile this claimed a h
    | Rejects => (Throw VerificationFailed, h)
    end.
Proof.
  intros Hp Ha Hs Hts. unfold Message.verify.
  rewrite (verify_prologue h this p claimed s
             (fun c s => if negb (truthy s) then _ else _) Hp Ha Hs).
  rewrite Hts. cbn [negb]. unfold bind at 1.
  destruct (verifyData e h this (default_domain domain)); reflexivity.
Qed.

Lemma verifySync_run h this e blockNumber domain p claimed s :
  read h this Message._params_ = Ok p ->
  read h p Message.alias = Ok claimed ->
  read h p Message.sig = Ok s -> truthy s = true ->
  Message.verifySync this (Some e) blockNumber domain h
  = match verifyDataSync e h this blockNumber (default_domain domain) with
    | Resolves a => Message.reconcile this claimed a h
    | Rejects => (Throw VerificationFailed, h)
    end.
Proof.
  intros Hp Ha Hs Hts. unfold Message.verifySync.
  rewrite (verify_prologue h this p claimed s
             (fun c s => if negb (truthy s) then _ else _) Hp Ha Hs).
  rewrite Hts. cbn [negb]. unfold bind at 1.
  destruct (verifyDataSync e h this blockNumber (default_domain domain));
    reflexivity.
Qed.

(** When the call into the service fails, [verify] and [verifySync] throw
    [VerificationFailed] and the store is left as it was: the claimed alias,
    the signature and [verified] keep their values. *)
Theorem verify_service_failure h this e blockNumber domain p claimed s :
  read h this Message._params_ = Ok p ->
  read h p Message.alias = Ok claimed ->
  read h p Message.sig = Ok s -> truthy s = true ->
  (verifyData e h this (default_domain domain) = Rejects ->
   Message.verify this (Some e) domain h = (Throw VerificationFailed, h)) /\
  (verifyDataSync e h this blockNumber (default_domain domain) = Rejects ->
   Message.verifySync this (Some e) blockNumber domain h
   = (Throw VerificationFailed, h)).
Proof.
  intros Hp Ha Hs Hts. split; intros Hsvc.
  - rewrite (verify_run h this e domain p claimed s Hp Ha Hs Hts), Hsvc.
    reflexivity.
  - rewrite (verifySync_run h this e blockNumber domain p claimed s Hp Ha Hs Hts),
      Hsvc.
    reflexivity.
Qed.

Lemma verify_service_failure_witness :
  Message.verify (VObj 0%nat) (Some rejecting) VUndef signed_envelope
  = (Throw VerificationFailed, signed_envelope) /\
  Message.verifySync (VObj 0%nat) (Some rejecting) (VNum 7) VUndef
    signed_envelope = (Throw VerificationFailed, signed_envelope).
Proof.
  pose proof (verify_service_failure signed_envelope (VObj 0%nat) rejecting
                (VNum 7) VUndef (VObj 2%nat) VUndef (VStr sig40)
                eq_refl eq_refl eq_refl eq_refl) as [Hv Hs].
  split; [apply Hv | apply Hs]; reflexivity.
Defined.

Lemma reconcile_no_authorship h this claimed p :
  read h this Message._params_ = Ok p ->
  Message.reconcile this claimed NoAuthorship h = (Throw TypeError, h).
Proof.
  intros Hp. unfold Message.reconcile.
  destruct (truthy claimed).
  - cbn [Message.authorship_alias]. rewrite !bind_assoc, bind_throw.
    reflexivity.
  - rewrite bind_ret. rewrite !bind_assoc.
    rewrite (bind_get _ _ _ _ _ Hp).
    cbn [Message.authorship_alias]. rewrite !bind_assoc, bind_throw.
    reflexivity.
Qed.

(** When the service answers [undefined] (or [null]) instead of an
    authorship, reading [authorship.alias] throws outside the [try] block:
    the caller gets a [TypeError], not [VerificationFailed], whether or not
    an alias is claimed; the store is left as it was. *)
Theorem verify_undefined_answer h this e blockNumber domain p claimed s :
  read h this Message._params_ = Ok p ->
  read h p Message.alias = Ok claimed ->
  read h p Message.sig = Ok s -> truthy s = true ->
  (verifyData e h this (default_domain domain) = Resolves NoAuthorship ->
   Message.verify this (Some e) domain h = (Throw TypeError, h)) /\
  (verifyDataSync e h this blockNumber (default_domain domain)
   = Resolves NoAuthorship ->
   Message.verifySync this (Some e) blockNumber domain h
   = (Throw TypeError, h)).
Proof.
  intros Hp Ha Hs Hts. split; intros Hsvc.
  - rewrite (verify_run h this e domain p claimed s Hp Ha Hs Hts), Hsvc.
    now apply (reconcile_no_authorship h this claimed p).
  - rewrite (verifySync_run h this e blockNumber domain p claimed s Hp Ha Hs Hts),
      Hsvc.
    now apply (reconcile_no_authorship h this claimed p).
Qed.

Lemma verify_undefined_answer_witness :
  Message.verify (VObj 0%nat) (Some answering_undefined) VUndef bob_envelope
  = (Throw TypeError, bob_envelope) /\
  Message.verifySync (VObj 0%nat) (Some answering_undefined) (VNum 7) VUndef
    signed_envelope = (Throw TypeError, signed_envelope).
Proof.
  pose proof (verify_undefined_answer bob_envelope (VObj 0%nat)
                answering_undefined (VNum 7) VUndef (VObj 2%nat)
                (VStr (str "bob")) (VStr sig40)
                eq_refl eq_refl eq_refl eq_refl) as [Hv _].
  pose proof (verify_undefined_answer signed_envelope (VObj 0%nat)
                answering_undefined (VNum 7) VUndef (VObj 2%nat)
                VUndef (VStr sig40)
                eq_refl eq_refl eq_refl eq_refl) as [_ Hs].
  split; [apply Hv | apply Hs]; reflexivity.
Defined.

Lemma strict_eq_refl v : strict_eq v v = true.
Proof. now apply strict_eq_eq. Qed.

(** The end of [verify] when the resolved alias is accepted: no alias was
    claimed, or the claimed alias is the resolved one. *)
Lemma reconcile_accepts h this claimed resolved t l ot ol :
  truthy claimed = false \/ claimed = resolved ->
  this = VObj t -> h !! t = Some ot -> obj_get ot Message._params_ = VObj l ->
  h !! l = Some ol ->
  exists h',
    Message.reconcile this claimed (Authorship resolved) h = (Ok this, h') /\
    read h' (VObj l) Message.alias = Ok resolved /\
    read h' this Message.verified = Ok (VBool true) /\
    read h' this Message._params_ = Ok (VObj l) /\
    read h' (VObj l) Message.sig = Ok (obj_get ol Message.sig) /\
    read h' this Message._signed_ = Ok (obj_get ot Message._signed_).
Proof.
  intros Hacc -> Ht Hp Hl.
  pose proof (lookup_lt_Some _ _ _ Ht) as Ltt.
  pose proof (lookup_lt_Some _ _ _ Hl) as Ltl.
  set (h1 := <[l := obj_set ol Message.alias resolved]> h).
  assert (Hlen1 : length h1 = length h) by apply length_insert.
  destruct (h1 !! t) as [ot'|] eqn:Ht'.
  2:{ apply lookup_ge_None in Ht'. lia. }
  exists (<[t := obj_set ot' Message.verified (VBool true)]> h1).
  split.
  { destruct Hacc as [Hf| ->].
    - exact (reconcile_run _ _ _ _ _ _ _ _ Hf Ht Hp Hl Ht').
    - destruct (truthy resolved) eqn:Htr.
      + unfold Message.reconcile. rewrite Htr.
        cbn [Message.authorship_alias].
        rewrite bind_assoc, bind_ret, bind_ret, strict_eq_refl. cbn [negb].
        rewrite bind_assoc.
        rewrite (bind_get _ _ _ _ _
                   (eq_trans (read_obj _ _ _ _ Ht) (f_equal Ok Hp))).
        rewrite bind_assoc, bind_ret.
        rewrite (bind_set_obj _ _ _ _ _ _ Hl).
        fold h1. rewrite (bind_set_obj _ _ _ _ _ _ Ht').
        reflexivity.
      + exact (reconcile_run _ _ _ _ _ _ _ _ Htr Ht Hp Hl Ht'). }
  assert (Hot' : obj_get ot' Message._params_ = VObj l
                 /\ obj_get ot' Message._signed_ = obj_get ot Message._signed_
                 /\ (t = l -> obj_get ot' Message.alias = resolved
                              /\ obj_get ot' Message.sig = obj_get ol Message.sig)).
  { unfold h1 in Ht'. destruct (Nat.eq_dec l t) as [->|Hlt].
    - rewrite list_lookup_insert_eq in Ht' by exact Ltt.
      injection Ht' as <-. rewrite Ht in Hl. injection Hl as <-.
      split; [|split].
      + rewrite obj_set_get_ne by discriminate. exact Hp.
      + now rewrite obj_set_get_ne by discriminate.
      + intros _. split.
        * apply obj_set_get_eq, alias_not_proto.
        * now rewrite obj_set_get_ne by discriminate.
    - rewrite list_lookup_insert_ne in Ht' by exact Hlt.
      rewrite Ht in Ht'. injection Ht' as <-. split; [exact Hp|].
      split; [reflexivity|]. intros ->. contradiction. }
  destruct Hot' as (Hp' & Hs' & Ha').
  repeat split.
  - rewrite read_insert by lia.
    destruct (Nat.eqb t l) eqn:E.
    + apply Nat.eqb_eq in E. rewrite obj_set_get_ne by discriminate.
      f_equal. now apply Ha'.
    + unfold h1. rewrite read_insert by lia. rewrite Nat.eqb_refl.
      f_equal. apply obj_set_get_eq, alias_not_proto.
  - rewrite read_insert by lia. rewrite Nat.eqb_refl.
    f_equal. apply obj_set_get_eq, verified_not_proto.
  - rewrite read_insert by lia. rewrite Nat.eqb_refl.
    f_equal. rewrite obj_set_get_ne by discriminate. exact Hp'.
  - rewrite read_insert by lia.
    destruct (Nat.eqb t l) eqn:E.
    + apply Nat.eqb_eq in E. rewrite obj_set_get_ne by discriminate.
      f_equal. now apply Ha'.
    + unfold h1. rewrite read_insert by lia. rewrite Nat.eqb_refl.
      f_equal. now rewrite obj_set_get_ne by discriminate.
  - rewrite read_insert by lia. rewrite Nat.eqb_refl.
    f_equal. rewrite obj_set_get_ne by discriminate. exact Hs'.
Qed.

(** When the service resolves the very alias the envelope claims,
    [verify] and [verifySync] succeed: they return the envelope itself with
    [verified] set, and the claimed alias, the signature and the signed
    bucket are the ones it had. *)
Theorem verify_confirms_claimed_alias h this e blockNumber domain p claimed s :
  read h this Message._params_ = Ok p ->
  read h p Message.alias = Ok claimed -> truthy claimed = true ->
  read h p Message.sig = Ok s -> truthy s = true ->
  (verifyData e h this (default_domain domain) = Resolves (Authorship claimed) ->
   exists h',
     Message.verify this (Some e) domain h = (Ok this, h') /\
     read h' this Message.verified = Ok (VBool true) /\
     read h' this Message._params_ = Ok p /\
     read h' p Message.alias = Ok claimed /\
     read h' p Message.sig = Ok s /\
     read h' this Message._signed_ = read h this Message._signed_) /\
  (verifyDataSync e h this blockNumber (default_domain domain)
   = Resolves (Authorship claimed) ->
   exists h',
     Message.verifySync this (Some e) blockNumber domain h = (Ok this, h') /\
     read h' this Message.verified = Ok (VBool true) /\
     read h' this Message._params_ = Ok p /\
     read h' p Message.alias = Ok claimed /\
     read h' p Message.sig = Ok s /\
     read h' this Message._signed_ = read h this Message._signed_).
Proof.
  intros Hp Ha Hta Hs Hts.
  destruct (read_truthy_object h p Message.sig s eq_refl (fun _ => eq_refl) Hs Hts)
    as (l & ol & -> & Hl & Hsig).
  destruct (read_truthy_object h this Message._params_ (VObj l) eq_refl
              (fun _ => eq_refl) Hp eq_refl) as (t & ot & Hthis & Ht & Hpo).
  destruct (reconcile_accepts h this claimed claimed t l ot ol
              (or_intror eq_refl) Hthis Ht Hpo Hl)
    as (h' & Hrun & R1 & R2 & R3 & R4 & R5).
  assert (Hsd : read h this Message._signed_ = Ok (obj_get ot Message._signed_))
    by (rewrite Hthis; now apply read_obj).
  rewrite Hsig in R4. rewrite <- Hsd in R5.
  split; intros Hsvc; exists h'.
  - rewrite (verify_run h this e domain (VObj l) claimed s Hp Ha Hs Hts), Hsvc.
    auto 10.
  - rewrite (verifySync_run h this e blockNumber domain (VObj l) claimed s
               Hp Ha Hs Hts), Hsvc.
    auto 10.
Qed.

Lemma verify_confirms_claimed_alias_witness :
  (exists h',
     Message.verify (VObj 0%nat) (Some (resolving (VStr (str "bob")))) VUndef
       bob_envelope = (Ok (VObj 0%nat), h') /\
     read h' (VObj 0%nat) Message.verified = Ok (VBool true) /\
     read h' (VObj 2%nat) Message.alias = Ok (VStr (str "bob")) /\
     read h' (VObj 2%nat) Message.sig = Ok (VStr sig40)) /\
  (exists h',
     Message.verifySync (VObj 0%nat) (Some (resolving (VStr (str "bob"))))
       (VNum 7) VUndef bob_envelope = (Ok (VObj 0%nat), h') /\
     read h' (VObj 0%nat) Message.verified = Ok (VBool true)).
Proof.
  destruct (verify_confirms_claimed_alias bob_envelope (VObj 0%nat)
              (resolving (VStr (str "bob"))) (VNum 7) VUndef (VObj 2%nat)
              (VStr (str "bob")) (VStr sig40)
              eq_refl eq_refl eq_refl eq_refl eq_refl) as [Hv Hs].
  split.
  - destruct (Hv eq_refl) as (h' & H1 & H2 & _ & H4 & H5 & _).
    exists h'. auto.
  - destruct (Hs eq_refl) as (h' & H1 & H2 & _).
    exists h'. auto.
Defined.

(** ** Mutation: what is written and what is kept *)

Lemma sig_not_proto : Message.sig <> proto_name.
Proof. discriminate. Qed.

Lemma obj_define_idem (o : list (jsstring * value)) k x :
  obj_define (obj_define o k x) k x = obj_define o k x.
Proof.
  induction o as [|[k' v] o IH]; simpl.
  - now rewrite jsstring_eqb_refl.
  - destruct (jsstring_eqb k' k) eqn:E; simpl; rewrite E; [reflexivity|].
    now rewrite IH.
Qed.

Lemma obj_set_define (o : list (jsstring * value)) k x :
  k <> proto_name -> obj_set o k x = obj_define o k x.
Proof.
  intros Hk. unfold obj_set.
  apply jsstring_eqb_neq in Hk. now rewrite Hk.
Qed.

Lemma clearSig_run (h : heap) t l ot op :
  h !! t = Some ot -> obj_get ot Message._params_ = VObj l ->
  h !! l = Some op -> t <> l ->
  Message.clearSig (VObj t) h
  = (Ok tt,
     <[t := obj_set ot Message.verified (VBool false)]>
       (<[l := obj_set op Message.sig VUndef]> h)).
Proof.
  intros Ht Hp Hl Htl. unfold Message.clearSig.
  rewrite (bind_get _ _ _ _ _ (eq_trans (read_obj _ _ _ _ Ht) (f_equal Ok Hp))).
  rewrite (bind_set_obj _ _ _ _ _ _ Hl).
  unfold set. rewrite list_lookup_insert_ne by congruence. rewrite Ht.
  reflexivity.
Qed.

(** [clearSig] removes the signature and resets [verified], and nothing
    else: every other param (the claimed alias among them) and every
    other object keep their values.  The name [sig] stays among the keys of
    the params bucket, with the value [undefined]. *)
Theorem clearSig_clears_only_signature (h : heap) t l ot op :
  h !! t = Some ot -> obj_get ot Message._params_ = VObj l ->
  h !! l = Some op -> t <> l ->
  exists h',
    Message.clearSig (VObj t) h = (Ok tt, h') /\
    signature_of h' (VObj t) = Ok VUndef /\
    read h' (VObj t) Message.verified = Ok (VBool false) /\
    (forall k, k <> Message.sig ->
       read h' (VObj l) k = read h (VObj l) k) /\
    (forall k, k <> Message.verified ->
       read h' (VObj t) k = read h (VObj t) k) /\
    (forall l', l' <> t -> l' <> l -> h' !! l' = h !! l') /\
    (exists ks, fst (Object_keys (VObj l) h') = Ok ks /\ In Message.sig ks).
Proof.
  intros Ht Hp Hl Htl.
  pose proof (lookup_lt_Some _ _ _ Ht) as Lt.
  pose proof (lookup_lt_Some _ _ _ Hl) as Ll.
  assert (Ntl : Nat.eqb t l = false) by (apply Nat.eqb_neq; congruence).
  eexists. split; [now apply (clearSig_run h t l ot op)|].
  assert (Rp : forall k, k <> Message.verified ->
            read (<[t := obj_set ot Message.verified (VBool false)]>
                    (<[l := obj_set op Message.sig VUndef]> h)) (VObj t) k
            = read h (VObj t) k).
  { intros k Hk.
    rewrite read_insert by (rewrite length_insert; lia). rewrite Nat.eqb_refl.
    rewrite (read_obj _ _ _ _ Ht). f_equal.
    apply obj_set_get_ne. congruence. }
  split; [|split; [|split; [|split; [exact Rp|split]]]].
  - apply (signature_of_reads _ _ (VObj l)).
    + rewrite Rp by discriminate. rewrite (read_obj _ _ _ _ Ht). now f_equal.
    + rewrite read_insert by (rewrite length_insert; lia). rewrite Ntl.
      rewrite read_insert by lia. rewrite Nat.eqb_refl.
      f_equal. apply obj_set_get_eq, sig_not_proto.
  - rewrite read_insert by (rewrite length_insert; lia). rewrite Nat.eqb_refl.
    f_equal. apply obj_set_get_eq, verified_not_proto.
  - intros k Hk.
    rewrite read_insert by (rewrite length_insert; lia). rewrite Ntl.
    rewrite read_insert by lia. rewrite Nat.eqb_refl.
    rewrite (read_obj _ _ _ _ Hl). f_equal.
    apply obj_set_get_ne. congruence.
  - intros l' H1 H2. now rewrite !list_lookup_insert_ne by congruence.
  - exists (own_keys (obj_set op Message.sig VUndef)). split.
    + unfold Object_keys.
      rewrite list_lookup_insert_ne by congruence.
      rewrite list_lookup_insert_eq by lia. reflexivity.
    + apply own_keys_in.
      rewrite (obj_set_define _ _ _ sig_not_proto).
      clear. induction op as [|[k' v] o IH]; simpl; [now left|].
      destruct (jsstring_eqb k' Message.sig) eqn:E; simpl.
      * left. now apply jsstring_eqb_eq.
      * right. exact IH.
Qed.

Lemma clearSig_clears_only_signature_witness :
  exists h',
    Message.clearSig (VObj 0%nat) verified_envelope = (Ok tt, h') /\
    signature_of h' (VObj 0%nat) = Ok VUndef /\
    read h' (VObj 0%nat) Message.verified = Ok (VBool false) /\
    read h' (VObj 2%nat) Message.alias = Ok (VStr (str "616c696365")) /\
    (exists ks, fst (Object_keys (VObj 2%nat) h') = Ok ks /\ In Message.sig ks).
Proof.
  destruct (clearSig_clears_only_signature verified_envelope 0%nat 2%nat
              [(Message._signed_, VObj 1%nat); (Message._params_, VObj 2%nat);
               (Message.verified, VBool true)]
              [(Message.sig, VStr sig40);
               (Message.alias, VStr (str "616c696365"))]
              eq_refl eq_refl eq_refl)
    as (h' & Hrun & Hsig & Hver & Hkeep & _ & _ & Hkeys); [discriminate|].
  exists h'. split; [exact Hrun|]. split; [exact Hsig|]. split; [exact Hver|].
  split; [|exact Hkeys].
  rewrite Hkeep by discriminate. reflexivity.
Defined.

(** [clearSig] is idempotent: a second call changes nothing. *)
Theorem clearSig_idempotent (h : heap) t l ot op :
  h !! t = Some ot -> obj_get ot Message._params_ = VObj l ->
  h !! l = Some op -> t <> l ->
  (Message.clearSig (VObj t) ;;; Message.clearSig (VObj t)) h
  = Message.clearSig (VObj t) h.
Proof.
  intros Ht Hp Hl Htl.
  pose proof (lookup_lt_Some _ _ _ Ht) as Lt.
  pose proof (lookup_lt_Some _ _ _ Hl) as Ll.
  unfold bind at 1.
  rewrite (clearSig_run h t l ot op Ht Hp Hl Htl).
  rewrite (clearSig_run _ t l (obj_set ot Message.verified (VBool false))
             (obj_set op Message.sig VUndef)).
  - rewrite (list_insert_insert_ne _ l t) by congruence.
    rewrite !list_insert_insert_eq.
    rewrite !(obj_set_define _ _ _ sig_not_proto).
    rewrite !(obj_set_define _ _ _ verified_not_proto).
    now rewrite !obj_define_idem.
  - apply list_lookup_insert_eq. now rewrite length_insert.
  - rewrite obj_set_get_ne by discriminate. exact Hp.
  - rewrite list_lookup_insert_ne by congruence.
    now apply list_lookup_insert_eq.
  - exact Htl.
Qed.

Lemma clearSig_idempotent_witness :
  (Message.clearSig (VObj 0%nat) ;;; Message.clearSig (VObj 0%nat))
    verified_envelope
  = Message.clearSig (VObj 0%nat) verified_envelope.
Proof.
  apply (clearSig_idempotent verified_envelope 0%nat 2%nat
           [(Message._signed_, VObj 1%nat); (Message._params_, VObj 2%nat);
            (Message.verified, VBool true)]
           [(Message.sig, VStr sig40);
            (Message.alias, VStr (str "616c696365"))]);
    try reflexivity.
  discriminate.
Defined.

(** *** The signature setter *)

Lemma hex_prefix_test s :
  jsstring_eqb (substring0 s 2) (str "0x") = starts_with (str "0x") s.
Proof.
  unfold substring0. change (Z.to_nat 2) with 2%nat.
  destruct s as [|a [|b s]]; cbn.
  - reflexivity.
  - rewrite N.eqb_sym. now rewrite !andb_false_r.
  - rewrite (N.eqb_sym a), (N.eqb_sym b).
    destruct s; cbn; now rewrite ?andb_true_r.
Qed.

(** The signature setter stores a string without one leading ["0x"]
    (a second one stays) and any other string as it is, resets [verified]
    and keeps every other param; given anything but a string it throws a
    [TypeError] and writes nothing. *)
Theorem set_signature_effect (h : heap) t l ot op :
  h !! t = Some ot -> obj_get ot Message._params_ = VObj l ->
  h !! l = Some op -> t <> l ->
  (forall s, exists h',
     Message.set_signature (VObj t) (VStr s) h = (Ok tt, h') /\
     signature_of h' (VObj t)
     = Ok (VStr (if starts_with (str "0x") s then drop 2 s else s)) /\
     read h' (VObj t) Message.verified = Ok (VBool false) /\
     (forall k, k <> Message.sig ->
        read h' (VObj l) k = read h (VObj l) k)) /\
  (forall v, typeof v <> TString ->
     Message.set_signature (VObj t) v h = (Throw TypeError, h)).
Proof.
  intros Ht Hp Hl Htl.
  pose proof (lookup_lt_Some _ _ _ Ht) as Lt.
  pose proof (lookup_lt_Some _ _ _ Hl) as Ll.
  assert (Ntl : Nat.eqb t l = false) by (apply Nat.eqb_neq; congruence).
  split.
  - intros s.
    exists (<[t := obj_set ot Message.verified (VBool false)]>
              (<[l := obj_set op Message.sig
                        (VStr (if starts_with (str "0x") s then drop 2 s else s))]>
                 h)).
    split; [|split; [|split]].
    + unfold Message.set_signature.
      rewrite (bind_get _ _ _ _ _
                 (eq_trans (read_obj _ _ _ _ Ht) (f_equal Ok Hp))).
      rewrite bind_ret. rewrite hex_prefix_test.
      unfold slice. change (Z.to_nat 2) with 2%nat.
      rewrite (bind_set_obj _ _ _ _ _ _ Hl).
      unfold set. rewrite list_lookup_insert_ne by congruence. rewrite Ht.
      reflexivity.
    + apply (signature_of_reads _ _ (VObj l)).
      * rewrite read_insert by (rewrite length_insert; lia).
        rewrite Nat.eqb_refl.
        rewrite obj_set_get_ne by discriminate. now f_equal.
      * rewrite read_insert by (rewrite length_insert; lia). rewrite Ntl.
        rewrite read_insert by lia. rewrite Nat.eqb_refl.
        f_equal. apply obj_set_get_eq, sig_not_proto.
    + rewrite read_insert by (rewrite length_insert; lia). rewrite Nat.eqb_refl.
      f_equal. apply obj_set_get_eq, verified_not_proto.
    + intros k Hk.
      rewrite read_insert by (rewrite length_insert; lia). rewrite Ntl.
      rewrite read_insert by lia. rewrite Nat.eqb_refl.
      rewrite (read_obj _ _ _ _ Hl). f_equal.
      apply obj_set_get_ne. congruence.
  - intros v Hv. unfold Message.set_signature.
    rewrite (bind_get _ _ _ _ _ (eq_trans (read_obj _ _ _ _ Ht) (f_equal Ok Hp))).
    destruct v; try (now rewrite bind_throw).
    now contradiction Hv.
Qed.

Lemma set_signature_effect_witness :
  (exists h',
     Message.set_signature (VObj 0%nat) (VStr (str "0x0xab")) bob_envelope
     = (Ok tt, h') /\
     signature_of h' (VObj 0%nat) = Ok (VStr (str "0xab")) /\
     read h' (VObj 2%nat) Message.alias = Ok (VStr (str "bob"))) /\
  (exists h',
     Message.set_signature (VObj 0%nat) (VStr (str "f00d")) bob_envelope
     = (Ok tt, h') /\
     signature_of h' (VObj 0%nat) = Ok (VStr (str "f00d"))) /\
  Message.set_signature (VObj 0%nat) (VNum 5) bob_envelope
  = (Throw TypeError, bob_envelope).
Proof.
  destruct (set_signature_effect bob_envelope 0%nat 2%nat
              [(Message._signed_, VObj 1%nat); (Message._params_, VObj 2%nat);
               (Message.verified, VBool false)]
              [(Message.alias, VStr (str "bob")); (Message.sig, VStr sig40)]
              eq_refl eq_refl eq_refl) as [Hstr Hother]; [discriminate|].
  split; [|split].
  - destruct (Hstr (str "0x0xab")) as (h' & Hrun & Hsig & _ & Hkeep).
    exists h'. split; [exact Hrun|]. split; [exact Hsig|].
    rewrite Hkeep by discriminate. reflexivity.
  - destruct (Hstr (str "f00d")) as (h' & Hrun & Hsig & _).
    exists h'. split; [exact Hrun|exact Hsig].
  - apply Hother. discriminate.
Defined.

(** *** [addSigned] and [addParams] *)

Lemma merge_loop f ks : forall (h : heap) t b ol ot oo ob,
  h !! t = Some ot -> obj_get ot f = VObj b ->
  h !! ol = Some oo -> h !! b = Some ob -> t <> b -> ol <> b ->
  for_of ks (fun key =>
    let* s := get (VObj t) f in
    let* x := get (VObj ol) key in
    set s key x) h
  = (Ok tt, <[b := merged oo ob ks]> h).
Proof.
  induction ks as [|k ks IH]; intros h t b ol ot oo ob Ht Hs Hol Hb Htb Hob.
  - simpl. rewrite list_insert_id by exact Hb. reflexivity.
  - rewrite for_of_cons.
    rewrite bind_assoc.
    rewrite (bind_get _ _ _ _ _ (eq_trans (read_obj _ _ _ _ Ht) (f_equal Ok Hs))).
    rewrite bind_assoc.
    rewrite (bind_get _ _ _ _ _ (read_obj _ _ _ k Hol)).
    rewrite (bind_set_obj _ _ _ _ _ _ Hb).
    pose proof (lookup_lt_Some _ _ _ Hb) as Lb.
    rewrite (IH _ t b ol ot oo (obj_set ob k (obj_get oo k))).
    + rewrite list_insert_insert_eq. reflexivity.
    + rewrite list_lookup_insert_ne by congruence. exact Ht.
    + exact Hs.
    + rewrite list_lookup_insert_ne by congruence. exact Hol.
    + now rewrite list_lookup_insert_eq.
    + exact Htb.
    + exact Hob.
Qed.

Lemma merged_other oo ks k : forall os,
  ~ In k ks -> obj_get (merged oo os ks) k = obj_get os k.
Proof.
  induction ks as [|k' ks IH]; intros os Hin; simpl; [reflexivity|].
  rewrite IH by (intros H; apply Hin; now right).
  apply obj_set_get_ne. intros ->. apply Hin. now left.
Qed.

Lemma includes_false ks k : includes ks k = false -> ~ In k ks.
Proof.
  unfold includes. intros H Hin.
  assert (existsb (jsstring_eqb k) ks = true)
    by (apply existsb_exists; exists k; split;
        [exact Hin|apply jsstring_eqb_refl]).
  congruence.
Qed.

(** [addParams] with an object that names neither [alias] nor [sig] merges
    its values into the params bucket as they are, a given name replacing
    the param of that name and every other param staying; the signature and
    [verified] are kept, so a verified envelope stays verified.  The
    argument is one that leaves the prototype of the bucket alone: it has no
    own [__proto__] holding an object or [null] (or the bucket has an own
    property of that name). *)
Theorem addParams_merges_other_params (h : heap) t l ol ot op oo :
  h !! t = Some ot -> obj_get ot Message._params_ = VObj l ->
  h !! l = Some op -> h !! ol = Some oo ->
  t <> l -> ol <> l ->
  includes (own_keys oo) Message.alias || includes (own_keys oo) Message.sig
  = false ->
  replaces_prototype op proto_name (obj_get oo proto_name) = false ->
  exists h',
    Message.addParams (VObj t) (VObj ol) h = (Ok tt, h') /\
    (forall k, In k (own_keys oo) -> k <> proto_name ->
       read h' (VObj l) k = Ok (obj_get oo k)) /\
    (forall k, ~ In k (own_keys oo) ->
       read h' (VObj l) k = Ok (obj_get op k)) /\
    signature_of h' (VObj t) = signature_of h (VObj t) /\
    read h' (VObj t) Message.verified = read h (VObj t) Message.verified.
Proof.
  intros Ht Hp Hl Hol Htl Holl Hinc _.
  pose proof (lookup_lt_Some _ _ _ Hl) as Ll.
  apply orb_false_elim in Hinc as [Hia His].
  exists (<[l := merged oo op (own_keys oo)]> h).
  assert (Rl : forall k, read (<[l := merged oo op (own_keys oo)]> h) (VObj l) k
                         = Ok (obj_get (merged oo op (own_keys oo)) k)).
  { intros k. rewrite read_insert by lia. now rewrite Nat.eqb_refl. }
  assert (Rt : forall k, read (<[l := merged oo op (own_keys oo)]> h) (VObj t) k
                         = read h (VObj t) k).
  { intros k. rewrite read_insert by lia.
    replace (Nat.eqb l t) with false
      by (symmetry; apply Nat.eqb_neq; congruence).
    reflexivity. }
  split; [|split; [|split; [|split]]].
  - unfold Message.addParams.
    rewrite (bind_keys _ _ _ (own_keys oo))
      by (unfold Object_keys; rewrite Hol; reflexivity).
    rewrite Hia, His. cbn [orb]. rewrite bind_ret.
    now apply (merge_loop Message._params_ (own_keys oo) h t l ol ot oo op).
  - intros k Hin Hk. rewrite Rl. f_equal. now apply merged_get.
  - intros k Hin. rewrite Rl. f_equal. now apply merged_other.
  - unfold signature_of.
    assert (Hsig : forall h0 x, read h0 (VObj t) Message._params_ = Ok (VObj l) ->
              read h0 (VObj l) Message.sig = Ok x ->
              fst (Message.signature (VObj t) h0) = Ok x).
    { intros h0 x H1 H2. exact (signature_of_reads _ _ _ _ H1 H2). }
    rewrite (Hsig _ (obj_get op Message.sig)).
    + symmetry. apply Hsig.
      * rewrite (read_obj _ _ _ _ Ht). now f_equal.
      * now apply read_obj.
    + rewrite Rt, (read_obj _ _ _ _ Ht). now f_equal.
    + rewrite Rl. f_equal. apply merged_other. now apply includes_false.
  - apply Rt.
Qed.

Lemma addParams_merges_other_params_witness :
  exists h',
    Message.addParams (VObj 0%nat) (VObj 5%nat) verified_envelope = (Ok tt, h') /\
    read h' (VObj 2%nat) (str "n") = Ok (VNum 5) /\
    read h' (VObj 2%nat) Message.alias = Ok (VStr (str "616c696365")) /\
    signature_of h' (VObj 0%nat) = Ok (VStr sig40) /\
    read h' (VObj 0%nat) Message.verified = Ok (VBool true).
Proof.
  destruct (addParams_merges_other_params verified_envelope 0%nat 2%nat 5%nat
              [(Message._signed_, VObj 1%nat); (Message._params_, VObj 2%nat);
               (Message.verified, VBool true)]
              [(Message.sig, VStr sig40);
               (Message.alias, VStr (str "616c696365"))]
              [(str "n", VNum 5)]
              eq_refl eq_refl eq_refl eq_refl)
    as (h' & Hrun & Hnew & Hold & Hsig & Hver);
    [discriminate|discriminate|reflexivity|reflexivity|].
  exists h'. split; [exact Hrun|].
  split; [apply (Hnew (str "n")); [now left|discriminate]|].
  split; [|split; [rewrite Hsig; reflexivity|rewrite Hver; reflexivity]].
  rewrite (Hold Message.alias); [reflexivity|].
  intros [H|[]]. discriminate.
Defined.

(** [addSigned] and [addParams] given nothing to add (an object without
    own properties, a number, a boolean, an empty string) change nothing:
    the signature and [verified] stay. *)
Theorem adders_given_nothing h this obj :
  fst (Object_keys obj h) = Ok [] ->
  Message.addSigned this obj h = (Ok tt, h) /\
  Message.addParams this obj h = (Ok tt, h).
Proof.
  intros Hk. split.
  - unfold Message.addSigned. now rewrite (bind_keys _ _ _ [] Hk).
  - unfold Message.addParams. now rewrite (bind_keys _ _ _ [] Hk).
Qed.

Lemma adders_given_nothing_witness :
  Message.addSigned (VObj 0%nat) (VObj 4%nat) (signed_envelope ++ [[]])
  = (Ok tt, signed_envelope ++ [[]]) /\
  Message.addParams (VObj 0%nat) (VNum 5) signed_envelope
  = (Ok tt, signed_envelope).
Proof.
  split.
  - apply (adders_given_nothing (signed_envelope ++ [[]]) (VObj 0%nat)
             (VObj 4%nat)). reflexivity.
  - apply (adders_given_nothing signed_envelope (VObj 0%nat) (VNum 5)).
    reflexivity.
Defined.





(** ** Construction from an object *)

Lemma read_app_l (h t : heap) l o k :
  h !! l = Some o -> read (h ++ t) (VObj l) k = Ok (obj_get o k).
Proof. intros H. apply read_obj. now apply lookup_app_l_Some. Qed.

Lemma serialize_of_primitive fuel (h : heap) stack v :
  primitive v -> serialize fuel h stack v = Ok (json_of_primitive v).
Proof. destruct v, fuel; simpl; intros H; try destruct H; reflexivity. Qed.

Lemma stored_text_primitive v : primitive (stored_text v).
Proof. destruct v as [| |[]| | |]; exact I. Qed.

Lemma stored_text_idem v : stored_text (stored_text v) = stored_text v.
Proof. destruct v as [| |[]| | |]; reflexivity. Qed.

Lemma stored_text_string v :
  jstype_eqb (typeof v) TString = true -> stored_text v = v.
Proof. destruct v; try discriminate. reflexivity. Qed.

Lemma flat_obj_define (o : list (jsstring * value)) k x :
  flat o -> primitive x -> flat (obj_define o k x).
Proof.
  intros Ho Hx. induction Ho as [|[k' v] o Hv Ho IH]; simpl.
  - repeat constructor. exact Hx.
  - destruct (jsstring_eqb k' k); constructor; assumption.
Qed.

Lemma flat_obj_set (o : list (jsstring * value)) k x :
  flat o -> primitive x -> flat (obj_set o k x).
Proof.
  intros Ho Hx. unfold obj_set.
  destruct (_ && _); [exact Ho|now apply flat_obj_define].
Qed.

Lemma has_own_false_get (o : list (jsstring * value)) k :
  has_own o k = false -> obj_get o k = VUndef.
Proof.
  induction o as [|[k' v] o IH]; simpl; [reflexivity|].
  destruct (jsstring_eqb k' k); simpl; [discriminate|exact IH].
Qed.

Lemma has_own_in (o : list (jsstring * value)) k :
  has_own o k = true <-> In k (map fst o).
Proof.
  induction o as [|[k' v] o IH]; simpl; [split; [discriminate|tauto]|].
  rewrite orb_true_iff, IH. split.
  - intros [H|H]; [left; now apply jsstring_eqb_eq|now right].
  - intros [H|H]; [left; now apply jsstring_eqb_eq|now right].
Qed.

Lemma obj_define_keys (o : list (jsstring * value)) k x :
  In k (map fst o) -> map fst (obj_define o k x) = map fst o.
Proof.
  induction o as [|[k' v] o IH]; simpl; [tauto|].
  intros Hin. destruct (jsstring_eqb k' k) eqn:E; simpl; [reflexivity|].
  f_equal. apply IH. destruct Hin as [->|Hin]; [|exact Hin].
  now rewrite jsstring_eqb_refl in E.
Qed.

Lemma jsstring_eqb_sym a b : jsstring_eqb a b = jsstring_eqb b a.
Proof.
  revert b. induction a as [|x a IH]; intros [|y b]; simpl; try reflexivity.
  now rewrite N.eqb_sym, IH.
Qed.

(** One step of the conversion loop. *)
Lemma stringified_cons o k ks :
  stringified o (k :: ks)
  = stringified (if jstype_eqb (typeof (obj_get o k)) TString then o
                 else obj_set o k (stored_text (obj_get o k))) ks.
Proof. reflexivity. Qed.

Lemma stringify_step_get o k k' :
  obj_get (if jstype_eqb (typeof (obj_get o k)) TString then o
           else obj_set o k (stored_text (obj_get o k))) k'
  = if jsstring_eqb k k' then stored_text (obj_get o k') else obj_get o k'.
Proof.
  destruct (jsstring_eqb k k') eqn:E.
  - apply jsstring_eqb_eq in E. subst k'.
    destruct (jstype_eqb (typeof (obj_get o k)) TString) eqn:T.
    + symmetry. now apply stored_text_string.
    + unfold obj_set.
      destruct (jsstring_eqb k proto_name && negb (has_own o k)) eqn:P.
      * apply andb_true_iff in P as [_ P]. apply negb_true_iff in P.
        now rewrite (has_own_false_get _ _ P).
      * apply obj_define_get_eq.
  - apply jsstring_eqb_neq in E.
    destruct (jstype_eqb (typeof (obj_get o k)) TString); [reflexivity|].
    now apply obj_set_get_ne.
Qed.

Lemma stringify_step_keys (o : list (jsstring * value)) k :
  In k (map fst o) ->
  map fst (if jstype_eqb (typeof (obj_get o k)) TString then o
           else obj_set o k (stored_text (obj_get o k)))
  = map fst o.
Proof.
  intros Hin. destruct (jstype_eqb _ _); [reflexivity|].
  unfold obj_set. apply has_own_in in Hin as Hown. rewrite Hown.
  rewrite andb_false_r. now apply obj_define_keys.
Qed.

Lemma stringify_step_flat (o : list (jsstring * value)) k :
  flat o ->
  flat (if jstype_eqb (typeof (obj_get o k)) TString then o
        else obj_set o k (stored_text (obj_get o k))).
Proof.
  intros Ho. destruct (jstype_eqb _ _); [exact Ho|].
  apply flat_obj_set; [exact Ho|apply stored_text_primitive].
Qed.

Lemma stringified_get ks : forall o k,
  obj_get (stringified o ks) k
  = if includes ks k then stored_text (obj_get o k) else obj_get o k.
Proof.
  induction ks as [|k0 ks IH]; intros o k; [reflexivity|].
  rewrite stringified_cons, IH, stringify_step_get.
  unfold includes. cbn [existsb]. rewrite (jsstring_eqb_sym k k0).
  destruct (jsstring_eqb k0 k), (existsb (jsstring_eqb k) ks); cbn [orb];
    rewrite ?stored_text_idem; reflexivity.
Qed.

Lemma stringified_keys ks : forall o : list (jsstring * value),
  (forall k, In k ks -> In k (map fst o)) ->
  map fst (stringified o ks) = map fst o.
Proof.
  induction ks as [|k0 ks IH]; intros o Hin; [reflexivity|].
  rewrite stringified_cons, IH.
  - apply stringify_step_keys, Hin. now left.
  - intros k Hk. rewrite stringify_step_keys by (apply Hin; now left).
    apply Hin. now right.
Qed.

Lemma stringified_flat ks : forall o : list (jsstring * value),
  flat o -> flat (stringified o ks).
Proof.
  induction ks as [|k0 ks IH]; intros o Ho; [exact Ho|].
  rewrite stringified_cons. now apply IH, stringify_step_flat.
Qed.

(** The conversion loop of the constructor on a signed bucket of
    primitive values. *)
Lemma stringify_loop_flat ks : forall (h : heap) t sl ot os,
  h !! t = Some ot -> obj_get ot Message._signed_ = VObj sl ->
  h !! sl = Some os -> t <> sl -> flat os ->
  for_of ks (fun key =>
    let* s := get (VObj t) Message._signed_ in
    let* value := get s key in
    if negb (jstype_eqb (typeof value) TString) then
      let* s := get (VObj t) Message._signed_ in
      let* t := JSON_stringify value in
      set s key (text_value t)
    else ret tt) h
  = (Ok tt, <[sl := stringified os ks]> h).
Proof.
  induction ks as [|k ks IH]; intros h t sl ot os Ht Hs Hsl Hts Hf.
  - rewrite for_of_nil. cbn [stringified foldl].
    now rewrite list_insert_id by exact Hsl.
  - rewrite for_of_cons, stringified_cons.
    rewrite bind_assoc.
    rewrite (bind_get _ _ _ _ _ (eq_trans (read_obj _ _ _ _ Ht) (f_equal Ok Hs))).
    rewrite bind_assoc.
    rewrite (bind_get _ _ _ _ _ (read_obj _ _ _ k Hsl)).
    pose proof (obj_get_flat os k Hf) as Hprim.
    destruct (jstype_eqb (typeof (obj_get os k)) TString) eqn:T; cbn [negb].
    + rewrite bind_ret. now apply (IH h t sl ot os).
    + rewrite bind_assoc.
      rewrite (bind_get _ _ _ _ _
                 (eq_trans (read_obj _ _ _ _ Ht) (f_equal Ok Hs))).
      rewrite bind_assoc. unfold bind at 1, JSON_stringify.
      rewrite (serialize_of_primitive _ _ _ _ Hprim).
      replace (text_value (json_of_primitive (obj_get os k)))
        with (stored_text (obj_get os k))
        by (destruct (obj_get os k); try reflexivity; discriminate).
      rewrite (bind_set_obj _ _ _ _ _ _ Hsl).
      pose proof (lookup_lt_Some _ _ _ Hsl) as Lsl.
      rewrite (IH _ t sl ot (obj_set os k (stored_text (obj_get os k)))).
      * now rewrite list_insert_insert_eq.
      * rewrite list_lookup_insert_ne by congruence. exact Ht.
      * exact Hs.
      * now rewrite list_lookup_insert_eq.
      * exact Hts.
      * apply flat_obj_set; [exact Hf|apply stored_text_primitive].
Qed.

Lemma stringified_all_get (o : list (jsstring * value)) k :
  obj_get (stringified o (own_keys o)) k = stored_text (obj_get o k).
Proof.
  rewrite stringified_get.
  destruct (includes (own_keys o) k) eqn:E; [reflexivity|].
  apply includes_false in E.
  assert (Hn : has_own o k = false).
  { destruct (has_own o k) eqn:Hown; [|reflexivity].
    exfalso. apply E, own_keys_in. now apply has_own_in. }
  now rewrite (has_own_false_get _ _ Hn).
Qed.

Lemma stringified_all_keys (o : list (jsstring * value)) :
  own_keys (stringified o (own_keys o)) = own_keys o.
Proof.
  unfold own_keys at 1. rewrite stringified_keys; [reflexivity|].
  intros k. apply own_keys_in.
Qed.

Lemma stringified_strings (o : list (jsstring * value)) :
  all_strings o -> stringified o (own_keys o) = o.
Proof.
  intros Ho.
  assert (H : forall ks, (forall k, In k ks -> In k (own_keys o)) ->
                         stringified o ks = o).
  { induction ks as [|k ks IH]; intros Hin; [reflexivity|].
    rewrite stringified_cons.
    destruct (all_strings_get o k Ho (Hin k (or_introl eq_refl))) as [s ->].
    cbn [typeof jstype_eqb]. apply IH. intros k' Hk'. apply Hin. now right. }
  apply H. auto.
Qed.

Lemma keys_app_l (h t : heap) l o :
  h !! l = Some o -> fst (Object_keys (VObj l) (h ++ t)) = Ok (own_keys o).
Proof.
  intros H. unfold Object_keys. now rewrite (lookup_app_l_Some _ _ _ _ H).
Qed.

(** Construction from an object that has a truthy [_signed_]: the buckets
    of the new envelope are the very objects the argument refers to. *)
Lemma constructor_shared_run (h : heap) d o sl p os :
  h !! d = Some o ->
  obj_get o Message._signed_ = VObj sl ->
  obj_get o Message._params_ = p -> truthy p = true ->
  h !! sl = Some os -> flat os ->
  Message.constructor (VObj d) h
  = (Ok (VObj (length h)),
     <[sl := stringified os (own_keys os)]> h
     ++ [ [(Message._signed_, VObj sl); (Message._params_, p);
           (Message.verified, VBool false)] ]).
Proof.
  intros Hd Hs Hp Htp Hsl Hf.
  pose proof (lookup_lt_Some _ _ _ Hsl) as Lsl.
  assert (E : VObj (length h) = VObj (length h + 0)) by (f_equal; lia).
  rewrite <- (app_nil_r h) at 1.
  unfold Message.constructor.
  rewrite bind_alloc_ext. cbn [length app typeof jstype_eqb].
  rewrite !bind_assoc.
  rewrite (bind_get _ _ _ _ _ (read_app_l _ _ _ _ Message._signed_ Hd)).
  rewrite Hs. cbn [truthy]. rewrite bind_ret.
  rewrite (bind_get _ _ _ _ _ (read_app_l _ _ _ _ Message._signed_ Hd)).
  rewrite Hs. cbn [truthy]. rewrite bind_ret.
  rewrite bind_set_ext. cbn [lookup list_lookup insert list_insert].
  rewrite (bind_get _ _ _ _ _ (read_app_l _ _ _ _ Message._params_ Hd)).
  rewrite Hp, Htp. rewrite bind_ret.
  rewrite bind_set_ext. cbn [lookup list_lookup insert list_insert].
  rewrite bind_get_ext. cbn [lookup list_lookup].
  change (obj_get (obj_set (obj_set [] Message._signed_ (VObj sl))
                     Message._params_ p) Message._signed_) with (VObj sl).
  rewrite (bind_keys _ _ _ (own_keys os)) by (now apply keys_app_l).
  unfold bind at 1.
  rewrite (stringify_loop_flat (own_keys os) _ (length h + 0) sl
             (obj_set (obj_set [] Message._signed_ (VObj sl)) Message._params_ p)
             os).
  - unfold bind at 1, set.
    rewrite list_lookup_insert_ne by lia. rewrite lookup_ext.
    cbn [lookup list_lookup ret].
    rewrite insert_app_l by exact Lsl.
    replace (length h + 0)%nat
      with (length (<[sl := stringified os (own_keys os)]> h) + 0)%nat
      by (now rewrite length_insert).
    rewrite insert_ext. rewrite length_insert, <- E. reflexivity.
  - rewrite lookup_ext. reflexivity.
  - reflexivity.
  - now apply lookup_app_l_Some.
  - lia.
  - exact Hf.
Qed.

(** Construction from a plain object (no truthy [_signed_]): the object
    itself becomes the signed bucket. *)
Lemma constructor_plain_run (h : heap) d o :
  h !! d = Some o -> truthy (obj_get o Message._signed_) = false -> flat o ->
  Message.constructor (VObj d) h
  = (Ok (VObj (length h)),
     <[d := stringified o (own_keys o)]> h
     ++ [ [(Message._signed_, VObj d);
           (Message._params_, VObj (length h + 2));
           (Message.verified, VBool false)];
          [(Message._signed_, VObj d)];
          [] ]).
Proof.
  intros Hd Hs Hf.
  pose proof (lookup_lt_Some _ _ _ Hd) as Ld.
  assert (E : VObj (length h) = VObj (length h + 0)) by (f_equal; lia).
  rewrite <- (app_nil_r h) at 1.
  unfold Message.constructor.
  rewrite bind_alloc_ext. cbn [length app typeof jstype_eqb].
  rewrite !bind_assoc.
  rewrite (bind_get _ _ _ _ _ (read_app_l _ _ _ _ Message._signed_ Hd)).
  rewrite Hs. rewrite bind_alloc_ext. cbn [length app].
  rewrite bind_get_ext. cbn [lookup list_lookup].
  change (obj_get [(Message._signed_, VObj d)] Message._signed_) with (VObj d).
  cbn [truthy]. rewrite bind_ret.
  rewrite bind_set_ext. cbn [lookup list_lookup insert list_insert].
  rewrite bind_get_ext. cbn [lookup list_lookup].
  change (obj_get [(Message._signed_, VObj d)] Message._params_) with VUndef.
  cbn [truthy]. rewrite bind_alloc_ext. cbn [length app].
  rewrite bind_set_ext. cbn [lookup list_lookup insert list_insert].
  rewrite bind_get_ext. cbn [lookup list_lookup].
  change (obj_get (obj_set (obj_set [] Message._signed_ (VObj d))
                     Message._params_ (VObj (length h + 2))) Message._signed_)
    with (VObj d).
  rewrite (bind_keys _ _ _ (own_keys o)) by (now apply keys_app_l).
  unfold bind at 1.
  rewrite (stringify_loop_flat (own_keys o) _ (length h + 0) d
             (obj_set (obj_set [] Message._signed_ (VObj d))
                Message._params_ (VObj (length h + 2)))
             o).
  - unfold bind at 1, set.
    rewrite list_lookup_insert_ne by lia. rewrite lookup_ext.
    cbn [lookup list_lookup ret].
    rewrite insert_app_l by exact Ld.
    replace (length h + 0)%nat
      with (length (<[d := stringified o (own_keys o)]> h) + 0)%nat
      by (now rewrite length_insert).
    rewrite insert_ext. rewrite length_insert, <- E. reflexivity.
  - rewrite lookup_ext. reflexivity.
  - reflexivity.
  - now apply lookup_app_l_Some.
  - lia.
  - exact Hf.
Qed.

Lemma read_past (H t : heap) n m k :
  length H = n ->
  read (H ++ t) (VObj (n + m)) k
  = match t !! m with Some o => Ok (obj_get o k) | None => Stuck end.
Proof. intros <-. apply read_ext. Qed.

Lemma read_new (H t : heap) n o k :
  length H = n -> read (H ++ o :: t) (VObj n) k = Ok (obj_get o k).
Proof.
  intros <-. apply read_obj. now apply list_lookup_middle.
Qed.

(** Construction from a plain object of primitive values (its numbers
    safe integers) keeps the caller's object as the signed bucket and
    overwrites it in place: every value that is not a string is replaced by
    its JSON text ([undefined] stays), the names stay as they are, and the
    envelope starts unsigned and unverified. *)
Theorem constructor_keeps_callers_object (h : heap) d o :
  h !! d = Some o -> truthy (obj_get o Message._signed_) = false -> flat o ->
  safe_numbers o ->
  exists h',
    Message.constructor (VObj d) h = (Ok (VObj (length h)), h') /\
    read h' (VObj (length h)) Message._signed_ = Ok (VObj d) /\
    (forall k, read h' (VObj d) k = Ok (stored_text (obj_get o k))) /\
    fst (Message.keys (VObj (length h)) h') = Ok (own_keys o) /\
    read h' (VObj (length h)) Message.verified = Ok (VBool false) /\
    signature_of h' (VObj (length h)) = Ok VUndef /\
    (forall l', l' <> d -> (l' < length h)%nat -> h' !! l' = h !! l').
Proof.
  intros Hd Hs Hf _.
  pose proof (lookup_lt_Some _ _ _ Hd) as Ld.
  eexists. split; [exact (constructor_plain_run h d o Hd Hs Hf)|].
  set (H := <[d := stringified o (own_keys o)]> h).
  assert (HL : length H = length h) by apply length_insert.
  assert (Hd' : H !! d = Some (stringified o (own_keys o)))
    by (now apply list_lookup_insert_eq).
  split; [|split; [|split; [|split; [|split]]]].
  - rewrite (read_new H _ (length h) _ _ HL). reflexivity.
  - intros k. rewrite (read_app_l _ _ _ _ k Hd'). f_equal.
    apply stringified_all_get.
  - unfold Message.keys.
    rewrite (bind_get _ _ _ _ (VObj d)).
    + rewrite (keys_app_l _ _ _ _ Hd'). f_equal. apply stringified_all_keys.
    + rewrite (read_new H _ (length h) _ _ HL). reflexivity.
  - rewrite (read_new H _ (length h) _ _ HL). reflexivity.
  - apply (signature_of_reads _ _ (VObj (length h + 2))).
    + rewrite (read_new H _ (length h) _ _ HL). reflexivity.
    + rewrite (read_past H _ (length h) 2 _ HL). reflexivity.
  - intros l' Hne Hlt. rewrite lookup_app_l by (rewrite HL; exact Hlt).
    unfold H. now rewrite list_lookup_insert_ne by congruence.
Qed.

Lemma constructor_keeps_callers_object_witness :
  exists h',
    Message.constructor (VObj 0%nat)
      [[(str "n", VNum 42); (str "s", VStr (str "x"));
        (str "b", VBool true); (str "u", VUndef)]]
    = (Ok (VObj 1%nat), h') /\
    read h' (VObj 1%nat) Message._signed_ = Ok (VObj 0%nat) /\
    read h' (VObj 0%nat) (str "n") = Ok (VStr (str "42")) /\
    read h' (VObj 0%nat) (str "s") = Ok (VStr (str "x")) /\
    read h' (VObj 0%nat) (str "b") = Ok (VStr (str "true")) /\
    read h' (VObj 0%nat) (str "u") = Ok VUndef.
Proof.
  destruct (constructor_keeps_callers_object
              [[(str "n", VNum 42); (str "s", VStr (str "x"));
                (str "b", VBool true); (str "u", VUndef)]] 0%nat
              [(str "n", VNum 42); (str "s", VStr (str "x"));
               (str "b", VBool true); (str "u", VUndef)]
              eq_refl eq_refl)
    as (h' & Hrun & Hs & Hv & _).
  - repeat constructor.
  - repeat constructor.
  - exists h'. split; [exact Hrun|]. split; [exact Hs|].
    repeat split; apply Hv.
Defined.

(** Construction from an object that carries a [_signed_] and a
    [_params_] object (a payload, or another envelope) makes no copy: one
    object is created, the new envelope, and its buckets are the very
    objects of the argument, so that the two share every later write.  The
    new envelope is unverified whatever the argument says; values of the
    signed bucket that are not strings are replaced by their texts (the
    bucket holds primitive values, its numbers safe integers). *)
Theorem constructor_shares_buckets (h : heap) d o sl l os :
  h !! d = Some o ->
  obj_get o Message._signed_ = VObj sl -> obj_get o Message._params_ = VObj l ->
  h !! sl = Some os -> flat os -> safe_numbers os ->
  exists h',
    Message.constructor (VObj d) h = (Ok (VObj (length h)), h') /\
    length h' = S (length h) /\
    read h' (VObj (length h)) Message._signed_ = Ok (VObj sl) /\
    read h' (VObj (length h)) Message._params_ = Ok (VObj l) /\
    read h' (VObj (length h)) Message.verified = Ok (VBool false) /\
    (forall k, read h' (VObj sl) k = Ok (stored_text (obj_get os k))) /\
    (forall l', l' <> sl -> (l' < length h)%nat -> h' !! l' = h !! l') /\
    (all_strings os -> take (length h) h' = h).
Proof.
  intros Hd Hs Hp Hsl Hf _.
  pose proof (lookup_lt_Some _ _ _ Hsl) as Lsl.
  eexists. split; [exact (constructor_shared_run h d o sl (VObj l) os
                            Hd Hs Hp eq_refl Hsl Hf)|].
  set (H := <[sl := stringified os (own_keys os)]> h).
  assert (HL : length H = length h) by apply length_insert.
  assert (Hsl' : H !! sl = Some (stringified os (own_keys os)))
    by (now apply list_lookup_insert_eq).
  split; [|split; [|split; [|split; [|split; [|split]]]]].
  - rewrite length_app, HL. simpl. lia.
  - rewrite (read_new H _ (length h) _ _ HL). reflexivity.
  - rewrite (read_new H _ (length h) _ _ HL). reflexivity.
  - rewrite (read_new H _ (length h) _ _ HL). reflexivity.
  - intros k. rewrite (read_app_l _ _ _ _ k Hsl'). f_equal.
    apply stringified_all_get.
  - intros l' Hne Hlt. rewrite lookup_app_l by (rewrite HL; exact Hlt).
    unfold H. now rewrite list_lookup_insert_ne by congruence.
  - intros Hall. unfold H. rewrite (stringified_strings os Hall).
    rewrite list_insert_id by exact Hsl. apply take_app_length.
Qed.

Lemma constructor_shares_buckets_witness :
  exists h',
    Message.constructor (VObj 0%nat) verified_envelope = (Ok (VObj 6%nat), h') /\
    read verified_envelope (VObj 0%nat) Message.verified = Ok (VBool true) /\
    read h' (VObj 6%nat) Message.verified = Ok (VBool false) /\
    read h' (VObj 6%nat) Message._signed_ = Ok (VObj 1%nat) /\
    read h' (VObj 6%nat) Message._params_ = Ok (VObj 2%nat) /\
    take 6 h' = verified_envelope.
Proof.
  destruct (constructor_shares_buckets verified_envelope 0%nat
              [(Message._signed_, VObj 1%nat); (Message._params_, VObj 2%nat);
               (Message.verified, VBool true)]
              1%nat 2%nat [(str "name", VStr (str "hi"))]
              eq_refl eq_refl eq_refl eq_refl)
    as (h' & Hrun & _ & Hs & Hp & Hv & _ & _ & Htake).
  - repeat constructor.
  - repeat constructor.
  - exists h'. split; [exact Hrun|]. split; [reflexivity|].
    split; [exact Hv|]. split; [exact Hs|]. split; [exact Hp|].
    apply Htake. repeat constructor. now exists (str "hi").
Defined.

Lemma constructor_default_params_run (h : heap) d o sl os :
  h !! d = Some o ->
  obj_get o Message._signed_ = VObj sl ->
  truthy (obj_get o Message._params_) = false ->
  h !! sl = Some os -> flat os ->
  Message.constructor (VObj d) h
  = (Ok (VObj (length h)),
     <[sl := stringified os (own_keys os)]> h
     ++ [ [(Message._signed_, VObj sl);
           (Message._params_, VObj (length h + 1));
           (Message.verified, VBool false)];
          [] ]).
Proof.
  intros Hd Hs Hp Hsl Hf.
  pose proof (lookup_lt_Some _ _ _ Hsl) as Lsl.
  assert (E : VObj (length h) = VObj (length h + 0)) by (f_equal; lia).
  rewrite <- (app_nil_r h) at 1.
  unfold Message.constructor.
  rewrite bind_alloc_ext. cbn [length app typeof jstype_eqb].
  rewrite !bind_assoc.
  rewrite (bind_get _ _ _ _ _ (read_app_l _ _ _ _ Message._signed_ Hd)).
  rewrite Hs. cbn [truthy]. rewrite bind_ret.
  rewrite (bind_get _ _ _ _ _ (read_app_l _ _ _ _ Message._signed_ Hd)).
  rewrite Hs. cbn [truthy]. rewrite bind_ret.
  rewrite bind_set_ext. cbn [lookup list_lookup insert list_insert].
  rewrite (bind_get _ _ _ _ _ (read_app_l _ _ _ _ Message._params_ Hd)).
  rewrite Hp. rewrite bind_alloc_ext. cbn [length app].
  rewrite bind_set_ext. cbn [lookup list_lookup insert list_insert].
  rewrite bind_get_ext. cbn [lookup list_lookup].
  change (obj_get (obj_set (obj_set [] Message._signed_ (VObj sl))
                     Message._params_ (VObj (length h + 1))) Message._signed_)
    with (VObj sl).
  rewrite (bind_keys _ _ _ (own_keys os)) by (now apply keys_app_l).
  unfold bind at 1.
  rewrite (stringify_loop_flat (own_keys os) _ (length h + 0) sl
             (obj_set (obj_set [] Message._signed_ (VObj sl))
                Message._params_ (VObj (length h + 1)))
             os).
  - unfold bind at 1, set.
    rewrite list_lookup_insert_ne by lia. rewrite lookup_ext.
    cbn [lookup list_lookup ret].
    rewrite insert_app_l by exact Lsl.
    replace (length h + 0)%nat
      with (length (<[sl := stringified os (own_keys os)]> h) + 0)%nat
      by (now rewrite length_insert).
    rewrite insert_ext. rewrite length_insert, <- E. reflexivity.
  - rewrite lookup_ext. reflexivity.
  - reflexivity.
  - now apply lookup_app_l_Some.
  - lia.
  - exact Hf.
Qed.

(** Construction from an object with a [_signed_] object and no
    [_params_] (or a falsy one: [null], [0], an empty string) gives the
    envelope a new, empty params object; the argument is not given one. *)
Theorem constructor_defaults_params (h : heap) d o sl os :
  h !! d = Some o ->
  obj_get o Message._signed_ = VObj sl ->
  truthy (obj_get o Message._params_) = false ->
  h !! sl = Some os -> flat os -> d <> sl ->
  exists h' p,
    Message.constructor (VObj d) h = (Ok (VObj (length h)), h') /\
    read h' (VObj (length h)) Message._signed_ = Ok (VObj sl) /\
    read h' (VObj (length h)) Message._params_ = Ok (VObj p) /\
    (length h < p)%nat /\ h' !! p = Some [] /\
    signature_of h' (VObj (length h)) = Ok VUndef /\
    h' !! d = Some o.
Proof.
  intros Hd Hs Hp Hsl Hf Hne.
  pose proof (lookup_lt_Some _ _ _ Hd) as Ld.
  eexists _, (length h + 1)%nat.
  split; [exact (constructor_default_params_run h d o sl os Hd Hs Hp Hsl Hf)|].
  set (H := <[sl := stringified os (own_keys os)]> h).
  assert (HL : length H = length h) by apply length_insert.
  assert (Hp1 : (H ++ [[(Message._signed_, VObj sl);
                        (Message._params_, VObj (length h + 1));
                        (Message.verified, VBool false)]; []])
                !! (length h + 1)%nat = Some []).
  { replace (length h + 1)%nat with (length H + 1)%nat by lia.
    rewrite lookup_ext. reflexivity. }
  split; [rewrite (read_new H _ (length h) _ _ HL); reflexivity|].
  split; [rewrite (read_new H _ (length h) _ _ HL); reflexivity|].
  split; [lia|]. split; [exact Hp1|]. split.
  - apply (signature_of_reads _ _ (VObj (length h + 1))).
    + rewrite (read_new H _ (length h) _ _ HL). reflexivity.
    + now rewrite (read_obj _ _ _ _ Hp1).
  - rewrite lookup_app_l by (rewrite HL; exact Ld).
    unfold H. now rewrite list_lookup_insert_ne by congruence.
Qed.

Lemma constructor_defaults_params_witness :
  exists h' p,
    Message.constructor (VObj 1%nat)
      [[(str "a", VStr (str "1"))];
       [(Message._signed_, VObj 0%nat); (Message._params_, VNull)]]
    = (Ok (VObj 2%nat), h') /\
    read h' (VObj 2%nat) Message._params_ = Ok (VObj p) /\
    h' !! p = Some [] /\
    read h' (VObj 1%nat) Message._params_ = Ok VNull.
Proof.
  destruct (constructor_defaults_params
              [[(str "a", VStr (str "1"))];
               [(Message._signed_, VObj 0%nat); (Message._params_, VNull)]]
              1%nat
              [(Message._signed_, VObj 0%nat); (Message._params_, VNull)]
              0%nat [(str "a", VStr (str "1"))]
              eq_refl eq_refl eq_refl eq_refl)
    as (h' & p & Hrun & _ & Hp & _ & Hempty & _ & Hd).
  - repeat constructor.
  - discriminate.
  - exists h', p. split; [exact Hrun|]. split; [exact Hp|].
    split; [exact Hempty|].
    now rewrite (read_obj _ _ _ _ Hd).
Defined.

(** ** Construction from a string: the query and its components *)

Lemma constructor_query d1 d2 h :
  query d1 = query d2 ->
  Message.constructor (VStr d1) h = Message.constructor (VStr d2) h.
Proof.
  intros Hq. unfold query in Hq. cbv zeta in Hq.
  unfold Message.constructor. cbn [typeof jstype_eqb]. cbv zeta.
  rewrite Hq. reflexivity.
Qed.

Lemma indexOf_first c pre rest :
  without c pre = true ->
  indexOf (pre ++ c :: rest) [c] = Z.of_nat (length pre).
Proof.
  induction pre as [|d pre IH]; intros Hw.
  - cbn [app indexOf starts_with]. now rewrite N.eqb_refl.
  - cbn [without forallb] in Hw. apply andb_true_iff in Hw as [Hd Hw].
    apply negb_true_iff in Hd.
    cbn [app indexOf starts_with]. rewrite N.eqb_sym, Hd. cbn [andb].
    fold (without c pre) in Hw. rewrite (IH Hw).
    replace (Z.of_nat (length pre) =? -1) with false
      by (symmetry; apply Z.eqb_neq; lia).
    cbn [length]. lia.
Qed.

Lemma query_after c1 c2 pre rest :
  (c1 = chr "?" /\ c2 = chr "#") \/ (c1 = chr "#" /\ c2 = chr "?") ->
  without c1 pre = true ->
  indexOf (pre ++ c1 :: rest) [c2] < Z.of_nat (length pre) ->
  query (pre ++ c1 :: rest) = rest.
Proof.
  intros Hc H1 H2.
  assert (I1 : indexOf (pre ++ c1 :: rest) [c1] = Z.of_nat (length pre))
    by now apply indexOf_first.
  unfold query.
  change (str "?") with [chr "?"]. change (str "#") with [chr "#"].
  assert (Hdrop : slice (pre ++ c1 :: rest) (Z.of_nat (length pre) + 1) = rest).
  { unfold slice.
    replace (Z.to_nat (Z.of_nat (length pre) + 1)) with (S (length pre)) by lia.
    change (pre ++ c1 :: rest) with (pre ++ [c1] ++ rest).
    rewrite app_assoc.
    replace (S (length pre)) with (length (pre ++ [c1]))
      by (rewrite length_app; simpl; lia).
    apply drop_app_length. }
  destruct Hc as [[-> ->]|[-> ->]]; rewrite I1; cbv zeta.
  - replace (Z.of_nat (length pre) >? indexOf (pre ++ chr "?" :: rest) [chr "#"])
      with true by (symmetry; apply Z.gtb_lt; lia).
    replace (Z.of_nat (length pre) >? -1) with true
      by (symmetry; apply Z.gtb_lt; lia).
    exact Hdrop.
  - replace (indexOf (pre ++ chr "#" :: rest) [chr "?"] >? Z.of_nat (length pre))
      with false by (symmetry; rewrite Z.gtb_ltb; apply Z.ltb_ge; lia).
    replace (Z.of_nat (length pre) >? -1) with true
      by (symmetry; apply Z.gtb_lt; lia).
    exact Hdrop.
Qed.

(** What precedes the query is ignored: a string with a [?] or a [#]
    gives the same envelope as the part that follows it, and when both
    occur, as the part that follows the later one. *)
Theorem constructor_ignores_location (h : heap) pre mid q :
  without (chr "?") pre = true -> without (chr "#") pre = true ->
  without (chr "?") mid = true -> without (chr "#") mid = true ->
  without (chr "?") q = true -> without (chr "#") q = true ->
  Message.constructor (VStr (pre ++ chr "?" :: q)) h
  = Message.constructor (VStr q) h /\
  Message.constructor (VStr (pre ++ chr "#" :: q)) h
  = Message.constructor (VStr q) h /\
  Message.constructor (VStr (pre ++ chr "?" :: mid ++ chr "#" :: q)) h
  = Message.constructor (VStr q) h /\
  Message.constructor (VStr (pre ++ chr "#" :: mid ++ chr "?" :: q)) h
  = Message.constructor (VStr q) h.
Proof.
  intros P1 P2 M1 M2 Q1 Q2.
  pose proof (query_plain q Q1 Q2) as Hq.
  assert (A : forall c (a b : jsstring),
            (pre ++ c :: a ++ b) = (pre ++ c :: a) ++ b)
    by (intros; now rewrite <- app_assoc).
  assert (L : forall c (a : jsstring),
            Z.of_nat (length pre) < Z.of_nat (length (pre ++ c :: a)))
    by (intros; rewrite length_app; simpl; lia).
  repeat split; apply constructor_query; rewrite Hq.
  - apply (query_after (chr "?") (chr "#")); [auto|exact P1|].
    rewrite indexOf_without; [lia|].
    rewrite without_app, P2. cbn [without forallb]. exact Q2.
  - apply (query_after (chr "#") (chr "?")); [auto|exact P2|].
    rewrite indexOf_without; [lia|].
    rewrite without_app, P1. cbn [without forallb]. exact Q1.
  - rewrite A.
    apply (query_after (chr "#") (chr "?")); [auto| |].
    + rewrite without_app, P2. cbn [without forallb]. exact M2.
    + rewrite <- A. rewrite (indexOf_first _ _ _ P1). apply L.
  - rewrite A.
    apply (query_after (chr "?") (chr "#")); [auto| |].
    + rewrite without_app, P1. cbn [without forallb]. exact M1.
    + rewrite <- A. rewrite (indexOf_first _ _ _ P2). apply L.
Qed.

Lemma constructor_ignores_location_witness :
  Message.constructor (VStr (str "https://host/path?_signed_name=hi")) []
  = Message.constructor (VStr (str "_signed_name=hi")) [] /\
  Message.constructor (VStr (str "https://host/path?x=1#_signed_name=hi")) []
  = Message.constructor (VStr (str "_signed_name=hi")) [].
Proof.
  destruct (constructor_ignores_location [] (str "https://host/path")
              (str "x=1") (str "_signed_name=hi")
              eq_refl eq_refl eq_refl eq_refl eq_refl eq_refl)
    as (H1 & _ & H3 & _).
  split; [exact H1|exact H3].
Defined.

Lemma route_fails (h : heap) pl c :
  decodeURIComponent (Message.element (split (chr "=") c) 0) = None \/
  decodeURIComponent (Message.element (split (chr "=") c) 1) = None ->
  Message.route (VObj pl) c h = (Throw URIError, h).
Proof.
  intros Hf. unfold Message.route. cbv zeta. unfold Message.decode.
  destruct (decodeURIComponent (Message.element (split (chr "=") c) 0))
    as [key|] eqn:Hk.
  - destruct Hf as [Hf|Hf]; [discriminate|]. rewrite Hf.
    rewrite bind_ret. now rewrite bind_throw.
  - now rewrite bind_throw.
Qed.

Lemma for_of_route_fails cs : forall (h : heap) pl sb pb os op,
  h !! pl = Some [(Message._signed_, VObj sb); (Message._params_, VObj pb)] ->
  h !! sb = Some os -> h !! pb = Some op ->
  sb <> pb -> pl <> sb -> pl <> pb ->
  route_all cs os op = None ->
  exists os' op',
    for_of cs (Message.route (VObj pl)) h
    = (Throw URIError, <[pb := op']> (<[sb := os']> h)).
Proof.
  induction cs as [|c cs IH];
    intros h pl sb pb os op Hpl Hsb Hpb Hsp Hps Hpp Hall.
  - discriminate.
  - cbn [route_all] in Hall. rewrite for_of_cons.
    destruct (decodeURIComponent (Message.element (split (chr "=") c) 0))
      as [key|] eqn:Hk.
    + destruct (decodeURIComponent (Message.element (split (chr "=") c) 1))
        as [val|] eqn:Hv.
      * unfold bind at 1.
        rewrite (route_run h pl sb pb os op c key val) by assumption.
        pose proof (lookup_lt_Some _ _ _ Hsb) as Lsb.
        pose proof (lookup_lt_Some _ _ _ Hpb) as Lpb.
        set (os1 := route_into Message._signed_ key val os) in *.
        set (op1 := route_into Message._params_ key val op) in *.
        assert (H1 : <[pb := op1]> (<[sb := os1]> h) !! pl
                     = Some [(Message._signed_, VObj sb);
                             (Message._params_, VObj pb)])
          by (rewrite !list_lookup_insert_ne by congruence; exact Hpl).
        assert (H2 : <[pb := op1]> (<[sb := os1]> h) !! sb = Some os1)
          by (rewrite list_lookup_insert_ne by congruence;
              now rewrite list_lookup_insert_eq).
        assert (H3 : <[pb := op1]> (<[sb := os1]> h) !! pb = Some op1)
          by (rewrite list_lookup_insert_eq; [reflexivity|];
              now rewrite length_insert).
        destruct (IH _ pl sb pb os1 op1 H1 H2 H3 Hsp Hps Hpp Hall)
          as (os' & op' & Hrun).
        exists os', op'. rewrite Hrun.
        rewrite (list_insert_insert_ne _ sb pb) by exact Hsp.
        now rewrite !list_insert_insert_eq.
      * exists os, op. unfold bind at 1.
        rewrite (route_fails h pl c) by (right; exact Hv).
        rewrite (list_insert_id h sb os) by exact Hsb.
        now rewrite list_insert_id by exact Hpb.
    + exists os, op. unfold bind at 1.
      rewrite (route_fails h pl c) by (left; exact Hk).
      rewrite (list_insert_id h sb os) by exact Hsb.
      now rewrite list_insert_id by exact Hpb.
Qed.

(** A string with a component whose key or value is not a well-formed
    percent-encoding makes the constructor throw a [URIError]; no envelope
    is returned, and the objects that existed before are as they were. *)
Theorem constructor_uri_error (h : heap) data :
  route_all (split (chr "&") (query data)) [] [] = None ->
  exists h',
    Message.constructor (VStr data) h = (Throw URIError, h') /\
    take (length h) h' = h.
Proof.
  intros Hall. unfold query in Hall. cbv zeta in Hall.
  set (h1 := h ++ [[]; []; [];
                   [(Message._signed_, VObj (length h + 1));
                    (Message._params_, VObj (length h + 2))]]).
  assert (H1 : h1 !! (length h + 3)%nat
               = Some [(Message._signed_, VObj (length h + 1));
                       (Message._params_, VObj (length h + 2))])
    by (unfold h1; rewrite lookup_ext; reflexivity).
  assert (H2 : h1 !! (length h + 1)%nat = Some [])
    by (unfold h1; rewrite lookup_ext; reflexivity).
  assert (H3 : h1 !! (length h + 2)%nat = Some [])
    by (unfold h1; rewrite lookup_ext; reflexivity).
  destruct (for_of_route_fails _ h1 (length h + 3) (length h + 1) (length h + 2)
              [] [] H1 H2 H3 ltac:(lia) ltac:(lia) ltac:(lia) Hall)
    as (os' & op' & Hrun).
  unfold h1 in Hrun.
  eexists. split.
  - rewrite <- (app_nil_r h) at 1.
    unfold Message.constructor.
    rewrite bind_alloc_ext. cbn [length app typeof jstype_eqb].
    rewrite !bind_assoc, bind_alloc_ext. cbn [length app].
    rewrite !bind_assoc, bind_alloc_ext. cbn [length app].
    rewrite !bind_assoc, bind_alloc_ext. cbn [length app].
    rewrite !bind_assoc.
    unfold bind at 1. cbv zeta. rewrite Hrun. reflexivity.
  - rewrite !insert_ext. apply take_app_length.
Qed.

Lemma constructor_uri_error_witness :
  exists h',
    Message.constructor (VStr (str "_signed_name=hi&_signed_rate=100%")) []
    = (Throw URIError, h').
Proof.
  destruct (constructor_uri_error []
              (str "_signed_name=hi&_signed_rate=100%") eq_refl)
    as (h' & Hrun & _).
  exists h'. exact Hrun.
Defined.

Lemma starts_with_app p s : starts_with p (p ++ s) = true.
Proof.
  induction p as [|c p IH]; [reflexivity|].
  cbn [app starts_with]. now rewrite N.eqb_refl, IH.
Qed.

Lemma indexOf_prefix p s : indexOf (p ++ s) p = 0.
Proof.
  destruct (p ++ s) eqn:E; cbn [indexOf]; rewrite <- E, starts_with_app;
    reflexivity.
Qed.

(** A component without [=] is filed with the value ["undefined"]: the
    missing second piece reaches [decodeURIComponent] as [undefined], which
    is turned into a string. *)
Theorem constructor_missing_value (h : heap) k :
  without (chr "=") k = true -> without (chr "&") k = true ->
  without percent k = true ->
  without (chr "?") k = true -> without (chr "#") k = true ->
  k <> proto_name ->
  exists h' this s,
    Message.constructor (VStr (Message._signed_ ++ k)) h = (Ok this, h') /\
    read h' this Message._signed_ = Ok s /\
    read h' s k = Ok (VStr (str "undefined")).
Proof.
  intros He Ha Hp Hq Hh Hk.
  assert (W : forall c, without c Message._signed_ = true ->
                        without c k = true ->
                        without c (Message._signed_ ++ k) = true).
  { intros c H1 H2. now rewrite without_app, H1, H2. }
  assert (Hall : route_all (split (chr "&") (query (Message._signed_ ++ k))) [] []
                 = Some ([(k, VStr (str "undefined"))],
                         route_into Message._params_ (Message._signed_ ++ k)
                           (str "undefined") [])).
  { rewrite query_plain by (apply W; [reflexivity|assumption]).
    rewrite split_without by (apply W; [reflexivity|assumption]).
    rewrite (route_all_cons _ _ _ _ (Message._signed_ ++ k) (str "undefined")).
    - cbn [route_all]. unfold route_into at 1.
      rewrite indexOf_prefix. cbn [Z.eqb].
      change (substring (Message._signed_ ++ k) (strlen Message._signed_))
        with k.
      rewrite (obj_set_define _ _ _ Hk). reflexivity.
    - rewrite split_without by (apply W; [reflexivity|assumption]).
      apply decode_without. apply W; [reflexivity|assumption].
    - rewrite split_without by (apply W; [reflexivity|assumption]).
      reflexivity. }
  pose proof (constructor_uri h _ _ _ Hall) as Hc.
  assert (E : VObj (length h) = VObj (length h + 0)) by (f_equal; lia).
  rewrite E in Hc.
  eexists _, (VObj (length h + 0)), (VObj (length h + 1)).
  split; [exact Hc|].
  split; [rewrite read_ext; reflexivity|].
  rewrite read_ext. cbn [lookup list_lookup]. f_equal.
  cbn [obj_get]. now rewrite jsstring_eqb_refl.
Qed.

Lemma constructor_missing_value_witness :
  exists h' this s,
    Message.constructor (VStr (str "_signed_flag")) [] = (Ok this, h') /\
    read h' this Message._signed_ = Ok s /\
    read h' s (str "flag") = Ok (VStr (str "undefined")).
Proof.
  apply (constructor_missing_value [] (str "flag")); try reflexivity.
  discriminate.
Defined.

Lemma constructor_routes_last_pair_witness :
  exists h' this s,
    Message.constructor (VStr (str "_signed_a=1&_signed_a=2")) [] = (Ok this, h') /\
    read h' this Message._signed_ = Ok s /\
    read h' s (str "a") = Ok (VStr (str "2")).
Proof.
  destruct (constructor_routes_last_pair [] (str "_signed_a=1&_signed_a=2")
              [str "_signed_a=1"] (str "_signed_a=2")
              [(str "a", VStr (str "1"))] []
              (str "_signed_a") (str "2")
              eq_refl eq_refl eq_refl eq_refl)
    as (h' & this & s & p & Hrun & Hs & _ & Hget & _); [discriminate|].
  exists h', this, s. split; [exact Hrun|]. split; [exact Hs|].
  apply Hget. discriminate.
Defined.

(** ** The payload of an envelope of primitive values *)

Lemma serialize_props_fields fuel (h : heap) stack (o : list (jsstring * value)) ks :
  flat o ->
  serialize_props (serialize fuel h stack) o ks
  = Ok (omap (fun k => match json_of_primitive (obj_get o k) with
                       | Some j => Some (k, j)
                       | None => None
                       end) ks).
Proof.
  intros Ho. induction ks as [|k ks IH]; [reflexivity|].
  cbn [serialize_props omap list_omap].
  rewrite (serialize_of_primitive _ _ _ _ (obj_get_flat o k Ho)), IH.
  destruct (json_of_primitive (obj_get o k)); reflexivity.
Qed.

Lemma serialize_flat fuel (h : heap) stack l o :
  h !! l = Some o -> flat o -> existsb (Nat.eqb l) stack = false ->
  serialize (S fuel) h stack (VObj l) = Ok (Some (JObj (flat_fields o))).
Proof.
  intros Hl Ho Hs. cbn [serialize]. rewrite Hs, Hl.
  now rewrite (serialize_props_fields fuel h (l :: stack) o (own_keys o) Ho).
Qed.

Lemma not_on_stack (l n : nat) : (l < n)%nat -> existsb (Nat.eqb l) [n] = false.
Proof.
  intros H. simpl. rewrite orb_false_r. apply Nat.eqb_neq. lia.
Qed.

(** The text of [{_signed_: os, _params_: op}]. *)
Lemma snapshot_text (h : heap) sl l os op :
  h !! sl = Some os -> h !! l = Some op -> flat os -> flat op ->
  serialize (S (S (length h)))
    (h ++ [[(Message._signed_, VObj sl); (Message._params_, VObj l)]])
    [] (VObj (length h))
  = Ok (Some (payload_text os op)).
Proof.
  intros Hsl Hl Hfs Hfp.
  pose proof (lookup_lt_Some _ _ _ Hsl) as Lsl.
  pose proof (lookup_lt_Some _ _ _ Hl) as Ll.
  set (h1 := h ++ [[(Message._signed_, VObj sl); (Message._params_, VObj l)]]).
  assert (Hsnap : h1 !! length h
                  = Some [(Message._signed_, VObj sl); (Message._params_, VObj l)])
    by (unfold h1; now apply list_lookup_middle).
  change (serialize (S (S (length h))) h1 [] (VObj (length h)))
    with (match h1 !! length h with
          | None => Stuck
          | Some o =>
              match serialize_props (serialize (S (length h)) h1 [length h])
                      o (own_keys o) with
              | Ok fields => Ok (Some (JObj fields))
              | Throw e => Throw e
              | Stuck => Stuck
              end
          end).
  rewrite Hsnap.
  change (own_keys [(Message._signed_, VObj sl); (Message._params_, VObj l)])
    with [Message._signed_; Message._params_].
  cbn [serialize_props].
  change (obj_get [(Message._signed_, VObj sl); (Message._params_, VObj l)]
            Message._signed_) with (VObj sl).
  change (obj_get [(Message._signed_, VObj sl); (Message._params_, VObj l)]
            Message._params_) with (VObj l).
  rewrite (serialize_flat (length h) h1 [length h] sl os)
    by (try (unfold h1; now apply lookup_app_l_Some); auto using not_on_stack).
  rewrite (serialize_flat (length h) h1 [length h] l op)
    by (try (unfold h1; now apply lookup_app_l_Some); auto using not_on_stack).
  reflexivity.
Qed.

Lemma parse_flat_members (o : list (jsstring * value)) ks :
  flat o -> forall (acc : list (jsstring * value)) (h : heap),
  parse_members JSON_parse
    (omap (fun k => match json_of_primitive (obj_get o k) with
                    | Some j => Some (k, j)
                    | None => None
                    end) ks) acc h
  = (Ok (define_all acc
           (map (fun k => (k, obj_get o k))
              (List.filter (fun k => defined (obj_get o k)) ks))), h).
Proof.
  intros Ho. induction ks as [|k ks IH]; intros acc h; [reflexivity|].
  cbn [omap list_omap List.filter].
  pose proof (obj_get_flat o k Ho) as Hp.
  destruct (obj_get o k) as [| |b|n|s|l'] eqn:E;
    cbn [json_of_primitive defined map parse_members];
    try (change (JSON_parse JNull) with (@ret value VNull));
    try (change (JSON_parse (JBool b)) with (ret (VBool b)));
    try (change (JSON_parse (JNum n)) with (ret (VNum n)));
    try (change (JSON_parse (JStr s)) with (ret (VStr s)));
    rewrite ?bind_ret, ?IH, ?E; try reflexivity.
  destruct Hp.
Qed.

Lemma filter_sublist {A} (f : A -> bool) (l : list A) :
  List.filter f l `sublist_of` l.
Proof.
  induction l as [|x l IH]; simpl; [constructor|].
  destruct (f x); now constructor.
Qed.

Lemma flat_copy_keys (o : list (jsstring * value)) :
  map fst (flat_copy o)
  = List.filter (fun k => defined (obj_get o k)) (own_keys o).
Proof.
  unfold flat_copy. rewrite map_map. cbn [fst]. apply map_id.
Qed.

Lemma flat_copy_NoDup (o : list (jsstring * value)) :
  NoDup (map fst o) -> NoDup (map fst (flat_copy o)).
Proof.
  intros Hnd. rewrite flat_copy_keys.
  eapply sublist_NoDup; [|apply filter_sublist]. now apply own_keys_NoDup.
Qed.

Lemma flat_copy_own_keys (o : list (jsstring * value)) :
  own_keys (flat_copy o)
  = List.filter (fun k => defined (obj_get o k)) (own_keys o).
Proof.
  unfold own_keys at 1. rewrite flat_copy_keys.
  apply keys_order_fixed.
  eapply sublist_sorted; [apply filter_sublist|apply keys_order_sorted].
Qed.

Lemma flat_copy_get (o : list (jsstring * value)) k :
  NoDup (map fst o) -> obj_get (flat_copy o) k = obj_get o k.
Proof.
  intros Hnd. destruct (defined (obj_get o k)) eqn:D.
  - assert (Hown : has_own o k = true).
    { destruct (has_own o k) eqn:Hown; [reflexivity|].
      rewrite (has_own_false_get _ _ Hown) in D. discriminate. }
    apply obj_get_nodup; [now apply flat_copy_NoDup|].
    unfold flat_copy. apply in_map_iff. exists k. split; [reflexivity|].
    apply filter_In. split; [|exact D].
    apply own_keys_in. now apply has_own_in.
  - assert (Hu : obj_get o k = VUndef) by (destruct (obj_get o k); now try discriminate).
    rewrite Hu. apply has_own_false_get.
    destruct (has_own (flat_copy o) k) eqn:Hown; [|reflexivity].
    apply has_own_in in Hown. rewrite flat_copy_keys in Hown.
    apply filter_In in Hown as [_ Hd]. congruence.
Qed.

Lemma flat_copy_flat (o : list (jsstring * value)) : flat o -> flat (flat_copy o).
Proof.
  intros Ho. unfold flat, flat_copy. apply List.Forall_forall.
  intros [k v] Hin. apply in_map_iff in Hin as (k' & [= <- <-] & _).
  cbn [snd]. now apply obj_get_flat.
Qed.

Lemma parse_flat_object (o : list (jsstring * value)) (h : heap) :
  flat o -> NoDup (map fst o) ->
  JSON_parse (JObj (flat_fields o)) h = (Ok (VObj (length h)), h ++ [flat_copy o]).
Proof.
  intros Ho Hnd. rewrite JSON_parse_object. unfold bind, flat_fields.
  rewrite (parse_flat_members o (own_keys o) Ho [] h).
  fold (flat_copy o).
  rewrite (define_all_fresh (flat_copy o) [])
    by (simpl; now apply flat_copy_NoDup).
  reflexivity.
Qed.

(** What [payload] returns for an envelope whose buckets hold primitive
    values, object by object. *)
Lemma payload_flat_run (h : heap) t sl l ot os op :
  h !! t = Some ot ->
  obj_get ot Message._signed_ = VObj sl -> obj_get ot Message._params_ = VObj l ->
  h !! sl = Some os -> h !! l = Some op -> flat os -> flat op ->
  NoDup (map fst os) -> NoDup (map fst op) ->
  Message.payload (VObj t) h
  = (Ok (VObj (length h + 3)),
     h ++ [ [(Message._signed_, VObj sl); (Message._params_, VObj l)];
            flat_copy os; flat_copy op;
            [(Message._signed_, VObj (length h + 1));
             (Message._params_, VObj (length h + 2))] ]).
Proof.
  intros Ht Hs Hp Hsl Hl Hfs Hfp Hns Hnp.
  rewrite (payload_run h t ot Ht). cbv zeta. rewrite Hs, Hp.
  set (h1 := h ++ [[(Message._signed_, VObj sl); (Message._params_, VObj l)]]).
  assert (Hlen : length h1 = S (length h))
    by (unfold h1; rewrite length_app; simpl; lia).
  rewrite Hlen. unfold h1 at 1.
  rewrite (snapshot_text h sl l os op Hsl Hl Hfs Hfp).
  unfold payload_text. rewrite JSON_parse_object.
  cbn [parse_members]. rewrite !bind_assoc.
  unfold bind at 1. rewrite (parse_flat_object os h1 Hfs Hns).
  rewrite bind_assoc.
  unfold bind at 1. rewrite (parse_flat_object op _ Hfp Hnp).
  rewrite bind_ret. unfold alloc.
  rewrite !length_app, Hlen. cbn [length].
  unfold h1. rewrite <- !app_assoc. cbn [app].
  replace (S (length h) + 1 + 1)%nat with (length h + 3)%nat by lia.
  replace (S (length h) + 1)%nat with (length h + 2)%nat by lia.
  replace (S (length h)) with (length h + 1)%nat by lia.
  reflexivity.
Qed.

(** For an envelope whose buckets hold primitive values, [payload]
    returns a new object with the two names [_signed_] and [_params_] (the
    flag [verified] is not part of it), bound to two new objects.  Reading
    any name from a copy gives what the bucket gives, and the names of a copy
    are those of the bucket whose value is not [undefined], in the same
    order: a param cleared to [undefined] is absent.  The objects that
    existed before are as they were. *)
Theorem payload_copies_defined_values (h : heap) t sl l ot os op :
  h !! t = Some ot ->
  obj_get ot Message._signed_ = VObj sl -> obj_get ot Message._params_ = VObj l ->
  h !! sl = Some os -> h !! l = Some op -> flat os -> flat op ->
  NoDup (map fst os) -> NoDup (map fst op) ->
  exists h' root s p,
    Message.payload (VObj t) h = (Ok (VObj root), h') /\
    take (length h) h' = h /\
    read h' (VObj root) Message._signed_ = Ok (VObj s) /\
    read h' (VObj root) Message._params_ = Ok (VObj p) /\
    (length h <= s)%nat /\ (length h <= p)%nat /\ s <> p /\
    fst (Object_keys (VObj root) h') = Ok [Message._signed_; Message._params_] /\
    (forall k, read h' (VObj s) k = Ok (obj_get os k)) /\
    (forall k, read h' (VObj p) k = Ok (obj_get op k)) /\
    fst (Object_keys (VObj s) h')
    = Ok (List.filter (fun k => defined (obj_get os k)) (own_keys os)) /\
    fst (Object_keys (VObj p) h')
    = Ok (List.filter (fun k => defined (obj_get op k)) (own_keys op)).
Proof.
  intros Ht Hs Hp Hsl Hl Hfs Hfp Hns Hnp.
  eexists _, (length h + 3)%nat, (length h + 1)%nat, (length h + 2)%nat.
  split; [exact (payload_flat_run h t sl l ot os op Ht Hs Hp Hsl Hl Hfs Hfp Hns Hnp)|].
  split; [apply take_app_length|].
  split; [rewrite read_ext; reflexivity|].
  split; [rewrite read_ext; reflexivity|].
  split; [lia|]. split; [lia|]. split; [lia|].
  split; [unfold Object_keys; rewrite lookup_ext; reflexivity|].
  split; [intros k; rewrite read_ext; cbn [lookup list_lookup]; f_equal;
          now apply flat_copy_get|].
  split; [intros k; rewrite read_ext; cbn [lookup list_lookup]; f_equal;
          now apply flat_copy_get|].
  split; unfold Object_keys; rewrite lookup_ext; cbn [lookup list_lookup fst];
    f_equal; apply flat_copy_own_keys.
Qed.

Lemma payload_copies_defined_values_witness :
  read cleared_envelope (VObj 2%nat) Message.sig = Ok VUndef /\
  fst (Object_keys (VObj 2%nat) cleared_envelope)
  = Ok [Message.sig; Message.alias] /\
  exists h' root p,
    Message.payload (VObj 0%nat) cleared_envelope = (Ok (VObj root), h') /\
    read h' (VObj root) Message._params_ = Ok (VObj p) /\
    fst (Object_keys (VObj p) h') = Ok [Message.alias] /\
    read h' (VObj p) Message.alias = Ok (VStr (str "616c696365")) /\
    take 6 h' = cleared_envelope.
Proof.
  split; [reflexivity|]. split; [reflexivity|].
  destruct (payload_copies_defined_values cleared_envelope 0%nat 1%nat 2%nat
              [(Message._signed_, VObj 1%nat); (Message._params_, VObj 2%nat);
               (Message.verified, VBool false)]
              [(str "name", VStr (str "hi"))]
              [(Message.sig, VUndef);
               (Message.alias, VStr (str "616c696365"))]
              eq_refl eq_refl eq_refl eq_refl eq_refl)
    as (h' & root & s & p & Hrun & Htake & _ & Hp & _ & _ & _ & _ & _ & Hget
        & _ & Hkeys).
  - repeat constructor.
  - repeat constructor.
  - apply (bool_decide_unpack _). vm_compute. exact I.
  - apply (bool_decide_unpack _). vm_compute. exact I.
  - exists h', root, p. split; [exact Hrun|]. split; [exact Hp|].
    split; [exact Hkeys|]. split; [apply Hget|exact Htake].
Defined.

Lemma serialize_props_ok_each rec (o : list (jsstring * value)) ks fields :
  serialize_props rec o ks = Ok fields ->
  forall k, In k ks -> exists r, rec (obj_get o k) = Ok r.
Proof.
  revert fields. induction ks as [|k0 ks IH]; intros fields H k Hin;
    [destruct Hin|].
  cbn [serialize_props] in H.
  destruct (rec (obj_get o k0)) as [r| |] eqn:Hr; try discriminate.
  destruct (serialize_props rec o ks) as [fs| |] eqn:Hp; try discriminate.
  destruct Hin as [<-|Hin]; [eauto|]. now apply (IH fs).
Qed.

Lemma serialize_object fuel (h : heap) stack l :
  serialize (S fuel) h stack (VObj l)
  = if existsb (Nat.eqb l) stack then Throw TypeError
    else match h !! l with
         | None => Stuck
         | Some o =>
             match serialize_props (serialize fuel h (l :: stack)) o
                     (own_keys o) with
             | Ok fields => Ok (Some (JObj fields))
             | Throw e => Throw e
             | Stuck => Stuck
             end
         end.
Proof. reflexivity. Qed.

Lemma serialize_on_stack fuel (h : heap) stack l :
  existsb (Nat.eqb l) stack = true ->
  serialize fuel h stack (VObj l) = Throw TypeError.
Proof. intros H. destruct fuel; cbn [serialize]; now rewrite H. Qed.

Lemma snapshot_closed (h : heap) t ot :
  heap_closed h -> h !! t = Some ot ->
  heap_closed (h ++ [[(Message._signed_, obj_get ot Message._signed_);
                      (Message._params_, obj_get ot Message._params_)]]).
Proof.
  intros Hh Ht.
  set (h1 := h ++ _).
  assert (Hlen : length h1 = S (length h))
    by (unfold h1; rewrite length_app; simpl; lia).
  assert (Hot : Forall (fun kv => valid (length h) (snd kv)) ot).
  { unfold heap_closed in Hh. rewrite Forall_forall in Hh. apply Hh.
    eapply list_elem_of_lookup_2; eauto. }
  assert (Hmono : forall v, valid (length h) v -> valid (length h1) v).
  { intros [| | | | |l]; simpl; auto. lia. }
  unfold heap_closed. unfold h1 at 2. apply Forall_app. split.
  - eapply Forall_impl; [exact Hh|]. intros o Ho.
    eapply Forall_impl; [exact Ho|]. intros kv. apply Hmono.
  - repeat constructor; apply Hmono; now apply obj_get_valid.
Qed.

(** A bucket that refers to itself makes [payload] throw the [TypeError]
    of a cyclic structure; nothing is returned, and the objects that existed
    before are as they were. *)
Theorem payload_cyclic_type_error (h : heap) t ot f b ob k :
  heap_closed h -> h !! t = Some ot ->
  f = Message._signed_ \/ f = Message._params_ ->
  obj_get ot f = VObj b -> h !! b = Some ob ->
  In k (map fst ob) -> obj_get ob k = VObj b ->
  exists h',
    Message.payload (VObj t) h = (Throw TypeError, h') /\
    take (length h) h' = h.
Proof.
  intros Hh Ht Hf Hb Hob Hk Hself.
  pose proof (lookup_lt_Some _ _ _ Hob) as Lb.
  rewrite (payload_run h t ot Ht). cbv zeta.
  set (s := obj_get ot Message._signed_). set (p := obj_get ot Message._params_).
  set (h1 := h ++ [[(Message._signed_, s); (Message._params_, p)]]).
  assert (Hlen : length h1 = S (length h))
    by (unfold h1; rewrite length_app; simpl; lia).
  assert (Hh1 : heap_closed h1) by (now apply (snapshot_closed h t ot)).
  assert (Hsnap : h1 !! length h
                  = Some [(Message._signed_, s); (Message._params_, p)])
    by (unfold h1; now apply list_lookup_middle).
  assert (Hb1 : h1 !! b = Some ob) by (unfold h1; now apply lookup_app_l_Some).
  pose proof (serialize_progress h1 Hh1 (S (length h1)) [] (VObj (length h))) as Hprog.
  destruct (serialize (S (length h1)) h1 [] (VObj (length h))) as [r|e|] eqn:Hser.
  - exfalso. rewrite Hlen, serialize_object in Hser. cbn [existsb] in Hser.
    rewrite Hsnap in Hser.
    destruct (serialize_props (serialize (S (length h)) h1 [length h])
                [(Message._signed_, s); (Message._params_, p)]
                (own_keys [(Message._signed_, s); (Message._params_, p)]))
      as [fields| |] eqn:Hprops; try discriminate.
    destruct (serialize_props_ok_each _ _ _ _ Hprops f) as [r1 Hr1].
    { destruct Hf as [->| ->]; [now left|right; now left]. }
    assert (Hval : obj_get [(Message._signed_, s); (Message._params_, p)] f
                   = VObj b).
    { destruct Hf as [->| ->]; exact Hb. }
    rewrite Hval, serialize_object in Hr1.
    rewrite (not_on_stack b (length h) Lb), Hb1 in Hr1.
    destruct (serialize_props (serialize (length h) h1 [b; length h]) ob
                (own_keys ob)) as [fields'| |] eqn:Hprops'; try discriminate.
    destruct (serialize_props_ok_each _ _ _ _ Hprops' k) as [r2 Hr2].
    { now apply own_keys_in. }
    rewrite Hself in Hr2.
    rewrite serialize_on_stack in Hr2; [discriminate|].
    cbn [existsb]. now rewrite Nat.eqb_refl.
  - apply serialize_throws in Hser. subst e.
    eexists. split; [reflexivity|]. unfold h1. apply take_app_length.
  - exfalso. apply Hprog; try reflexivity; try constructor; simpl; lia.
Qed.

Lemma payload_cyclic_type_error_witness :
  exists h',
    Message.payload (VObj 0%nat) cyclic_envelope = (Throw TypeError, h') /\
    take 3 h' = cyclic_envelope.
Proof.
  apply (payload_cyclic_type_error cyclic_envelope 0%nat
           [(Message._signed_, VObj 1%nat); (Message._params_, VObj 2%nat);
            (Message.verified, VBool false)]
           Message._params_ 2%nat [(str "self", VObj 2%nat)] (str "self")).
  - repeat constructor; simpl; lia.
  - reflexivity.
  - now right.
  - reflexivity.
  - reflexivity.
  - now left.
  - reflexivity.
Defined.

(** ** [toString] *)

(** [toString] returns the text of [{_signed_: this._signed_, _params_:
    this._params_}]: going through the copy that [payload] makes changes
    nothing in the text.  It returns whenever that text exists, and the
    objects that existed before are as they were.  The numbers of the text
    are safe integers, printed digit by digit. *)
Theorem toString_text (h : heap) t ot j :
  heap_ok h -> h !! t = Some ot ->
  fst (JSON_stringify (VObj (length h))
         (h ++ [[(Message._signed_, obj_get ot Message._signed_);
                 (Message._params_, obj_get ot Message._params_)]]))
  = Ok (Some j) ->
  json_safe j = true ->
  exists h',
    Message.toString (VObj t) h = (Ok (VStr (render j)), h') /\
    take (length h) h' = h.
Proof.
  intros Hh Ht Hj _. unfold JSON_stringify in Hj. cbn [fst] in Hj.
  set (h1 := h ++ [[(Message._signed_, obj_get ot Message._signed_);
                    (Message._params_, obj_get ot Message._params_)]]) in *.
  destruct (serialize_ok h1 (snapshot_ok h _ _ Hh) _ _ _ _ Hj) as [Hok Hd].
  destruct (parses_all j h1) as (v & ext & Hrun & Hv & Hc & Hvalid & Hrt).
  exists (h1 ++ ext). split.
  - unfold Message.toString. unfold bind at 1.
    rewrite (payload_run h t ot Ht). cbv zeta. fold h1. rewrite Hj, Hrun.
    unfold bind, JSON_stringify.
    specialize (Hrt Hok (S (length (h1 ++ ext))) [] []).
    rewrite !app_nil_r in Hrt. rewrite Hrt; [reflexivity| |constructor].
    rewrite length_app. lia.
  - unfold h1. rewrite <- app_assoc. apply take_app_length.
Qed.

Lemma toString_text_witness :
  exists h',
    Message.toString (VObj 0%nat) signed_envelope
    = (Ok (VStr (str "{" ++ quote (str "_signed_") ++ str ":{"
                 ++ quote (str "name") ++ str ":" ++ quote (str "hi")
                 ++ str "}," ++ quote (str "_params_") ++ str ":{"
                 ++ quote (str "sig") ++ str ":" ++ quote sig40 ++ str "}}")),
       h') /\
    take 4 h' = signed_envelope.
Proof.
  apply (toString_text signed_envelope 0%nat
           [(Message._signed_, VObj 1%nat); (Message._params_, VObj 2%nat);
            (Message.verified, VBool false)]
           (JObj [(Message._signed_, JObj [(str "name", JStr (str "hi"))]);
                  (Message._params_, JObj [(Message.sig, JStr sig40)])])).
  - unfold heap_ok. apply (bool_decide_unpack _). vm_compute. exact I.
  - reflexivity.
  - reflexivity.
  - reflexivity.
Defined.

(** ** A clone made through [payload] *)

Lemma flat_copy_stored (o : list (jsstring * value)) k :
  NoDup (map fst o) ->
  obj_get (stringified (flat_copy o) (own_keys (flat_copy o))) k
  = stored_text (obj_get o k).
Proof.
  intros Hnd. now rewrite stringified_all_get, flat_copy_get.
Qed.

(** [new Message(m.payload)] is an independent clone of [m]: a new
    envelope whose two buckets are new objects with the values of [m]'s
    buckets (signed values that are not strings as their texts; the buckets
    hold primitive values and the signed numbers are safe integers), unverified
    whatever [m] is, while [m] and every other object that existed before
    are as they were. *)
Theorem clone_through_payload (h : heap) t sl l ot os op :
  h !! t = Some ot ->
  obj_get ot Message._signed_ = VObj sl -> obj_get ot Message._params_ = VObj l ->
  h !! sl = Some os -> h !! l = Some op -> flat os -> flat op ->
  NoDup (map fst os) -> NoDup (map fst op) -> safe_numbers os ->
  exists h' clone s p,
    (let* v := Message.payload (VObj t) in Message.constructor v) h
    = (Ok (VObj clone), h') /\
    take (length h) h' = h /\
    (length h <= clone)%nat /\ (length h <= s)%nat /\ (length h <= p)%nat /\
    read h' (VObj clone) Message._signed_ = Ok (VObj s) /\
    read h' (VObj clone) Message._params_ = Ok (VObj p) /\
    read h' (VObj clone) Message.verified = Ok (VBool false) /\
    (forall k, read h' (VObj s) k = Ok (stored_text (obj_get os k))) /\
    (forall k, read h' (VObj p) k = Ok (obj_get op k)).
Proof.
  intros Ht Hs Hp Hsl Hl Hfs Hfp Hns Hnp _.
  set (h2 := h ++ [ [(Message._signed_, VObj sl); (Message._params_, VObj l)];
                    flat_copy os; flat_copy op;
                    [(Message._signed_, VObj (length h + 1));
                     (Message._params_, VObj (length h + 2))] ]).
  assert (Hlen : length h2 = (length h + 4)%nat)
    by (unfold h2; rewrite length_app; simpl; lia).
  assert (Hroot : h2 !! (length h + 3)%nat
                  = Some [(Message._signed_, VObj (length h + 1));
                          (Message._params_, VObj (length h + 2))])
    by (unfold h2; rewrite lookup_ext; reflexivity).
  assert (Hcs : h2 !! (length h + 1)%nat = Some (flat_copy os))
    by (unfold h2; rewrite lookup_ext; reflexivity).
  assert (Hcp : h2 !! (length h + 2)%nat = Some (flat_copy op))
    by (unfold h2; rewrite lookup_ext; reflexivity).
  set (X := stringified (flat_copy os) (own_keys (flat_copy os))).
  set (H := <[(length h + 1)%nat := X]> h2).
  assert (HL : length H = (length h + 4)%nat)
    by (unfold H; now rewrite length_insert).
  exists (H ++ [[(Message._signed_, VObj (length h + 1));
                 (Message._params_, VObj (length h + 2));
                 (Message.verified, VBool false)]]),
    (length h + 4)%nat, (length h + 1)%nat, (length h + 2)%nat.
  split; [|split; [|split; [|split; [|split; [|split; [|split; [|split; [|split]]]]]]]].
  - unfold bind at 1.
    rewrite (payload_flat_run h t sl l ot os op Ht Hs Hp Hsl Hl Hfs Hfp Hns Hnp).
    fold h2.
    rewrite (constructor_shared_run h2 (length h + 3) _ (length h + 1)
               (VObj (length h + 2)) (flat_copy os) Hroot eq_refl eq_refl
               eq_refl Hcs (flat_copy_flat os Hfs)).
    now rewrite Hlen.
  - unfold H, h2. rewrite insert_ext, <- app_assoc. apply take_app_length.
  - lia.
  - lia.
  - lia.
  - rewrite (read_new H _ _ _ _ HL). reflexivity.
  - rewrite (read_new H _ _ _ _ HL). reflexivity.
  - rewrite (read_new H _ _ _ _ HL). reflexivity.
  - intros k.
    rewrite (read_app_l H _ (length h + 1) X k)
      by (unfold H; apply list_lookup_insert_eq; lia).
    f_equal. now apply flat_copy_stored.
  - intros k.
    rewrite (read_app_l H _ (length h + 2) (flat_copy op) k)
      by (unfold H; rewrite list_lookup_insert_ne by lia; exact Hcp).
    f_equal. now apply flat_copy_get.
Qed.

Lemma clone_through_payload_witness :
  exists h' clone s p,
    (let* v := Message.payload (VObj 0%nat) in Message.constructor v)
      verified_envelope = (Ok (VObj clone), h') /\
    take 6 h' = verified_envelope /\
    read h' (VObj clone) Message._signed_ = Ok (VObj s) /\
    read h' (VObj clone) Message._params_ = Ok (VObj p) /\
    read h' (VObj clone) Message.verified = Ok (VBool false) /\
    read h' (VObj s) (str "name") = Ok (VStr (str "hi")) /\
    read h' (VObj p) Message.sig = Ok (VStr sig40).
Proof.
  destruct (clone_through_payload verified_envelope 0%nat 1%nat 2%nat
              [(Message._signed_, VObj 1%nat); (Message._params_, VObj 2%nat);
               (Message.verified, VBool true)]
              [(str "name", VStr (str "hi"))]
              [(Message.sig, VStr sig40);
               (Message.alias, VStr (str "616c696365"))]
              eq_refl eq_refl eq_refl eq_refl eq_refl)
    as (h' & clone & s & p & Hrun & Htake & _ & _ & _ & Hs & Hp & Hv & Hgs & Hgp).
  - repeat constructor.
  - repeat constructor.
  - apply (bool_decide_unpack _). vm_compute. exact I.
  - apply (bool_decide_unpack _). vm_compute. exact I.
  - repeat constructor.
  - exists h', clone, s, p. split; [exact Hrun|]. split; [exact Htake|].
    split; [exact Hs|]. split; [exact Hp|]. split; [exact Hv|].
    split; [apply Hgs|apply Hgp].
Defined.

(** ** Signing *)

Lemma copied_cons o target k ks :
  copied o target (k :: ks) = copied o (obj_define target k (obj_get o k)) ks.
Proof. reflexivity. Qed.

Lemma copy_props_object ks : forall (target : list (jsstring * value))
  (h : heap) l o,
  h !! l = Some o ->
  copy_props (VObj l) ks target h = (Ok (copied o target ks), h).
Proof.
  induction ks as [|k ks IH]; intros target h l o Hl; [reflexivity|].
  cbn [copy_props]. rewrite (bind_get _ _ _ _ _ (read_obj _ _ _ k Hl)).
  rewrite copied_cons. now apply IH.
Qed.

Lemma spread_object (target : list (jsstring * value)) (h : heap) l o :
  h !! l = Some o ->
  spread target (VObj l) h = (Ok (copied o target (own_keys o)), h).
Proof.
  intros Hl. unfold spread.
  rewrite (bind_keys _ _ _ (own_keys o))
    by (unfold Object_keys; now rewrite Hl).
  now apply copy_props_object.
Qed.

Lemma copied_get o ks : forall target k,
  obj_get (copied o target ks) k
  = if includes ks k then obj_get o k else obj_get target k.
Proof.
  induction ks as [|k0 ks IH]; intros target k; [reflexivity|].
  rewrite copied_cons, IH. unfold includes. cbn [existsb].
  destruct (existsb (jsstring_eqb k) ks); [now rewrite orb_true_r|].
  rewrite orb_false_r.
  destruct (jsstring_eqb k k0) eqn:E.
  - apply jsstring_eqb_eq in E. subst k0. apply obj_define_get_eq.
  - apply jsstring_eqb_neq in E. apply obj_define_get_ne. congruence.
Qed.

Lemma includes_own_keys (o : list (jsstring * value)) k :
  includes (own_keys o) k = has_own o k.
Proof.
  destruct (has_own o k) eqn:Hown.
  - unfold includes. apply existsb_exists. exists k.
    split; [|apply jsstring_eqb_refl].
    apply own_keys_in. now apply has_own_in.
  - destruct (includes (own_keys o) k) eqn:Hinc; [|reflexivity].
    unfold includes in Hinc. apply existsb_exists in Hinc as (k' & Hin & E).
    apply jsstring_eqb_eq in E. subst k'.
    apply own_keys_in, has_own_in in Hin. congruence.
Qed.

(** The object literal [{ ...a, ...b }] for two objects: the value of a
    name is [b]'s when [b] has the name, and [a]'s otherwise. *)
Lemma spread_two_get (oa ob : list (jsstring * value)) k :
  obj_get (copied ob (copied oa [] (own_keys oa)) (own_keys ob)) k
  = if has_own ob k then obj_get ob k else obj_get oa k.
Proof.
  rewrite copied_get, includes_own_keys.
  destruct (has_own ob k); [reflexivity|].
  rewrite copied_get, includes_own_keys.
  destruct (has_own oa k) eqn:Hown; [reflexivity|].
  now rewrite (has_own_false_get _ _ Hown).
Qed.

Lemma sign_run error_text (h : heap) t l ot op e domain created pl np :
  h !! t = Some ot -> obj_get ot Message._params_ = VObj l ->
  h !! l = Some op ->
  signData e h (obj_get ot Message._signed_) (default_domain domain)
  = Fulfils created (Signing (VObj pl)) ->
  (h ++ created) !! pl = Some np ->
  Message.sign error_text (VObj t) (Some e) domain h
  = (Ok (VObj t),
     <[t := obj_set (obj_set ot Message._params_
                       (VObj (length (h ++ created))))
              Message.verified (VBool true)]>
       ((h ++ created)
        ++ [copied np (copied op [] (own_keys op)) (own_keys np)])).
Proof.
  intros Ht Hp Hl Hsvc Hnp.
  pose proof (lookup_lt_Some _ _ _ Ht) as Lt.
  assert (Ht1 : (h ++ created) !! t = Some ot) by now apply lookup_app_l_Some.
  assert (Hl1 : (h ++ created) !! l = Some op) by now apply lookup_app_l_Some.
  unfold Message.sign. unfold bind at 1, catch.
  rewrite (bind_get _ _ _ _ _ (read_obj _ _ _ Message._signed_ Ht)).
  unfold bind at 1, Message.call_signer. rewrite Hsvc.
  cbn [Message.destructure_params]. rewrite bind_ret.
  rewrite (bind_get _ _ _ _ _ (eq_trans (read_obj _ _ _ _ Ht1) (f_equal Ok Hp))).
  unfold bind at 1. rewrite (spread_object [] _ l op Hl1).
  unfold bind at 1. rewrite (spread_object _ _ pl np Hnp).
  unfold bind at 1, alloc.
  assert (Ht2 : ((h ++ created)
                 ++ [copied np (copied op [] (own_keys op)) (own_keys np)]) !! t
                = Some ot) by now apply lookup_app_l_Some.
  rewrite (bind_set_obj _ _ _ _ _ _ Ht2).
  unfold set. rewrite list_lookup_insert_eq by (rewrite !length_app; lia).
  rewrite list_insert_insert_eq. reflexivity.
Qed.

(** A successful [sign] returns the envelope itself, verified, with a
    new params object: the params the service returned, over the params the
    envelope had (a name of both takes the service's value).  The params
    object the envelope had before is not written to, so whoever else holds
    it does not see the signature; the signed bucket is the same object as
    before. *)
Theorem sign_merges_into_new_params error_text (h : heap) t l ot op e domain
  created pl np :
  h !! t = Some ot -> obj_get ot Message._params_ = VObj l ->
  h !! l = Some op -> t <> l ->
  signData e h (obj_get ot Message._signed_) (default_domain domain)
  = Fulfils created (Signing (VObj pl)) ->
  (h ++ created) !! pl = Some np ->
  exists h' n,
    Message.sign error_text (VObj t) (Some e) domain h = (Ok (VObj t), h') /\
    read h' (VObj t) Message._params_ = Ok (VObj n) /\
    (length h <= n)%nat /\
    (forall k, read h' (VObj n) k
               = Ok (if has_own np k then obj_get np k else obj_get op k)) /\
    read h' (VObj t) Message.verified = Ok (VBool true) /\
    read h' (VObj t) Message._signed_ = Ok (obj_get ot Message._signed_) /\
    h' !! l = Some op.
Proof.
  intros Ht Hp Hl Htl Hsvc Hnp.
  pose proof (lookup_lt_Some _ _ _ Ht) as Lt.
  pose proof (lookup_lt_Some _ _ _ Hl) as Ll.
  eexists _, (length (h ++ created)).
  split; [exact (sign_run error_text h t l ot op e domain created pl np
                   Ht Hp Hl Hsvc Hnp)|].
  set (m := copied np (copied op [] (own_keys op)) (own_keys np)).
  set (h1 := h ++ created).
  assert (L1 : (length h <= length h1)%nat)
    by (unfold h1; rewrite length_app; lia).
  assert (Lh : (t < length (h1 ++ [m]))%nat) by (rewrite length_app; lia).
  split; [|split; [exact L1|split; [|split; [|split]]]].
  - rewrite read_insert by exact Lh. rewrite Nat.eqb_refl.
    f_equal. rewrite obj_set_get_ne by discriminate.
    apply obj_set_get_eq. discriminate.
  - intros k. rewrite read_insert by exact Lh.
    replace (Nat.eqb t (length h1)) with false
      by (symmetry; apply Nat.eqb_neq; lia).
    rewrite (read_new h1 [] (length h1) m k eq_refl). f_equal.
    apply spread_two_get.
  - rewrite read_insert by exact Lh. rewrite Nat.eqb_refl.
    f_equal. apply obj_set_get_eq, verified_not_proto.
  - rewrite read_insert by exact Lh. rewrite Nat.eqb_refl.
    f_equal. now rewrite !obj_set_get_ne by discriminate.
  - rewrite list_lookup_insert_ne by exact Htl.
    unfold h1. now rewrite <- app_assoc, lookup_app_l_Some with (x := op).
Qed.

Lemma sign_merges_into_new_params_witness :
  exists h' n,
    Message.sign (fun _ => "failed"%string) (VObj 0%nat)
      (Some (signing_with [(Message.sig, VStr sig40);
                           (Message.alias, VStr (str "616c696365"))]))
      VUndef bob_envelope = (Ok (VObj 0%nat), h') /\
    read h' (VObj 0%nat) Message._params_ = Ok (VObj n) /\
    read h' (VObj n) Message.alias = Ok (VStr (str "616c696365")) /\
    read h' (VObj n) Message.sig = Ok (VStr sig40) /\
    read h' (VObj 0%nat) Message.verified = Ok (VBool true) /\
    read h' (VObj 2%nat) Message.alias = Ok (VStr (str "bob")).
Proof.
  destruct (sign_merges_into_new_params (fun _ => "failed"%string)
              bob_envelope 0%nat 2%nat
              [(Message._signed_, VObj 1%nat); (Message._params_, VObj 2%nat);
               (Message.verified, VBool false)]
              [(Message.alias, VStr (str "bob")); (Message.sig, VStr sig40)]
              (signing_with [(Message.sig, VStr sig40);
                             (Message.alias, VStr (str "616c696365"))])
              VUndef
              [[(Message.sig, VStr sig40);
                (Message.alias, VStr (str "616c696365"))]]
              4%nat
              [(Message.sig, VStr sig40);
               (Message.alias, VStr (str "616c696365"))]
              eq_refl eq_refl eq_refl)
    as (h' & n & Hrun & Hp & _ & Hget & Hv & _ & Hold);
    [discriminate|reflexivity|reflexivity|].
  exists h', n. split; [exact Hrun|]. split; [exact Hp|].
  split; [apply Hget|]. split; [apply Hget|]. split; [exact Hv|].
  apply read_obj with (k := Message.alias) in Hold. exact Hold.
Defined.

(** When signing fails, the envelope is left as it was and the caller
    gets a generic [Error] whose message is the text of the cause: the
    cause is the error the service's promise was rejected with, or, when the
    service answers [undefined] or [null], the [TypeError] of the
    destructuring.  Without a service [sign] throws before it does
    anything. *)
Theorem sign_failure_leaves_envelope error_text (h : heap) t ot e domain :
  h !! t = Some ot ->
  (forall err,
     signData e h (obj_get ot Message._signed_) (default_domain domain)
     = Refuses err ->
     Message.sign error_text (VObj t) (Some e) domain h
     = (Throw (Error (error_text err)), h)) /\
  (forall created,
     signData e h (obj_get ot Message._signed_) (default_domain domain)
     = Fulfils created NoSigning ->
     Message.sign error_text (VObj t) (Some e) domain h
     = (Throw (Error (error_text TypeError)), h ++ created)) /\
  Message.sign error_text (VObj t) None domain h
  = (Throw MissingSigningService, h).
Proof.
  intros Ht. split; [|split].
  - intros err Hsvc. unfold Message.sign. unfold bind at 1, catch.
    rewrite (bind_get _ _ _ _ _ (read_obj _ _ _ Message._signed_ Ht)).
    unfold bind at 1, Message.call_signer. rewrite Hsvc. reflexivity.
  - intros created Hsvc. unfold Message.sign. unfold bind at 1, catch.
    rewrite (bind_get _ _ _ _ _ (read_obj _ _ _ Message._signed_ Ht)).
    unfold bind at 1, Message.call_signer. rewrite Hsvc.
    cbn [Message.destructure_params]. rewrite bind_throw. reflexivity.
  - reflexivity.
Qed.

Lemma sign_failure_leaves_envelope_witness :
  Message.sign (fun _ => "no wallet"%string) (VObj 0%nat)
    (Some (refusing (Error "no wallet"))) VUndef unsigned_envelope
  = (Throw (Error "no wallet"), unsigned_envelope) /\
  Message.sign (fun _ => "no wallet"%string) (VObj 0%nat) None VUndef
    unsigned_envelope = (Throw MissingSigningService, unsigned_envelope).
Proof.
  destruct (sign_failure_leaves_envelope (fun _ => "no wallet"%string)
              unsigned_envelope 0%nat
              [(Message._signed_, VObj 1%nat); (Message._params_, VObj 2%nat);
               (Message.verified, VBool false)]
              (refusing (Error "no wallet")) VUndef eq_refl)
    as (Href & _ & Hnone).
  split; [apply (Href (Error "no wallet")); reflexivity|exact Hnone].
Defined.

(** Whatever goes wrong in [sign], the exception that leaves it is a
    generic [Error]: a [TypeError] raised inside is never passed on as
    such. *)
Theorem sign_throws_errors_only error_text this earth domain h e h' :
  Message.sign error_text this earth domain h = (Throw e, h') ->
  exists msg, e = Error msg.
Proof.
  unfold Message.sign. destruct earth as [e0|].
  - unfold bind at 1, catch.
    match goal with
    | |- context [match ?m h with _ => _ end] =>
        destruct (m h) as [[a|e1|] h1]
    end.
    + discriminate.
    + intros [= <- _]. eauto.
    + discriminate.
  - intros [= <- _]. unfold MissingSigningService. eauto.
Qed.

Lemma sign_throws_errors_only_witness :
  exists msg,
    fst (Message.sign (fun _ => "cannot destructure"%string) (VObj 0%nat)
           (Some {| signData := fun _ _ _ => Fulfils [] NoSigning |})
           VUndef unsigned_envelope) = Throw (Error msg).
Proof.
  destruct (sign_throws_errors_only (fun _ => "cannot destructure"%string)
              (VObj 0%nat)
              (Some {| signData := fun _ _ _ => Fulfils [] NoSigning |})
              VUndef unsigned_envelope
              (Error "cannot destructure") (unsigned_envelope ++ []) eq_refl)
    as [msg Hmsg].
  exists msg. rewrite <- Hmsg. reflexivity.
Defined.
